(** * asdb-jobs: the background job runner of the antiSMASH database

    A shallow embedding of the runner's result parser ([blast.py]), its
    run-time configuration ([config.py]), its database models
    ([models/job.py], [models/control.py]) and its dispatch and supervision
    logic ([core.py]), followed by the properties established about them.

    Conventions of the embedding.
    - Python values that travel through JSON, TOML and the object attributes
      are values of [pyval]; floats and dates are outside this universe (the
      one float computation of the program, the identity of a hit, is
      modelled bit-exactly in [Float64]).  A [Path] is represented by its text.
    - A Python [str] is a [string] read as a sequence of code points
      below 256.
    - A raised exception is a class of [exn_class] with its [str()] text
      (for the builtin exceptions, the fixed part of the message);
      [issubclass] follows [errors.py].
    - Stateful code is written in the state-and-exception monad [M]. *)

From Stdlib Require Import ZArith Lia Bool Ascii String List Sorting.Sorted.
From stdpp Require Import base numbers list gmap strings pretty.

#[local] Set Warnings "-register-all".
#[local] Open Scope string_scope.
#[local] Open Scope Z_scope.

(** ** Python values and exceptions *)

Module Py.

Inductive pyval : Type :=
| PNone
| PBool (b : bool)
| PInt (z : Z)
| PStr (s : string)
| PList (l : list pyval)
| PDict (d : list (string * pyval))
| PEngine.

(** The exception classes the runner can meet: the builtins it raises or
    lets through, and the hierarchy of [errors.py]. *)
Inductive exn_class : Type :=
| ValueError | KeyError | TypeError | AttributeError
| ZeroDivisionError | OverflowError | OSError | TOMLDecodeError
| ASDBJobsError
| ControlError | InvalidControlName
| JobError | InvalidJobData | InvalidJobId | InvalidJobType | JobConfict.

Record exn : Type := Exn { exn_cls : exn_class; exn_str : string }.

(** [class C(B)]: the direct base class, as declared in [errors.py]
    ([ASDBJobsError(ValueError)], [JobError(ASDBJobsError)], ...). *)
Definition base_class (c : exn_class) : option exn_class :=
  match c with
  | ASDBJobsError => Some ValueError
  | ControlError => Some ASDBJobsError
  | InvalidControlName => Some ControlError
  | JobError => Some ASDBJobsError
  | InvalidJobData | InvalidJobId | InvalidJobType | JobConfict => Some JobError
  | _ => None
  end.

Definition exn_class_eqb (a b : exn_class) : bool :=
  match a, b with
  | ValueError, ValueError | KeyError, KeyError | TypeError, TypeError
  | AttributeError, AttributeError | ZeroDivisionError, ZeroDivisionError
  | OverflowError, OverflowError | OSError, OSError
  | TOMLDecodeError, TOMLDecodeError
  | ASDBJobsError, ASDBJobsError | ControlError, ControlError
  | InvalidControlName, InvalidControlName | JobError, JobError
  | InvalidJobData, InvalidJobData | InvalidJobId, InvalidJobId
  | InvalidJobType, InvalidJobType | JobConfict, JobConfict => true
  | _, _ => false
  end.

(** [issubclass c target], by walking up the bases (the hierarchy is three
    levels deep). *)
Fixpoint issubclass_upto (n : nat) (c target : exn_class) : bool :=
  exn_class_eqb c target ||
  match n with
  | O => false
  | S n' => match base_class c with
            | Some b => issubclass_upto n' b target
            | None => false
            end
  end.

Definition issubclass : exn_class -> exn_class -> bool := issubclass_upto 4.

(** [except target:] catches [e]. *)
Definition caught_by (target : exn_class) (e : exn) : bool :=
  issubclass (exn_cls e) target.

(** Results of code that may raise. *)
Inductive res (A : Type) : Type :=
| Ok (a : A)
| Raise (e : exn).
Arguments Ok {A} a.
Arguments Raise {A} e.

Definition rbind {A B} (r : res A) (k : A -> res B) : res B :=
  match r with
  | Ok a => k a
  | Raise e => Raise e
  end.

Fixpoint rmap {A B} (f : A -> res B) (l : list A) : res (list B) :=
  match l with
  | [] => Ok []
  | x :: l' => rbind (f x) (fun y => rbind (rmap f l') (fun ys => Ok (y :: ys)))
  end.

(** [d[k]] on an association list (the first binding of [k]). *)
Fixpoint assoc (k : string) (d : list (string * pyval)) : option pyval :=
  match d with
  | [] => None
  | (k', v) :: d' => if String.eqb k' k then Some v else assoc k d'
  end.

(** [v[k]] with a string key. *)
Definition getitem (v : pyval) (k : string) : res pyval :=
  match v with
  | PDict d => match assoc k d with
               | Some x => Ok x
               | None => Raise (Exn KeyError k)
               end
  | _ => Raise (Exn TypeError "object is not subscriptable by a str")
  end.

End Py.
Export Py.

#[global] Instance res_ret : MRet res := @Ok.
#[global] Instance res_bind : MBind res := fun A B k r => rbind r k.

(** ** Strings: [str.strip], [str.split] and [int] *)

Module Str.

Definition ord (c : ascii) : Z := Z.of_N (N_of_ascii c).

(** [str.isspace] on the code points below 256. *)
Definition isspace (c : ascii) : bool :=
  let n := ord c in
  ((9 <=? n) && (n <=? 13)) || ((28 <=? n) && (n <=? 31))
  || (n =? 32) || (n =? 133) || (n =? 160).

(** The white space [int] skips around a literal: [isspace] without the
    four separators 28..31. *)
Definition int_space (c : ascii) : bool :=
  let n := ord c in
  ((9 <=? n) && (n <=? 13)) || (n =? 32) || (n =? 133) || (n =? 160).

Fixpoint lstrip (sp : ascii -> bool) (s : string) : string :=
  match s with
  | EmptyString => EmptyString
  | String c s' => if sp c then lstrip sp s' else s
  end.

Fixpoint rstrip (sp : ascii -> bool) (s : string) : string :=
  match s with
  | EmptyString => EmptyString
  | String c s' =>
      match rstrip sp s' with
      | EmptyString => if sp c then EmptyString else String c EmptyString
      | r => String c r
      end
  end.

(** [s.strip()] *)
Definition strip (s : string) : string := rstrip isspace (lstrip isspace s).

(** [s.split(sep)] for a one-character separator: never empty. *)
Fixpoint split (sep : ascii) (s : string) : list string :=
  match s with
  | EmptyString => [EmptyString]
  | String c s' =>
      if Ascii.eqb c sep then EmptyString :: split sep s'
      else match split sep s' with
           | h :: t => String c h :: t
           | [] => [String c EmptyString]
           end
  end.

Definition isdigit (c : ascii) : bool := (48 <=? ord c) && (ord c <=? 57).

(** Decimal digits with single underscores between digits. *)
Fixpoint int_digits (s : string) (acc : Z) (prev_digit : bool) : option Z :=
  match s with
  | EmptyString => if prev_digit then Some acc else None
  | String c s' =>
      if isdigit c then int_digits s' (10 * acc + (ord c - 48)) true
      else if Ascii.eqb c "_" && prev_digit then int_digits s' acc false
      else None
  end.

(** [int(s)] in base 10: surrounding white space, an optional sign, digits.
    (The interpreter's configurable limit on the number of digits is not
    part of the model.) *)
Definition py_int (s : string) : res Z :=
  let t := rstrip int_space (lstrip int_space s) in
  let '(neg, body) :=
    match t with
    | String "-" b => (true, b)
    | String "+" b => (false, b)
    | _ => (false, t)
    end in
  match int_digits body 0 false with
  | Some n => Ok (if neg then - n else n)
  | None => Raise (Exn ValueError ("invalid literal for int() with base 10: " ++ s))
  end.

End Str.

(** ** Binary64 arithmetic, as far as [from_line] uses it

    A finite float is [m * 2^e]; every operation rounds its exact result to
    the nearest binary64 value, ties to even, with gradual underflow. *)

Module Float64.

Inductive float : Type :=
| Finite (m e : Z)
| Infinity.

(** [n / d] rounded to the nearest integer, ties to even ([0 < d]). *)
Definition rne (n d : Z) : Z :=
  let q := n / d in
  let r := n mod d in
  if 2 * r <? d then q
  else if d <? 2 * r then q + 1
  else if Z.even q then q else q + 1.

(** [2^k <= n / d] *)
Definition pow2_le (k n d : Z) : bool :=
  if 0 <=? k then d * 2 ^ k <=? n else d <=? n * 2 ^ (- k).

(** [floor (log2 (n / d))] for [0 < n] and [0 < d]. *)
Definition qlog2 (n d : Z) : Z :=
  let k := Z.log2 n - Z.log2 d in
  if pow2_le k n d then k else k - 1.

(** The rational [n / d] ([0 < d]) rounded to binary64: 53 significant
    bits, least exponent -1074, overflow to infinity. *)
Definition round_q (n d : Z) : float :=
  if n =? 0 then Finite 0 0
  else
    let k := qlog2 (Z.abs n) d in
    let e := Z.max (k - 52) (-1074) in
    let m := if 0 <=? e then rne n (d * 2 ^ e) else rne (n * 2 ^ (- e)) d in
    if (971 <? e) || ((e =? 971) && (Z.abs m =? 2 ^ 53)) then Infinity
    else Finite m e.

(** [a / b] on ints: the correctly rounded quotient. *)
Definition truediv (a b : Z) : res float :=
  if b =? 0 then Raise (Exn ZeroDivisionError "division by zero")
  else
    match (if 0 <? b then round_q a b else round_q (- a) (- b)) with
    | Infinity =>
        Raise (Exn OverflowError "integer division result too large for a float")
    | x => Ok x
    end.

(** [x * k] for a float [x] and a small int [k] (exactly representable). *)
Definition mul_int (x : float) (k : Z) : float :=
  match x with
  | Infinity => Infinity
  | Finite m e =>
      if 0 <=? e then round_q (m * k * 2 ^ e) 1 else round_q (m * k) (2 ^ (- e))
  end.

(** [round(x)]: the nearest int, ties to even. *)
Definition round (x : float) : res Z :=
  match x with
  | Infinity => Raise (Exn OverflowError "cannot convert float infinity to integer")
  | Finite m e => Ok (if 0 <=? e then m * 2 ^ e else rne m (2 ^ (- e)))
  end.

End Float64.

(** ** blast.py *)

Module BlastResult.

Record t : Type := mk {
  q_acc : string;
  s_acc : string;
  identity : Z;
  q_seq : string;
  q_start : Z;
  q_end : Z;
  q_len : Z;
  s_seq : string;
  s_start : Z;
  s_end : Z;
  s_len : Z;
}.

(** [fields(cls)] *)
Definition fields : list string :=
  ["q_acc"; "s_acc"; "identity"; "q_seq"; "q_start"; "q_end"; "q_len";
   "s_seq"; "s_start"; "s_end"; "s_len"].

(** [round((nident / q_len) * 100)] *)
Definition compute_identity (nident q_len : Z) : res Z :=
  x ← Float64.truediv nident q_len;
  Float64.round (Float64.mul_int x 100).

Definition from_line (line : string) : res t :=
  let parts := Str.split "009" (Str.strip line) in
  let part i := nth i parts EmptyString in
  if negb (length parts =? length fields)%nat then
    Raise (Exn ValueError "Unexpected line")
  else
    let q_acc := part 0%nat in
     let s_acc := part 1%nat in
     nident ← Str.py_int (part 2%nat);
     let q_seq := part 3%nat in
     q_start ← Str.py_int (part 4%nat);
     q_end ← Str.py_int (part 5%nat);
     q_len ← Str.py_int (part 6%nat);
     identity ← compute_identity nident q_len;
     let s_seq := part 7%nat in
     s_start ← Str.py_int (part 8%nat);
     s_end ← Str.py_int (part 9%nat);
     s_len ← Str.py_int (part 10%nat);
     Ok (mk q_acc s_acc identity q_seq q_start q_end q_len
            s_seq s_start s_end s_len).

(** [asdict(self)] *)
Definition to_json (r : t) : pyval :=
  PDict [("q_acc", PStr (q_acc r)); ("s_acc", PStr (s_acc r));
         ("identity", PInt (identity r)); ("q_seq", PStr (q_seq r));
         ("q_start", PInt (q_start r)); ("q_end", PInt (q_end r));
         ("q_len", PInt (q_len r)); ("s_seq", PStr (s_seq r));
         ("s_start", PInt (s_start r)); ("s_end", PInt (s_end r));
         ("s_len", PInt (s_len r))].

End BlastResult.

Definition parse_blast (lines : list string) : res (list BlastResult.t) :=
  rmap BlastResult.from_line lines.

Module ComparippsonResult.

Record t : Type := mk {
  q_acc : string;
  s_locus : pyval;
  s_type : pyval;
  s_acc : pyval;
  s_rec_start : pyval;
  s_rec_end : pyval;
  identity : Z;
  q_seq : string;
  q_start : Z;
  q_end : Z;
  q_len : Z;
  s_seq : string;
  s_start : Z;
  s_end : Z;
  s_len : Z;
}.

(** [blast.s_acc.split("|")[0]] *)
Definition entry_id (blast : BlastResult.t) : string :=
  nth 0 (Str.split "|" (BlastResult.s_acc blast)) EmptyString.

Definition from_blast (blast : BlastResult.t) (metadata : pyval) : res t :=
  entries ← getitem metadata "entries";
  data ← getitem entries (entry_id blast);
  s_locus ← getitem data "locus";
  s_type ← getitem data "type";
  s_acc ← getitem data "accession";
  s_rec_start ← getitem data "start";
  s_rec_end ← getitem data "end";
  Ok (mk (BlastResult.q_acc blast)
         s_locus s_type s_acc s_rec_start s_rec_end
         (BlastResult.identity blast)
         (BlastResult.q_seq blast) (BlastResult.q_start blast)
         (BlastResult.q_end blast) (BlastResult.q_len blast)
         (BlastResult.s_seq blast) (BlastResult.s_start blast)
         (BlastResult.s_end blast) (BlastResult.s_len blast)).

(** [asdict(self)] *)
Definition to_json (r : t) : pyval :=
  PDict [("q_acc", PStr (q_acc r)); ("s_locus", s_locus r);
         ("s_type", s_type r); ("s_acc", s_acc r);
         ("s_rec_start", s_rec_start r); ("s_rec_end", s_rec_end r);
         ("identity", PInt (identity r)); ("q_seq", PStr (q_seq r));
         ("q_start", PInt (q_start r)); ("q_end", PInt (q_end r));
         ("q_len", PInt (q_len r)); ("s_seq", PStr (s_seq r));
         ("s_start", PInt (s_start r)); ("s_end", PInt (s_end r));
         ("s_len", PInt (s_len r))].

End ComparippsonResult.

Module ClusterBlastResult.

(** Modelled from the spec: [core.py] imports [ClusterBlastResult] from
    [blast.py], which does not define it.  The specification describes it
    as "the BlastResult projected to JSON with derived identity": the
    same eleven fields, taken over from the parsed row. *)
Definition from_blast (blast : BlastResult.t) : BlastResult.t := blast.

(** Modelled from the spec: the JSON projection of the eleven fields. *)
Definition to_json (r : BlastResult.t) : pyval := BlastResult.to_json r.

End ClusterBlastResult.

(** ** Comparison and sorting of Python values *)

Module PyOrd.

(** The int behind an [int] or a [bool]. *)
Definition as_num (v : pyval) : option Z :=
  match v with
  | PInt z => Some z
  | PBool b => Some (if b then 1 else 0)
  | _ => None
  end.

(** [a == b] *)
Fixpoint py_eq (a b : pyval) : bool :=
  match a, b with
  | PNone, PNone => true
  | PEngine, PEngine => true
  | PInt x, PInt y => x =? y
  | PInt x, PBool c => x =? (if c then 1 else 0)
  | PBool c, PInt y => (if c then 1 else 0) =? y
  | PBool c, PBool d => Bool.eqb c d
  | PStr s, PStr t => String.eqb s t
  | PList la, PList lb =>
      (fix go (la lb : list pyval) : bool :=
         match la, lb with
         | [], [] => true
         | x :: xs, y :: ys => py_eq x y && go xs ys
         | _, _ => false
         end) la lb
  | PDict da, PDict db =>
      (length da =? length db)%nat &&
      (fix go (da : list (string * pyval)) : bool :=
         match da with
         | [] => true
         | (k, v) :: r =>
             match assoc k db with
             | Some v' => py_eq v v' && go r
             | None => false
             end
         end) da
  | _, _ => false
  end.

Definition not_ordered : exn :=
  Exn TypeError "'<' not supported between instances".

(** [a < b] *)
Fixpoint py_lt (a b : pyval) : res bool :=
  match a, b with
  | PInt x, PInt y => Ok (x <? y)
  | PInt x, PBool c => Ok (x <? (if c then 1 else 0))
  | PBool c, PInt y => Ok ((if c then 1 else 0) <? y)
  | PBool c, PBool d => Ok (negb c && d)
  | PStr s, PStr t => Ok (String.ltb s t)
  | PList la, PList lb =>
      (fix go (la lb : list pyval) : res bool :=
         match la, lb with
         | [], [] => Ok false
         | [], _ :: _ => Ok true
         | _ :: _, [] => Ok false
         | x :: xs, y :: ys => if py_eq x y then go xs ys else py_lt x y
         end) la lb
  | _, _ => Raise not_ordered
  end.

(** [a > b]: the reflected [b < a] for the builtin types. *)
Definition py_gt (a b : pyval) : res bool := py_lt b a.

(** [v + k] and [v - k] for an int [k]. *)
Definition py_add_int (v : pyval) (k : Z) : res pyval :=
  match as_num v with
  | Some n => Ok (PInt (n + k))
  | None => Raise (Exn TypeError "unsupported operand type(s) for +")
  end.

Definition py_sub_int (v : pyval) (k : Z) : res pyval :=
  match as_num v with
  | Some n => Ok (PInt (n - k))
  | None => Raise (Exn TypeError "unsupported operand type(s) for -")
  end.

(** [list.sort(key=..., reverse=True)] on a list decorated with its keys:
    a stable sort that only asks [<] of the keys, and raises when a
    comparison does.  [x] precedes every element of [l] in the input, so it
    is placed before the first element whose key is not greater. *)
Fixpoint insert_desc {A} (k : pyval) (x : A) (l : list (pyval * A))
  : res (list (pyval * A)) :=
  match l with
  | [] => Ok [(k, x)]
  | (k', y) :: l' =>
      b ← py_lt k k';
      match b with
      | true => r ← insert_desc k x l'; Ok ((k', y) :: r)
      | false => Ok ((k, x) :: l)
      end
  end.

Fixpoint sort_desc {A} (l : list (pyval * A)) : res (list (pyval * A)) :=
  match l with
  | [] => Ok []
  | (k, x) :: l' => r ← sort_desc l'; insert_desc k x r
  end.

(** [l.sort(key=key, reverse=True)]: the keys are computed first. *)
Definition list_sort_reverse (key : pyval -> res pyval) (l : list pyval)
  : res (list pyval) :=
  keys ← rmap key l;
  sorted ← sort_desc (combine keys l);
  Ok (map snd sorted).

End PyOrd.
Export PyOrd.

(** ** config.py *)

Module RunConfig.

(** A [RunConfig] object is its attribute dictionary; [__init__] gives
    every instance the fifteen attributes of [fields]. *)
Abbreviation t := (gmap string pyval).

(** [fields(RunConfig)], in declaration order; the last three are the
    [init=False] fields. *)
Definition fields : list string :=
  ["configfile"; "cpus"; "db_dir"; "debug"; "max_jobs"; "name"; "workdir";
   "host"; "database"; "password"; "port"; "user";
   "_config_file_hash"; "_db"; "_running_jobs"].

Definition getattr (self : t) (name : string) : res pyval :=
  match self !! name with
  | Some v => Ok v
  | None => Raise (Exn AttributeError name)
  end.

Definition setattr (self : t) (name : string) (v : pyval) : t :=
  <[name := v]> self.

(** [for arg in fields(RunConfig): if arg.name in config: setattr(...)] *)
Definition update_from_dict (self : t) (config : gmap string pyval) : t :=
  foldl (fun s name =>
           match config !! name with
           | Some v => setattr s name v
           | None => s
           end) self fields.

Section ReadConfig.

(** [md5(data.encode("utf-8")).hexdigest()] and [toml.loads]. *)
Variable md5_hexdigest : string -> string.
Variable toml_loads : string -> res (gmap string pyval).

(** [read_config]: [file] is what opening and reading [self.configfile]
    gives.  The object is returned also when the call raises: the new
    fingerprint is stored before the file is parsed. *)
Definition read_config (force : bool) (file : res string) (self : t)
  : res unit * t :=
  match file with
  | Raise e => (Raise e, self)
  | Ok data =>
      let digest := md5_hexdigest data in
      match getattr self "_config_file_hash" with
      | Raise e => (Raise e, self)
      | Ok h =>
          if py_eq (PStr digest) h && negb force then (Ok (), self)
          else
            let self := setattr self "_config_file_hash" (PStr digest) in
            match toml_loads data with
            | Raise e => (Raise e, self)
            | Ok loaded => (Ok (), update_from_dict self loaded)
            end
      end
  end.

End ReadConfig.

(** The [db] property. *)
Definition db (self : t) : res pyval :=
  v ← getattr self "_db";
  match v with
  | PNone => Raise (Exn ValueError "Initialise the database first")
  | _ => Ok v
  end.

(** The [running_jobs] property. *)
Definition running_jobs (self : t) : res pyval := getattr self "_running_jobs".

(** [self._running_jobs += 1] *)
Definition up (self : t) : res t :=
  v ← getattr self "_running_jobs";
  v' ← py_add_int v 1;
  Ok (setattr self "_running_jobs" v').

(** [self._running_jobs -= 1] *)
Definition down (self : t) : res t :=
  v ← getattr self "_running_jobs";
  v' ← py_sub_int v 1;
  Ok (setattr self "_running_jobs" v').

Definition want_more_jobs (self : t) : res bool :=
  r ← running_jobs self;
  m ← getattr self "max_jobs";
  py_lt r m.

Definition want_less_jobs (self : t) : res bool :=
  r ← running_jobs self;
  m ← getattr self "max_jobs";
  py_gt r m.

Section Database.

(** [aiopg.sa.create_engine(user=..., database=..., host=..., port=...,
    password=...)]: what connecting gives. *)
Variable create_engine : pyval -> pyval -> pyval -> pyval -> pyval -> res pyval.

(** [init_db]: the engine is stored in [_db] and returned. *)
Definition init_db (self : t) : res pyval * t :=
  match (user ← getattr self "user";
         database ← getattr self "database";
         host ← getattr self "host";
         port ← getattr self "port";
         password ← getattr self "password";
         create_engine user database host port password) with
  | Ok engine => (Ok engine, setattr self "_db" engine)
  | Raise e => (Raise e, self)
  end.

End Database.

(** [close_db]: [close] and [wait_closed] are methods of an engine. *)
Definition close_db (self : t) : res t :=
  v ← getattr self "_db";
  match v with
  | PNone => Ok self
  | PEngine => Ok (setattr self "_db" PNone)
  | _ => Raise (Exn AttributeError "close")
  end.

(** A field of the dataclass: its name, whether [__init__] takes it, and
    its default when it has one (no field has a default factory). *)
Record field : Type := mkField {
  f_name : string;
  f_init : bool;
  f_default : option pyval;
}.

Section FromArgparse.

(** The three defaults that are outside [pyval] or depend on where the
    package is installed: [_ROOT_DIR / "databases"], the tuple [(False,)]
    that the trailing comma makes of the default of [debug], and
    [_ROOT_DIR / "workdir"]. *)
Variables db_dir_default debug_default workdir_default : pyval.

(** [fields(RunConfig)] with what [from_argparse] reads of each field. *)
Definition dataclass_fields : list field :=
  [mkField "configfile" true None;
   mkField "cpus" true (Some (PInt 2));
   mkField "db_dir" true (Some db_dir_default);
   mkField "debug" true (Some debug_default);
   mkField "max_jobs" true (Some (PInt 5));
   mkField "name" true (Some (PStr "asdb-jobs"));
   mkField "workdir" true (Some workdir_default);
   mkField "host" true (Some (PStr "localhost"));
   mkField "database" true (Some (PStr "antismash"));
   mkField "password" true (Some (PStr "secret"));
   mkField "port" true (Some (PInt 5432));
   mkField "user" true (Some (PStr "postgres"));
   mkField "_config_file_hash" false (Some (PStr EmptyString));
   mkField "_db" false (Some PNone);
   mkField "_running_jobs" false (Some (PInt 0))].

(** The loop of [from_argparse]: [args] is the namespace as a dictionary. *)
Fixpoint collect_kwargs (fs : list field) (args kwargs : gmap string pyval)
  : res (gmap string pyval) :=
  match fs with
  | [] => Ok kwargs
  | f :: fs' =>
      if negb (f_init f) then collect_kwargs fs' args kwargs
      else
        match args !! f_name f with
        | Some v => collect_kwargs fs' args (<[f_name f := v]> kwargs)
        | None =>
            match f_default f with
            | Some d => collect_kwargs fs' args (<[f_name f := d]> kwargs)
            | None => Raise (Exn ValueError ("Missing value for " ++ f_name f))
            end
        end
  end.

(** The generated [__init__], once the keywords are bound: every field is
    assigned, from its keyword or from its default. *)
Fixpoint init_fields (fs : list field) (kwargs : gmap string pyval) (self : t)
  : res t :=
  match fs with
  | [] => Ok self
  | f :: fs' =>
      match (if f_init f then kwargs !! f_name f else None), f_default f with
      | Some v, _ => init_fields fs' kwargs (setattr self (f_name f) v)
      | None, Some d => init_fields fs' kwargs (setattr self (f_name f) d)
      | None, None =>
          Raise (Exn TypeError ("missing required argument: " ++ f_name f))
      end
  end.

(** [cls] called with the collected keywords: a keyword that is no
    [init] field is refused. *)
Definition new (kwargs : gmap string pyval) : res t :=
  if bool_decide (dom kwargs ⊆
                  list_to_set (f_name <$> List.filter f_init dataclass_fields))
  then init_fields dataclass_fields kwargs ∅
  else Raise (Exn TypeError "got an unexpected keyword argument").

Definition from_argparse (args : gmap string pyval) : res t :=
  kwargs ← collect_kwargs dataclass_fields args ∅;
  new kwargs.

End FromArgparse.

End RunConfig.

(** ** The state-and-exception monad

    A computation runs on a state [S] and returns, raises, or never resumes
    ([Blocked]: an [await] that nothing completes).  Effects made before an
    exception stay in the state, as in Python. *)

Module Monad.

Inductive outcome (A : Type) : Type :=
| Ret (a : A)
| Exc (e : exn)
| Blocked.
Arguments Ret {A} a.
Arguments Exc {A} e.
Arguments Blocked {A}.

Definition M (S A : Type) : Type := S -> outcome A * S.

Definition ret {S A} (a : A) : M S A := fun s => (Ret a, s).

Definition bind {S A B} (c : M S A) (k : A -> M S B) : M S B :=
  fun s =>
    match c s with
    | (Ret a, s') => k a s'
    | (Exc e, s') => (Exc e, s')
    | (Blocked, s') => (Blocked, s')
    end.

Definition raise {S A} (e : exn) : M S A := fun s => (Exc e, s).

Definition get {S} : M S S := fun s => (Ret s, s).

Definition gets {S A} (f : S -> A) : M S A := fun s => (Ret (f s), s).

Definition put {S} (s : S) : M S unit := fun _ => (Ret (), s).

Definition modify {S} (f : S -> S) : M S unit := fun s => (Ret (), f s).

(** A pure step that may raise. *)
Definition lift {S A} (r : res A) : M S A :=
  match r with
  | Ok a => ret a
  | Raise e => raise e
  end.

(** [try: body / except cls as err: handler err] *)
Definition try_except {S A} (body : M S A) (cls : exn_class)
    (handler : exn -> M S A) : M S A :=
  fun s =>
    match body s with
    | (Exc e, s') => if caught_by cls e then handler e s' else (Exc e, s')
    | r => r
    end.

(** Run a computation on the second component of the state. *)
Definition on_snd {S1 S2 A} (c : M S2 A) : M (S1 * S2) A :=
  fun '(s1, s2) =>
    match c s2 with
    | (o, s2') => (o, (s1, s2'))
    end.

(** Run a computation on the first component of the state. *)
Definition on_fst {S1 S2 A} (c : M S1 A) : M (S1 * S2) A :=
  fun '(s1, s2) =>
    match c s1 with
    | (o, s1') => (o, (s1', s2))
    end.

(** Run a computation that has an object of its own ([s1]: a job, a
    control) beside the state, and give the object back with the result. *)
Definition run_with {S1 S2 A} (s1 : S1) (c : M (S1 * S2) A) : M S2 (A * S1) :=
  fun s2 =>
    match c (s1, s2) with
    | (Ret a, (s1', s2')) => (Ret (a, s1'), s2')
    | (Exc e, (_, s2')) => (Exc e, s2')
    | (Blocked, (_, s2')) => (Blocked, s2')
    end.

End Monad.
Export Monad.

#[global] Instance M_ret {S} : MRet (M S) := fun A => @ret S A.
#[global] Instance M_bind {S} : MBind (M S) := fun A B k c => bind c k.

(** ** The database and the application object *)

Module Db.

(** A row of [asdb_jobs.jobs]. *)
Record JobRow : Type := mkJobRow {
  row_id : string;
  row_jobtype : string;
  row_status : string;
  row_runner : string;
  row_submitted_date : pyval;
  row_data : pyval;
  row_results : pyval;
  row_version : Z;
}.

(** A row of [asdb_jobs.controls]. *)
Record ControlRow : Type := mkControlRow {
  crow_name : string;
  crow_status : string;
  crow_stop_scheduled : bool;
  crow_version : string;
}.

(** The commands and task starts of the runner that the properties follow,
    in order: a [podman kill] and a dispatcher task started by
    [app.start_task].  The container a handler starts with [podman run] is
    not an entry here: it is the input [run_child] of the handlers, given
    the command line and the payload, and what the runner writes to the
    database is in the two tables. *)
Inductive action : Type :=
| PodmanKill (container_name : string)
| StartTask.

(** The world a task runs in: the two tables, the application object
    ([app['conf']], [app['comparippson_metadata']] and, when the key is set,
    [app['containers']]) and the actions taken so far (latest first). *)
Record World : Type := mkWorld {
  jobs : list JobRow;
  controls : list ControlRow;
  conf : gmap string pyval;
  comparippson_metadata : pyval;
  containers : option (gset string);
  actions : list action;
}.

Definition set_jobs (f : list JobRow -> list JobRow) (w : World) : World :=
  mkWorld (f (jobs w)) (controls w) (conf w) (comparippson_metadata w)
          (containers w) (actions w).

Definition set_controls (f : list ControlRow -> list ControlRow) (w : World)
  : World :=
  mkWorld (jobs w) (f (controls w)) (conf w) (comparippson_metadata w)
          (containers w) (actions w).

Definition set_conf (f : gmap string pyval -> gmap string pyval) (w : World)
  : World :=
  mkWorld (jobs w) (controls w) (f (conf w)) (comparippson_metadata w)
          (containers w) (actions w).

Definition set_containers (c : option (gset string)) (w : World) : World :=
  mkWorld (jobs w) (controls w) (conf w) (comparippson_metadata w)
          c (actions w).

Definition act (a : action) (w : World) : World :=
  mkWorld (jobs w) (controls w) (conf w) (comparippson_metadata w)
          (containers w) (a :: actions w).

(** [engine.acquire()]: only an engine has it. *)
Definition acquire {S} (engine : pyval) : M S unit :=
  match engine with
  | PEngine => ret ()
  | _ => raise (Exn AttributeError "acquire")
  end.

(** A value bound to a text parameter of a statement. *)
Definition text_param {S} (v : pyval) : M S string :=
  match v with
  | PStr s => ret s
  | _ => raise (Exn TypeError "not a text parameter")
  end.

(** [UPDATE jobs SET ... WHERE p] *)
Definition update_jobs (p : JobRow -> bool) (f : JobRow -> JobRow)
  : M World unit :=
  modify (set_jobs (map (fun r => if p r then f r else r))).

(** [INSERT INTO jobs VALUES r] *)
Definition insert_job (r : JobRow) : M World unit :=
  modify (set_jobs (fun rows => (rows ++ [r])%list)).

End Db.
Export Db.

(** ** models/job.py *)

(** [get_job_by_id]: the row with this primary key. *)
Definition get_job_by_id (id : string) : M World JobRow :=
  w ← get;
  match find (fun r => String.eqb (row_id r) id) (jobs w) with
  | Some row => ret row
  | None => raise (Exn InvalidJobId ("Job(" ++ id ++ ") not found in database"))
  end.

Module Job.

Record t : Type := mk {
  engine : pyval;
  id : string;
  jobtype : string;
  status : string;
  runner : string;
  data : pyval;
  results : pyval;
  version : Z;
}.

Definition set_status (s : string) (j : t) : t :=
  mk (engine j) (id j) (jobtype j) s (runner j) (data j) (results j) (version j).

Definition set_runner (s : string) (j : t) : t :=
  mk (engine j) (id j) (jobtype j) (status j) s (data j) (results j) (version j).

Definition set_data (v : pyval) (j : t) : t :=
  mk (engine j) (id j) (jobtype j) (status j) (runner j) v (results j) (version j).

Definition set_results (v : pyval) (j : t) : t :=
  mk (engine j) (id j) (jobtype j) (status j) (runner j) (data j) v (version j).

Definition set_version (v : Z) (j : t) : t :=
  mk (engine j) (id j) (jobtype j) (status j) (runner j) (data j) (results j) v.

(** [Job.from_db(engine, id)] *)
Definition from_db (engine : pyval) (id : string) : M World t :=
  acquire engine;;
  row ← get_job_by_id id;
  ret (mk engine (row_id row) (row_jobtype row) (row_status row)
          (row_runner row) (row_data row) (row_results row) (row_version row)).

(** [self.fetch()] *)
Definition fetch : M (t * World) unit :=
  self ← gets fst;
  acquire (engine self);;
  row ← on_snd (get_job_by_id (id self));
  modify (fun '(self, w) =>
            (mk (engine self) (id self) (jobtype self) (row_status row)
                (row_runner row) (row_data row) (row_results row)
                (row_version row), w)).

Definition conflict_message (self : t) (row : JobRow) : string :=
  "Job(" ++ id self ++ ") changed in database " ++ pretty (row_version row)
  ++ " vs. local " ++ pretty (version self).

(** [self.commit()] *)
Definition commit : M (t * World) unit :=
  self ← gets fst;
  acquire (engine self);;
  try_except
    (row ← on_snd (get_job_by_id (id self));
     if negb (row_version row =? version self) then
       raise (Exn JobConfict (conflict_message self row))
     else
       modify (fun '(self, w) => (set_version (version self + 1) self, w));;
       self ← gets fst;
       on_snd (update_jobs
                 (fun r => String.eqb (row_id r) (id self)
                           && (row_version r =? row_version row))
                 (fun r => mkJobRow (row_id r) (row_jobtype r)
                                    (status self) (runner self)
                                    (row_submitted_date r)
                                    (data self) (results self)
                                    (version self))))
    InvalidJobId
    (fun _ =>
       on_snd (insert_job (mkJobRow (id self) (id self) (status self)
                                    (runner self) PNone (data self)
                                    (results self) (version self)))).

End Job.

Module JobQueue.

Record t : Type := mk {
  engine : pyval;
  name : pyval;
}.

(** [get_next]: [locked] tells which rows other transactions hold a lock
    on; [SELECT ... WHERE status = 'pending' FOR UPDATE SKIP LOCKED LIMIT 1]
    takes the first row of the table that is pending and not locked. *)
Definition get_next (locked : string -> bool) (self : t)
  : M World (option Job.t) :=
  acquire (engine self);;
  w ← get;
  match find (fun r => String.eqb (row_status r) "pending"
                       && negb (locked (row_id r))) (jobs w) with
  | None => ret None
  | Some row =>
      runner ← text_param (name self);
      update_jobs
        (fun r => String.eqb (row_id r) (row_id row)
                  && (row_version r =? row_version row))
        (fun r => mkJobRow (row_id r) (row_jobtype r) "running" runner
                           (row_submitted_date r) (row_data r)
                           (row_results r) (row_version row + 1));;
      job ← Job.from_db (engine self) (row_id row);
      ret (Some job)
  end.

End JobQueue.

(** ** models/control.py *)

Definition get_control (name : string) : M World ControlRow :=
  w ← get;
  match find (fun r => String.eqb (crow_name r) name) (controls w) with
  | Some row => ret row
  | None => raise (Exn InvalidControlName ("No control named " ++ name ++ " found"))
  end.

Module Control.

Record t : Type := mk {
  engine : pyval;
  name : pyval;
  status : string;
  stop_scheduled : bool;
  version : string;
}.

(** [Control.from_db(engine, name)] *)
Definition from_db (engine : pyval) (name : pyval) : M World t :=
  acquire engine;;
  name ← text_param name;
  row ← get_control name;
  ret (mk engine (PStr (crow_name row)) (crow_status row)
          (crow_stop_scheduled row) (crow_version row)).

(** [self.fetch()] *)
Definition fetch : M (t * World) unit :=
  self ← gets fst;
  acquire (engine self);;
  name ← text_param (name self);
  row ← on_snd (get_control name);
  modify (fun '(self, w) =>
            (mk (engine self) (Control.name self) (crow_status row)
                (crow_stop_scheduled row) (version self), w)).

(** [self.commit()]: an upsert. *)
Definition commit : M (t * World) unit :=
  self ← gets fst;
  acquire (engine self);;
  name ← text_param (name self);
  try_except
    (_ ← on_snd (get_control name);
     on_snd (modify (set_controls
       (map (fun r => if String.eqb (crow_name r) name
                      then mkControlRow name (status self)
                                        (stop_scheduled self) (version self)
                      else r)))))
    InvalidControlName
    (fun _ =>
       on_snd (modify (set_controls
         (fun rows => (rows ++ [mkControlRow name (status self)
                                             (stop_scheduled self)
                                             (version self)])%list)))).

(** [self.delete()] *)
Definition delete : M (t * World) unit :=
  self ← gets fst;
  acquire (engine self);;
  name ← text_param (name self);
  _ ← on_snd (get_control name);
  on_snd (modify (set_controls
    (List.filter (fun r => negb (String.eqb (crow_name r) name))))).

End Control.

(** ** core.py *)

Module Core.

Inductive JobOutcome : Type := SUCCESS | FAILURE | TIMEOUT | INTERNAL_ERROR.

(** The tuple an event is completed with: a [JobOutcome] followed by lists
    of lines. *)
Record event_result : Type := mkEvent {
  ev_outcome : JobOutcome;
  ev_rest : list (list string);
}.

(** What the container does once started, as [run_process] sees it.
    - [SpawnFails]: it cannot be started.
    - [Exits]: [proc.communicate()] returns within the hour and both
      outputs decode: the return code with
      [stdout_raw.decode("utf-8").splitlines()] and
      [stderr_raw.decode("utf-8").splitlines()].
    - [Undecodable]: [proc.communicate()] returns within the hour, but
      stdout or stderr is not UTF-8: [decode] raises inside the
      [run_process] task, before the return code is looked at, and that
      task ends without completing the event.
    - [Overruns]: the container is still running when the timer fires.
      [late] is what [run_process] has once the container is killed (the
      return code and the decoded lines), if [proc.communicate()] ever
      returns and the outputs decode, and [cancel_first] tells whether
      [cancel] reaches its [set_result] before [run_process] does. *)
Inductive ChildRun : Type :=
| SpawnFails
| Exits (returncode : Z) (stdout stderr : list string)
| Overruns (late : option (Z * list string * list string)) (cancel_first : bool)
| Undecodable.

Inductive loop_ctl : Type := Continue | Break.

(** [res, stdout, stderr = await event] *)
Definition unpack3 {S} (r : event_result)
  : M S (JobOutcome * list string * list string) :=
  match ev_rest r with
  | [stdout; stderr] => ret (ev_outcome r, stdout, stderr)
  | [] | [_] => raise (Exn ValueError "not enough values to unpack (expected 3)")
  | _ => raise (Exn ValueError "too many values to unpack (expected 3)")
  end.

(** What [run_process] completes the event with, once both outputs are
    decoded and split into lines (the decoding itself, which may raise, is
    told apart by [ChildRun]). *)
Definition run_process (returncode : Z) (stdout stderr : list string)
  : event_result :=
  if negb (returncode =? 0) then mkEvent FAILURE [stdout; stderr]
  else mkEvent SUCCESS [stdout; stderr].

(** [cancel]: kill the container, forget it, and give the tuple for
    [event.set_result]. *)
Definition cancel (container_name : string) : M World event_result :=
  modify (act (PodmanKill container_name));;
  w ← get;
  match containers w with
  | None => raise (Exn KeyError "containers")
  | Some c =>
      if decide (container_name ∈ c) then
        modify (set_containers (Some (c ∖ {[container_name]})));;
        ret (mkEvent TIMEOUT [[]; ["Runtime exceeded"]; []])
      else raise (Exn KeyError container_name)
  end.

(** [await event]: the first result the event is completed with.  An
    exception inside the [cancel] task or the [run_process] task stays in
    that task.  When [run_process] ends on undecodable output the timer is
    not cancelled: it fires after the hour and [cancel] runs, as for a
    container that is still running. *)
Definition await_event (container_name : string) (child : ChildRun)
  : M World event_result :=
  match child with
  | SpawnFails => raise (Exn OSError "create_subprocess_exec")
  | Exits rc out err => ret (run_process rc out err)
  | Overruns late cancel_first =>
      fun w =>
        let '(timeout_result, w') :=
          match cancel container_name w with
          | (Ret r, w') => (Some r, w')
          | (_, w') => (None, w')
          end in
        match timeout_result, late with
        | Some r, None => (Ret r, w')
        | Some r, Some (rc, out, err) =>
            (Ret (if cancel_first then r else run_process rc out err), w')
        | None, Some (rc, out, err) => (Ret (run_process rc out err), w')
        | None, None => (Blocked, w')
        end
  | Undecodable =>
      fun w =>
        match cancel container_name w with
        | (Ret r, w') => (Ret r, w')
        | (_, w') => (Blocked, w')
        end
  end.

Definition failed_results (error : pyval) : pyval :=
  PDict [("status", PStr "failed"); ("error", error)].

Definition set_job {W} (f : Job.t -> Job.t) : M (Job.t * W) unit :=
  modify (fun '(job, w) => (f job, w)).

Section Handlers.

(** [format(v)] inside an f-string, and the behaviour of the container
    started with a command line and fed a payload. *)
Variable py_format : pyval -> string.
Variable run_child : list string -> string -> ChildRun.

Definition podman_run (db_dir : pyval) (job_id : string) : list string :=
  ["podman"; "run"; "--detach=false"; "--rm"; "--interactive";
   "--volume"; py_format db_dir ++ ":/databases:ro";
   "--name"; job_id;
   "docker.io/antismash/asdb-jobs:latest"].

(** [f">{job.data['name']}\n{job.data['sequence']}"] *)
Definition fasta (data : pyval) : res string :=
  name ← getitem data "name";
  sequence ← getitem data "sequence";
  Ok (">" ++ py_format name ++ String "010" (py_format sequence)).

(** The lines both handlers share: start the container, arm the timer,
    wait for the event, and tell the outcomes apart.  Returns the output
    lines of a run that neither timed out nor failed, [None] when the job
    has been committed as failed. *)
Definition run_job (tool : list string) : M (Job.t * World) (option (list string)) :=
  '(job, w) ← get;
  db_dir ← lift (RunConfig.getattr (conf w) "db_dir");
  let cmdline := (podman_run db_dir (Job.id job) ++ tool)%list in
  data ← lift (fasta (Job.data job));
  event ← on_snd (await_event (Job.id job) (run_child cmdline data));
  '(res, stdout, stderr) ← unpack3 event;
  match res with
  | TIMEOUT =>
      set_job (Job.set_status "failed");;
      set_job (Job.set_results (failed_results (PStr "timeout exceeded")));;
      Job.commit;;
      ret None
  | FAILURE =>
      set_job (Job.set_status "failed");;
      set_job (Job.set_results (failed_results (PList (map PStr stderr))));;
      Job.commit;;
      ret None
  | _ => ret (Some stdout)
  end.

Definition comparippson_tool : list string :=
  ["blastp"; "-num_threads"; "4";
   "-db"; "/databases/comparippson/asdb/3.9/cores.fa";
   "-outfmt"; "6 qacc sacc nident qseq qstart qend qlen sseq sstart send slen"].

Definition clusterblast_tool : list string :=
  ["diamond"; "blastp"; "--db"; "/databases/clusterblast/proteins";
   "--compress"; "0"; "--max-target-seqs"; "50"; "--evalue"; "1e-05";
   "--outfmt"; "6"; "qseqid"; "sseqid"; "nident"; "qseq"; "qstart"; "qend";
   "qlen"; "sseq"; "sstart"; "send"; "slen"].

(** The hits of a comparippson run, as the loop and the sort build them. *)
Definition comparippson_hits (metadata : pyval) (stdout : list string)
  : res (list pyval) :=
  parsed ← parse_blast stdout;
  results ← rmap (fun blast_res =>
                    r ← ComparippsonResult.from_blast blast_res metadata;
                    Ok (ComparippsonResult.to_json r)) parsed;
  list_sort_reverse (fun e => getitem e "identity") results.

(** The hits of a clusterblast run. *)
Definition clusterblast_hits (stdout : list string) : res (list pyval) :=
  parsed ← parse_blast stdout;
  Ok (map (fun blast_res =>
             ClusterBlastResult.to_json (ClusterBlastResult.from_blast blast_res))
          parsed).

Definition handle_comparippson : M (Job.t * World) unit :=
  out ← run_job comparippson_tool;
  match out with
  | None => ret ()
  | Some stdout =>
      set_job (Job.set_status "done");;
      metadata ← gets (fun s => comparippson_metadata (snd s));
      results ← lift (comparippson_hits metadata stdout);
      set_job (Job.set_results (PDict [("hits", PList results)]));;
      Job.commit
  end.

Definition handle_clusterblast : M (Job.t * World) unit :=
  out ← run_job clusterblast_tool;
  match out with
  | None => ret ()
  | Some stdout =>
      set_job (Job.set_status "done");;
      results ← lift (clusterblast_hits stdout);
      set_job (Job.set_results (PDict [("hits", PList results)]));;
      Job.commit
  end.

Definition handle_job : M (Job.t * World) unit :=
  job ← gets fst;
  if String.eqb (Job.jobtype job) "comparippson" then handle_comparippson
  else if String.eqb (Job.jobtype job) "clusterblast" then handle_clusterblast
  else raise (Exn InvalidJobType (Job.jobtype job)).

(** The [try] statement of [dispatch]. *)
Definition dispatch_job : M (Job.t * World) unit :=
  try_except handle_job ASDBJobsError
    (fun err =>
       set_job (Job.set_status "failed");;
       set_job (Job.set_results (failed_results (PStr (exn_str err))));;
       Job.commit).

Variable md5_hexdigest : string -> string.
Variable toml_loads : string -> res (gmap string pyval).

(** [config.read_config()] on [app['conf']]. *)
Definition read_config (file : res string) : M World unit :=
  fun w =>
    match RunConfig.read_config md5_hexdigest toml_loads false file (conf w) with
    | (Ok _, c) => (Ret (), set_conf (fun _ => c) w)
    | (Raise e, c) => (Exc e, set_conf (fun _ => c) w)
    end.

(** [config.up()] and [config.down()] on [app['conf']]. *)
Definition config_up : M World unit :=
  w ← get;
  c ← lift (RunConfig.up (conf w));
  modify (set_conf (fun _ => c)).

Definition config_down : M World unit :=
  w ← get;
  c ← lift (RunConfig.down (conf w));
  modify (set_conf (fun _ => c)).

(** The lines of [dispatch] before its loop. *)
Definition dispatch_enter : M World JobQueue.t :=
  config_up;;
  w ← get;
  db ← lift (RunConfig.db (conf w));
  name ← lift (RunConfig.getattr (conf w) "name");
  ret (JobQueue.mk db name).

(** One turn of the loop of [dispatch]: [file] is the content of the
    configuration file and [locked] the rows locked by others at that
    time. *)
Definition dispatch_turn (queue : JobQueue.t)
    (file : res string) (locked : string -> bool) : M World loop_ctl :=
  read_config file;;
  w ← get;
  less ← lift (RunConfig.want_less_jobs (conf w));
  match less with
  | true => config_down;; ret Break
  | false =>
      next ← JobQueue.get_next locked queue;
      match next with
      | None => ret Continue
      | Some job => run_with job dispatch_job;; ret Continue
      end
  end.

(** How a task stands after the turns of its loop it was given. *)
Inductive task_state : Type := Running | Exited.

Fixpoint dispatch_loop (queue : JobQueue.t)
    (turns : list (res string * (string -> bool))) : M World task_state :=
  match turns with
  | [] => ret Running
  | (file, locked) :: turns' =>
      c ← dispatch_turn queue file locked;
      match c with
      | Break => ret Exited
      | Continue => dispatch_loop queue turns'
      end
  end.

(** [dispatch], run for the given turns of its loop. *)
Definition dispatch (turns : list (res string * (string -> bool)))
  : M World task_state :=
  queue ← dispatch_enter;
  dispatch_loop queue turns.

(** [await get_version()] *)
Variable runner_version : string.

(** The lines of [manage] before its loop. *)
Definition manage_enter : M World Control.t :=
  w ← get;
  db ← lift (RunConfig.db (conf w));
  name ← lift (RunConfig.getattr (conf w) "name");
  let control := Control.mk db name "running" false runner_version in
  '(_, control) ← run_with control Control.commit;
  ret control.

(** A turn of the loop of [manage] up to its [sleep]. *)
Definition manage_tick : M (Control.t * World) unit :=
  Control.fetch;;
  control ← gets fst;
  (if Control.stop_scheduled control
   then on_snd (modify (set_conf (fun c => RunConfig.setattr c "max_jobs" (PInt 0))))
   else ret ());;
  w ← gets snd;
  more ← lift (RunConfig.want_more_jobs (conf w));
  match more with
  | true => on_snd (modify (act StartTask))
  | false => ret ()
  end.

(** The test after the [sleep]: [true] when the loop is left. *)
Definition manage_done : M (Control.t * World) bool :=
  w ← gets snd;
  r ← lift (RunConfig.running_jobs (conf w));
  if py_eq r (PInt 0) then
    more ← lift (RunConfig.want_more_jobs (conf w));
    ret (negb more)
  else ret false.

(** [manage], run for the given turns of its loop: each turn comes with
    what the other tasks make of the world while the supervisor sleeps. *)
Fixpoint manage_loop (control : Control.t) (sleeps : list (World -> World))
  : M World task_state :=
  match sleeps with
  | [] => ret Running
  | during_sleep :: sleeps' =>
      '(_, control) ← run_with control manage_tick;
      modify during_sleep;;
      '(finished, control) ← run_with control manage_done;
      match finished with
      | true => run_with control Control.delete;; ret Exited
      | false => manage_loop control sleeps'
      end
  end.

Definition manage (sleeps : list (World -> World)) : M World task_state :=
  control ← manage_enter;
  manage_loop control sleeps.

End Handlers.

End Core.

(** ** __init__.py *)

Module Version.

Definition __version__ : string := "0.1.0".

(** [bytes.strip()] removes ASCII white space. *)
Definition bytes_space (c : ascii) : bool :=
  let n := Str.ord c in
  ((9 <=? n) && (n <=? 13)) || (n =? 32).

(** ["{}-{}".format(version, git_ver)] when [git_ver] is not empty. *)
Definition full_version (git_ver : string) : string :=
  match git_ver with
  | EmptyString => __version__
  | _ => __version__ ++ "-" ++ git_ver
  end.

Section Git.

(** [bytes.decode('utf-8')] *)
Variable utf8_decode : string -> res string.

(** How git is started: [subprocess.Popen] is given
    [stdout=subprocess.PIPE]; [asyncio.create_subprocess_exec] is given no
    [stdout], so the process inherits that of the runner. *)
Inductive stdout_arg : Type := PIPE | Inherited.

(** The first component of [proc.communicate()]: the bytes the process
    wrote to stdout when that is a pipe, [None] when it is not. *)
Definition communicate (stdout : stdout_arg) (written : string)
  : option string :=
  match stdout with
  | PIPE => Some written
  | Inherited => None
  end.

(** [stdout.strip().decode('utf-8')]: [None] has no [strip]. *)
Definition strip_decode (stdout : option string) : res string :=
  match stdout with
  | None => Raise (Exn AttributeError "strip")
  | Some bytes =>
      utf8_decode (Str.rstrip bytes_space (Str.lstrip bytes_space bytes))
  end.

(** The state is the module global [_GIT_VERSION].  [git] is what running
    [git rev-parse --short HEAD] gives: the return code and the bytes
    written to stdout, or the exception of a failed start. *)
Definition get_git_version_sync (git : res (Z * string))
  : M (option string) string :=
  cached ← get;
  match cached with
  | Some ver => ret ver
  | None =>
      '(returncode, written) ← lift git;
      let stdout := communicate PIPE written in
      ver ← lift (if negb (returncode =? 0) then Ok EmptyString
                  else strip_decode stdout);
      put (Some ver);;
      ret ver
  end.

(** The coroutine: the same lines, git being started without a pipe. *)
Definition get_git_version (git : res (Z * string))
  : M (option string) string :=
  cached ← get;
  match cached with
  | Some ver => ret ver
  | None =>
      '(returncode, written) ← lift git;
      let stdout := communicate Inherited written in
      ver ← lift (if negb (returncode =? 0) then Ok EmptyString
                  else strip_decode stdout);
      put (Some ver);;
      ret ver
  end.

Definition get_version_sync (git : res (Z * string))
  : M (option string) string :=
  git_ver ← get_git_version_sync git;
  ret (full_version git_ver).

Definition get_version (git : res (Z * string)) : M (option string) string :=
  git_ver ← get_git_version git;
  ret (full_version git_ver).

End Git.

End Version.

(** * Vocabulary of the properties *)

(** ** Rows, jobs and claims *)

Definition has_id (id : string) (r : JobRow) : bool := String.eqb (row_id r) id.

(** The row a job object is written to by [commit]. *)
Definition committed_row (self : Job.t) (r : JobRow) : JobRow :=
  mkJobRow (row_id r) (row_jobtype r) (Job.status self) (Job.runner self)
           (row_submitted_date r) (Job.data self) (Job.results self)
           (Job.version self + 1).

(** The pending rows [get_next] may take, and what it makes of one. *)
Definition claimable (locked : string -> bool) (r : JobRow) : bool :=
  String.eqb (row_status r) "pending" && negb (locked (row_id r)).

Definition claimed_row (runner : string) (row : JobRow) : JobRow :=
  mkJobRow (row_id row) (row_jobtype row) "running" runner
           (row_submitted_date row) (row_data row) (row_results row)
           (row_version row + 1).

Definition job_of_row (engine : pyval) (row : JobRow) : Job.t :=
  Job.mk engine (row_id row) (row_jobtype row) (row_status row)
         (row_runner row) (row_data row) (row_results row) (row_version row).

(** The job object agrees with its row: it holds the engine and the
    version the row has, as after [get_next]. *)
Definition in_sync (job : Job.t) (w : World) (row : JobRow) : Prop :=
  Job.engine job = PEngine
  ∧ find (has_id (Job.id job)) (jobs w) = Some row
  ∧ row_version row = Job.version job.

(** ** Configuration, parsing and identity *)

Definition assign_field (config : gmap string pyval)
    (s : gmap string pyval) (name : string) : gmap string pyval :=
  match config !! name with
  | Some v => RunConfig.setattr s name v
  | None => s
  end.

(** The tab-separated columns [from_line] reads. *)
Definition columns (line : string) : list string :=
  Str.split "009" (Str.strip line).

(** Column [i] of a line, as [parts[i]]. *)
Definition column (line : string) (i : nat) : string :=
  nth i (columns line) EmptyString.

(** [hit] is the JSON object of the result line [line], with the derived
    identity: the eleven fields, the texts taken from the columns as they
    are, the ints read from their columns, and [identity] computed from
    the ints of columns 2 ([nident]) and 6 ([q_len]). *)
Definition line_projection (line : string) (hit : pyval) : Prop :=
  exists nident identity q_start q_end q_len s_start s_end s_len : Z,
    Str.py_int (column line 2) = Ok nident
    ∧ Str.py_int (column line 4) = Ok q_start
    ∧ Str.py_int (column line 5) = Ok q_end
    ∧ Str.py_int (column line 6) = Ok q_len
    ∧ Str.py_int (column line 8) = Ok s_start
    ∧ Str.py_int (column line 9) = Ok s_end
    ∧ Str.py_int (column line 10) = Ok s_len
    ∧ BlastResult.compute_identity nident q_len = Ok identity
    ∧ hit = PDict [("q_acc", PStr (column line 0));
                   ("s_acc", PStr (column line 1));
                   ("identity", PInt identity);
                   ("q_seq", PStr (column line 3));
                   ("q_start", PInt q_start); ("q_end", PInt q_end);
                   ("q_len", PInt q_len);
                   ("s_seq", PStr (column line 7));
                   ("s_start", PInt s_start); ("s_end", PInt s_end);
                   ("s_len", PInt s_len)].

(** A float between 0 and [B], written with a non-positive exponent. *)
Definition in_range (B : Z) (x : Float64.float) : Prop :=
  exists m e, x = Float64.Finite m e ∧ e <= 0 ∧ 0 <= m <= B * 2 ^ (- e).

(** ** Sorting on int keys *)

Section SortDefs.

Context {A : Type} (key : A -> Z).

(** The sort of [list_sort_reverse] when every key is an int: a stable
    insertion sort, largest key first. *)
Fixpoint insert_key (x : A) (l : list A) : list A :=
  match l with
  | [] => [x]
  | y :: l' => if key x <? key y then y :: insert_key x l' else x :: l
  end.

Fixpoint sort_key (l : list A) : list A :=
  match l with
  | [] => []
  | x :: l' => insert_key x (sort_key l')
  end.

Definition key_ge (x y : A) : Prop := key x >= key y.

Context {B : Type} (f : A -> B).

(** An element with its key and its projection, as [list_sort_reverse]
    pairs them. *)
Definition decorate (x : A) : pyval * B := (PInt (key x), f x).

End SortDefs.

(** ** Handlers and exceptions *)

Section HandlerDefs.

Variable py_format : pyval -> string.
Variable run_child : list string -> string -> Core.ChildRun.

(** How the container started for a job behaves, when the command line
    and the payload can be built. *)
Definition container_run (tool : list string) (job : Job.t) (w : World)
  : res Core.ChildRun :=
  db_dir ← RunConfig.getattr (conf w) "db_dir";
  payload ← Core.fasta py_format (Job.data job);
  Ok (run_child (Core.podman_run py_format db_dir (Job.id job) ++ tool)%list payload).

End HandlerDefs.

(** What a handler leaves of a job whose container exited with 0 and
    whose hits could be built. *)
Definition done_job (hits : list pyval) (job : Job.t) : Job.t :=
  Job.set_results (PDict [("hits", PList hits)]) (Job.set_status "done" job).

(** What the [except] clause makes of a job. *)
Definition failed_job (error : string) (job : Job.t) : Job.t :=
  Job.set_results (Core.failed_results (PStr error)) (Job.set_status "failed" job).

(** The results a handler can leave in the job object: those it found, the
    stderr of a failed container, or hits. *)
Definition handler_results (job job' : Job.t) : Prop :=
  Job.results job' = Job.results job
  ∨ (exists stderr,
       Job.results job' = Core.failed_results (PList (map PStr stderr)))
  ∨ (exists hits, Job.results job' = PDict [("hits", PList hits)]).

(** The classes raised while output is parsed, enriched and sorted: none
    of them is an [ASDBJobsError]. *)
Definition builtin (e : exn) : Prop :=
  match exn_cls e with
  | ValueError | KeyError | TypeError | ZeroDivisionError | OverflowError => True
  | _ => False
  end.

Definition raises_only {A} (P : exn -> Prop) (r : res A) : Prop :=
  forall e, r = Raise e -> P e.

(** Induction on a value with the elements of a list at hand. *)
Section PyvalInduction.

Variable P : pyval -> Prop.
Hypothesis HNone : P PNone.
Hypothesis HBool : forall b, P (PBool b).
Hypothesis HInt : forall z, P (PInt z).
Hypothesis HStr : forall s, P (PStr s).
Hypothesis HList : forall l, Forall P l -> P (PList l).
Hypothesis HDict : forall d, P (PDict d).
Hypothesis HEngine : P PEngine.

Fixpoint pyval_list_ind (v : pyval) : P v :=
  match v with
  | PNone => HNone
  | PBool b => HBool b
  | PInt z => HInt z
  | PStr s => HStr s
  | PList l =>
      HList l ((fix go (l : list pyval) : Forall P l :=
                  match l with
                  | [] => List.Forall_nil P
                  | x :: l' => List.Forall_cons P x l' (pyval_list_ind x) (go l')
                  end) l)
  | PDict d => HDict d
  | PEngine => HEngine
  end.

End PyvalInduction.

(** ** Worked instances *)

Module Examples.

Import Core.

(** A line of tab-separated columns. *)
Definition tsv (cols : list string) : string :=
  String.concat (String "009" EmptyString) cols.

(** Four of five positions identical. *)
Definition line_80 : string :=
  tsv ["q1"; "ENT1|x"; "4"; "MAGI"; "1"; "4"; "5"; "MAGX"; "10"; "13"; "20"].

Definition line_100 : string :=
  tsv ["q1"; "ENT2|y"; "5"; "MAGIC"; "1"; "5"; "5"; "MAGIC"; "7"; "11"; "30"].

(** More identical positions than the query is long. *)
Definition line_200 : string :=
  tsv ["q1"; "ENT1|x"; "10"; "MAGI"; "1"; "4"; "5"; "MAGX"; "10"; "13"; "20"].

(** 23 of 40: 57.5 in exact arithmetic. *)
Definition line_23_of_40 : string :=
  tsv ["q1"; "ENT1|x"; "23"; "MAGI"; "1"; "4"; "40"; "MAGX"; "10"; "13"; "20"].

(** Ten columns. *)
Definition line_short : string :=
  tsv ["q1"; "ENT1|x"; "4"; "MAGI"; "1"; "4"; "5"; "MAGX"; "10"; "13"].

Definition metadata : pyval :=
  PDict [("entries",
          PDict [("ENT1", PDict [("locus", PStr "L"); ("type", PStr "T");
                                 ("accession", PStr "A");
                                 ("start", PInt 1); ("end", PInt 99)]);
                 ("ENT2", PDict [("locus", PStr "M"); ("type", PStr "T");
                                 ("accession", PStr "B");
                                 ("start", PInt 5); ("end", PInt 50)])])].

(** A configuration as [from_argparse] and [init_db] leave it: no
    dispatcher running, five wanted. *)
Definition config : gmap string pyval :=
  list_to_map
    [("configfile", PStr "/srv/asdb-jobs.toml"); ("cpus", PInt 2);
     ("db_dir", PStr "/srv/databases"); ("debug", PBool false);
     ("max_jobs", PInt 5); ("name", PStr "runner-1");
     ("workdir", PStr "/srv/workdir"); ("host", PStr "localhost");
     ("database", PStr "antismash"); ("password", PStr "secret");
     ("port", PInt 5432); ("user", PStr "postgres");
     ("_config_file_hash", PStr "unchanged"); ("_db", PEngine);
     ("_running_jobs", PInt 0)].

Definition job_data : pyval :=
  PDict [("name", PStr "q1"); ("sequence", PStr "MAGIC")].

Definition pending_row (jobtype : string) : JobRow :=
  mkJobRow "j1" jobtype "pending" EmptyString (PStr "2024-05-01") job_data PNone 0.

Definition running_row (jobtype : string) : JobRow :=
  mkJobRow "j1" jobtype "running" "runner-1" (PStr "2024-05-01") job_data
           PNone 1.

Definition claimed_job (jobtype : string) : Job.t :=
  Job.mk PEngine "j1" jobtype "running" "runner-1" job_data PNone 1.

Definition control_row : ControlRow :=
  mkControlRow "runner-1" "running" false "0.1.0".

Definition control : Control.t :=
  Control.mk PEngine (PStr "runner-1") "running" false "0.1.0".

(** The application as [main] sets it up: [app['containers']] is never
    assigned. *)
Definition world (rows : list JobRow) : World :=
  mkWorld rows [control_row] config metadata None [].

(** Stand-ins for the library functions and the environment: values are
    formatted as their text, the digest of the file is unchanged, no row
    is locked. *)
Definition format (v : pyval) : string :=
  match v with
  | PStr s => s
  | _ => "?"
  end.

Definition digest (data : string) : string := data.

Definition loads (data : string) : res (gmap string pyval) :=
  if String.eqb data "_running_jobs = 7" then Ok {["_running_jobs" := PInt 7]}
  else Ok ∅.

Definition unlocked (id : string) : bool := false.

Definition exits (rc : Z) (stdout stderr : list string)
  : list string -> string -> ChildRun :=
  fun _ _ => Exits rc stdout stderr.

Definition overruns (late : option (Z * list string * list string))
    (cancel_first : bool) : list string -> string -> ChildRun :=
  fun _ _ => Overruns late cancel_first.

Definition one_turn : list (res string * (string -> bool)) :=
  [(Ok "unchanged", unlocked)].

End Examples.

(** ** Arguments, control rows and inserted rows *)

(** The value [from_argparse] gives a field: the attribute of the
    namespace when there is one, else the default; an [init=False] field
    always gets its default. *)
Definition passed_value (args : gmap string pyval) (f : RunConfig.field)
  : option pyval :=
  if RunConfig.f_init f then
    match args !! RunConfig.f_name f with
    | Some v => Some v
    | None => RunConfig.f_default f
    end
  else RunConfig.f_default f.

Definition has_name (name : string) (r : ControlRow) : bool :=
  String.eqb (crow_name r) name.

(** The row a control object is written to by [commit]. *)
Definition control_row_of (name : string) (c : Control.t) : ControlRow :=
  mkControlRow name (Control.status c) (Control.stop_scheduled c)
               (Control.version c).

(** The row [commit] inserts for a job the table does not know. *)
Definition inserted_row (self : Job.t) : JobRow :=
  mkJobRow (Job.id self) (Job.id self) (Job.status self) (Job.runner self)
           PNone (Job.data self) (Job.results self) (Job.version self).

(** ** What handling a job leaves alone *)

(** The two tables, the configuration and the metadata are the same. *)
Definition same_tables (w w' : World) : Prop :=
  jobs w' = jobs w ∧ controls w' = controls w ∧ conf w' = conf w
  ∧ comparippson_metadata w' = comparippson_metadata w.

(** Of the job object only status, results and version differ; of the
    world only the row of the job, the registered containers and the
    actions. *)
Definition keeps (job : Job.t) (w : World) (job' : Job.t) (w' : World) : Prop :=
  Job.engine job' = Job.engine job ∧ Job.id job' = Job.id job
  ∧ Job.jobtype job' = Job.jobtype job ∧ Job.runner job' = Job.runner job
  ∧ Job.data job' = Job.data job
  ∧ (forall id', id' <> Job.id job ->
       find (has_id id') (jobs w') = find (has_id id') (jobs w))
  ∧ controls w' = controls w ∧ conf w' = conf w
  ∧ comparippson_metadata w' = comparippson_metadata w.

(** What a handler makes of a job whose container exited with a code
    other than 0. *)
Definition failed_with_stderr (stderr : list string) (job : Job.t) : Job.t :=
  Job.set_results (Core.failed_results (PList (map PStr stderr)))
                  (Job.set_status "failed" job).

(** The job objects a handler passes to [commit]. *)
Definition committable (job jm : Job.t) : Prop :=
  (exists stderr, jm = failed_with_stderr stderr job)
  ∨ (exists hits, jm = done_job hits job).

(** The outcome of [c;; ret b] after [c]. *)
Definition outcome_then {A B} (b : B) (o : outcome A) : outcome B :=
  match o with
  | Ret _ => Ret b
  | Exc e => Exc e
  | Blocked => Blocked
  end.

(** The [podman kill] a container's run calls for. *)
Definition kills (r : res Core.ChildRun) (name : string) : list action :=
  match r with
  | Ok (Core.Overruns _ _) | Ok Core.Undecodable => [PodmanKill name]
  | _ => []
  end.

Section KillDefs.

Variable py_format : pyval -> string.
Variable run_child : list string -> string -> Core.ChildRun.

(** The kills handling a job calls for: that of its container, for the
    two job types that start one. *)
Definition job_kills (job : Job.t) (w : World) : list action :=
  if String.eqb (Job.jobtype job) "comparippson" then
    kills (container_run py_format run_child Core.comparippson_tool job w)
          (Job.id job)
  else if String.eqb (Job.jobtype job) "clusterblast" then
    kills (container_run py_format run_child Core.clusterblast_tool job w)
          (Job.id job)
  else [].

End KillDefs.

(** The row of the job is written, at the next version, as done or as
    failed, and the job object agrees with it. *)
Definition terminal (job' : Job.t) (w' : World) (row : JobRow) : Prop :=
  exists row',
    find (has_id (Job.id job')) (jobs w') = Some row'
    ∧ (row_status row' = "done" ∨ row_status row' = "failed")
    ∧ row_version row' = row_version row + 1
    ∧ row_id row' = row_id row ∧ row_jobtype row' = row_jobtype row
    ∧ Job.status job' = row_status row'
    ∧ Job.runner job' = row_runner row'
    ∧ Job.results job' = row_results row'
    ∧ Job.version job' = row_version row'.

(** ** Further worked instances *)

Module MoreExamples.

Import Core.

(** A parser that rejects every file. *)
Definition broken_loads (data : string) : res (gmap string pyval) :=
  Raise (Exn TOMLDecodeError "Invalid statement").

(** The namespace of a command line that names the configuration file and
    the number of jobs; it also holds an attribute named like an internal
    field and one that is no field. *)
Definition args : gmap string pyval :=
  list_to_map
    [("configfile", PStr "/srv/asdb-jobs.toml"); ("max_jobs", PInt 3);
     ("_running_jobs", PInt 9); ("verbose", PBool true)].

Definition second_pending_row : JobRow :=
  mkJobRow "j2" "clusterblast" "pending" EmptyString (PStr "2024-05-02")
           Examples.job_data PNone 4.

Definition second_running_row : JobRow :=
  mkJobRow "j2" "clusterblast" "running" "runner-1" (PStr "2024-05-02")
           Examples.job_data PNone 5.

Definition second_claimed_job : Job.t :=
  Job.mk PEngine "j2" "clusterblast" "running" "runner-1" Examples.job_data
         PNone 5.

(** Five dispatchers counted, five wanted. *)
Definition full_world : World :=
  set_conf (fun c => <["_running_jobs" := PInt 5]> c)
           (Examples.world [Examples.pending_row "comparippson"]).

(** The operator has scheduled a stop. *)
Definition stopping_row : ControlRow :=
  mkControlRow "runner-1" "running" true "0.1.0".

Definition stopping_world : World :=
  mkWorld [] [stopping_row] Examples.config Examples.metadata None [].

Definition connect (user database host port password : pyval) : res pyval :=
  Ok PEngine.

(** A result line whose subject has no entry in the metadata. *)
Definition line_unknown_entry : string :=
  Examples.tsv ["q1"; "ENT9|z"; "4"; "MAGI"; "1"; "4"; "5"; "MAGX"; "10"; "13";
                "20"].

(** Job data without a name, and the comparippson job [j1] with it. *)
Definition nameless_data : pyval := PDict [("sequence", PStr "MAGIC")].

Definition nameless_row (status runner : string) (version : Z) : JobRow :=
  mkJobRow "j1" "comparippson" status runner (PStr "2024-05-01") nameless_data
           PNone version.

(** The JSON objects of [line_80] and [line_100]. *)
Definition json_80 : pyval :=
  PDict [("q_acc", PStr "q1"); ("s_acc", PStr "ENT1|x"); ("identity", PInt 80);
         ("q_seq", PStr "MAGI"); ("q_start", PInt 1); ("q_end", PInt 4);
         ("q_len", PInt 5); ("s_seq", PStr "MAGX"); ("s_start", PInt 10);
         ("s_end", PInt 13); ("s_len", PInt 20)].

Definition json_100 : pyval :=
  PDict [("q_acc", PStr "q1"); ("s_acc", PStr "ENT2|y");
         ("identity", PInt 100); ("q_seq", PStr "MAGIC"); ("q_start", PInt 1);
         ("q_end", PInt 5); ("q_len", PInt 5); ("s_seq", PStr "MAGIC");
         ("s_start", PInt 7); ("s_end", PInt 11); ("s_len", PInt 30)].

(** A container whose output is not UTF-8. *)
Definition undecodable : list string -> string -> ChildRun :=
  fun _ _ => Undecodable.

(** Decoding of ASCII bytes. *)
Definition decode (bytes : string) : res string := Ok bytes.

Definition hit_80 : BlastResult.t :=
  BlastResult.mk "q1" "ENT1|x" 80 "MAGI" 1 4 5 "MAGX" 10 13 20.

Definition hit_100 : BlastResult.t :=
  BlastResult.mk "q1" "ENT2|y" 100 "MAGIC" 1 5 5 "MAGIC" 7 11 30.

Definition enriched_80 : ComparippsonResult.t :=
  ComparippsonResult.mk "q1" (PStr "L") (PStr "T") (PStr "A") (PInt 1)
                        (PInt 99) 80 "MAGI" 1 4 5 "MAGX" 10 13 20.

Definition enriched_100 : ComparippsonResult.t :=
  ComparippsonResult.mk "q1" (PStr "M") (PStr "T") (PStr "B") (PInt 5)
                        (PInt 50) 100 "MAGIC" 1 5 5 "MAGIC" 7 11 30.

Definition hits (rs : list ComparippsonResult.t) : pyval :=
  PDict [("hits", PList (map ComparippsonResult.to_json rs))].

(** The comparippson job [j1] and its row after the second commit. *)
Definition finished_row (status : string) (results : pyval) : JobRow :=
  mkJobRow "j1" "comparippson" status "runner-1" (PStr "2024-05-01")
           Examples.job_data results 2.

Definition finished_job (status : string) (results : pyval) : Job.t :=
  Job.mk PEngine "j1" "comparippson" status "runner-1" Examples.job_data
         results 2.

End MoreExamples.

(** ** Tactics for the monad *)

Ltac unfold_monad :=
  unfold mbind, mret, M_bind, M_ret, bind, ret, raise, get, gets, put, modify,
    lift, try_except, on_snd, on_fst, run_with, acquire, text_param in *.

Ltac mred := cbv beta iota zeta delta [fst snd].
Tactic Notation "mred" "in" hyp(H) := cbv beta iota zeta delta [fst snd] in H.

Ltac msimpl := repeat (progress (unfold_monad; mred)).

(** * Properties *)

(** ** Configuration reload *)

Section ConfigFacts.

Import RunConfig.

Lemma update_from_dict_fold self config :
  update_from_dict self config = foldl (assign_field config) self fields.
Proof. reflexivity. Qed.

Lemma assign_fields_lookup config (l : list string) :
  forall (self : gmap string pyval) (name : string),
    foldl (assign_field config) self l !! name =
    match config !! name with
    | Some v => if decide (name ∈ l) then Some v else self !! name
    | None => self !! name
    end.
Proof.
  induction l as [|a l IH]; intros self name; simpl.
  - destruct (config !! name); [|done].
    destruct (decide (name ∈ [])) as [Hin|_]; [|done].
    by apply elem_of_nil in Hin.
  - rewrite IH. unfold assign_field, setattr.
    destruct (config !! name) as [v|] eqn:Hn.
    + destruct (decide (name ∈ l)) as [Hl|Hl].
      * rewrite decide_True; [done|]. by apply elem_of_cons; right.
      * destruct (decide (name = a)) as [->|Hne].
        -- rewrite Hn, lookup_insert_eq.
           rewrite decide_True; [done|]. by apply elem_of_cons; left.
        -- rewrite decide_False.
           2:{ intros [?|?]%elem_of_cons; done. }
           destruct (config !! a); [|done]. by rewrite lookup_insert_ne.
    + destruct (config !! a) eqn:Ha; [|done].
      rewrite lookup_insert_ne; [done|]. intros ->. congruence.
Qed.

(** A field named in the dict takes the dict's value; any other
    attribute keeps its own. *)
Lemma update_from_dict_lookup self config name :
  update_from_dict self config !! name =
  match config !! name with
  | Some v => if decide (name ∈ fields) then Some v else self !! name
  | None => self !! name
  end.
Proof. rewrite update_from_dict_fold. apply assign_fields_lookup. Qed.

Lemma internal_fields :
  "_config_file_hash" ∈ fields ∧ "_db" ∈ fields ∧ "_running_jobs" ∈ fields.
Proof. unfold fields. repeat split; set_solver. Qed.

End ConfigFacts.

(** C10.  [update_from_dict] assigns every dataclass field that is a key of
    the dict, the internal fields [_config_file_hash], [_db] and
    [_running_jobs] included; hence reading a changed configuration file
    whose content has a key [_running_jobs] overwrites the running-jobs
    counter with the file's value. *)
Theorem update_from_dict_overwrites_internal_fields
    (md5_hexdigest : string -> string)
    (toml_loads : string -> res (gmap string pyval))
    (self loaded : gmap string pyval) (data : string) (h count : pyval) :
  RunConfig.getattr self "_config_file_hash" = Ok h ->
  py_eq (PStr (md5_hexdigest data)) h = false ->
  toml_loads data = Ok loaded ->
  loaded !! "_running_jobs" = Some count ->
  (forall (obj config : gmap string pyval) (name : string) (v : pyval),
      name ∈ RunConfig.fields -> config !! name = Some v ->
      RunConfig.update_from_dict obj config !! name = Some v)
  ∧ ("_config_file_hash" ∈ RunConfig.fields ∧ "_db" ∈ RunConfig.fields
     ∧ "_running_jobs" ∈ RunConfig.fields)
  ∧ exists self',
      RunConfig.read_config md5_hexdigest toml_loads false (Ok data) self
      = (Ok (), self')
      ∧ RunConfig.running_jobs self' = Ok count.
Proof.
  intros Hh Hne Hload Hcount. split; [|split].
  - intros obj config name v Hin Hv.
    rewrite update_from_dict_lookup, Hv. by rewrite decide_True.
  - apply internal_fields.
  - unfold RunConfig.read_config. rewrite Hh, Hne. simpl. rewrite Hload.
    eexists; split; [reflexivity|].
    unfold RunConfig.running_jobs, RunConfig.getattr.
    rewrite update_from_dict_lookup, Hcount.
    rewrite decide_True; [done|]. apply internal_fields.
Qed.

(** ** Optimistic commit and claim *)

Lemma find_map_update (rows : list JobRow) (id : string) (v : Z)
    (f : JobRow -> JobRow) (row : JobRow) :
  (forall r, row_id (f r) = row_id r) ->
  find (has_id id) rows = Some row -> row_version row = v ->
  find (has_id id)
       (map (fun r => if has_id id r && (row_version r =? v) then f r else r) rows)
  = Some (f row).
Proof.
  intros Hf. induction rows as [|r rows IH]; simpl; [done|].
  destruct (has_id id r) eqn:Hr; simpl.
  - intros [= ->] Hv. rewrite Hv, Z.eqb_refl.
    unfold has_id in *. by rewrite Hf, Hr.
  - rewrite Hr. auto.
Qed.

Lemma find_map_other (rows : list JobRow) (id id' : string)
    (p : JobRow -> bool) (f : JobRow -> JobRow) :
  (forall r, row_id (f r) = row_id r) ->
  (forall r, p r = true -> row_id r = id) ->
  id' <> id ->
  find (has_id id') (map (fun r => if p r then f r else r) rows)
  = find (has_id id') rows.
Proof.
  intros Hf Hp Hne. induction rows as [|r rows IH]; simpl; [done|].
  destruct (p r) eqn:Hpr.
  - unfold has_id at 1 3. rewrite Hf.
    assert (String.eqb (row_id r) id' = false) as ->; [|done].
    apply String.eqb_neq. rewrite (Hp r Hpr). congruence.
  - destruct (has_id id' r); [done|apply IH].
Qed.

(** [commit] when the stored version differs: a conflict, nothing changes. *)
Lemma commit_conflict (self : Job.t) (w : World) (row : JobRow) :
  Job.engine self = PEngine ->
  find (has_id (Job.id self)) (jobs w) = Some row ->
  row_version row <> Job.version self ->
  Job.commit (self, w)
  = (Exc (Exn JobConfict (Job.conflict_message self row)), (self, w)).
Proof.
  intros He Hrow Hv. unfold Job.commit, get_job_by_id. msimpl.
  rewrite He. msimpl. unfold has_id in Hrow. rewrite Hrow. mred.
  apply Z.eqb_neq in Hv. rewrite Hv. reflexivity.
Qed.

(** [commit] when the versions agree: one gated update. *)
Lemma commit_match (self : Job.t) (w : World) (row : JobRow) :
  Job.engine self = PEngine ->
  find (has_id (Job.id self)) (jobs w) = Some row ->
  row_version row = Job.version self ->
  Job.commit (self, w)
  = (Ret (),
     (Job.set_version (Job.version self + 1) self,
      set_jobs (map (fun r => if has_id (Job.id self) r
                                 && (row_version r =? Job.version self)
                              then committed_row self r else r)) w)).
Proof.
  intros He Hrow Hv. unfold Job.commit, get_job_by_id, update_jobs. msimpl.
  rewrite He. msimpl. unfold has_id in Hrow. rewrite Hrow. mred.
  rewrite Hv, Z.eqb_refl. reflexivity.
Qed.

(** The effect of a matching [commit] on the table. *)
Lemma commit_optimistic_lock_aux (self : Job.t) (w : World) (row : JobRow) :
  Job.engine self = PEngine ->
  find (has_id (Job.id self)) (jobs w) = Some row ->
  row_version row = Job.version self ->
  exists w',
    Job.commit (self, w)
    = (Ret (), (Job.set_version (Job.version self + 1) self, w'))
    ∧ find (has_id (Job.id self)) (jobs w') = Some (committed_row self row)
    ∧ conf w' = conf w ∧ actions w' = actions w.
Proof.
  intros He Hrow Hv. eexists. split; [by apply (commit_match self w row)|].
  simpl. split; [|done].
  by apply (find_map_update _ _ _ (committed_row self) row).
Qed.

(** C4.  [Job.commit] re-reads the row by primary key.  When the row is
    there and its version differs from the object's, it raises the conflict
    and changes neither the table nor the object.  When the versions agree
    it adds one to the object's version and writes status, runner, data,
    results and the new version in one update whose predicate is the id and
    the version just read; the other columns and the other rows stay. *)
Theorem commit_optimistic_lock (self : Job.t) (w : World) (row : JobRow) :
  Job.engine self = PEngine ->
  find (has_id (Job.id self)) (jobs w) = Some row ->
  (row_version row <> Job.version self ->
   Job.commit (self, w)
   = (Exc (Exn JobConfict (Job.conflict_message self row)), (self, w)))
  ∧ (row_version row = Job.version self ->
     exists w',
       Job.commit (self, w)
       = (Ret (), (Job.set_version (Job.version self + 1) self, w'))
       ∧ jobs w'
         = map (fun r => if has_id (Job.id self) r
                            && (row_version r =? row_version row)
                         then committed_row self r else r) (jobs w)
       ∧ find (has_id (Job.id self)) (jobs w') = Some (committed_row self row)
       ∧ (forall id', id' <> Job.id self ->
            find (has_id id') (jobs w') = find (has_id id') (jobs w))
       ∧ controls w' = controls w ∧ conf w' = conf w
       ∧ actions w' = actions w).
Proof.
  intros He Hrow. split; intros Hv.
  - by apply commit_conflict.
  - eexists. split; [by apply (commit_match self w row)|]. simpl. rewrite Hv.
    split; [done|]. split; [|split; [|done]].
    + by apply (find_map_update _ _ _ (committed_row self) row).
    + intros id' Hne. apply find_map_other with (id := Job.id self); [done| |done].
      intros r [Hr _]%andb_prop. by apply String.eqb_eq.
Qed.

Lemma find_unique_id (rows : list JobRow) (row : JobRow) :
  NoDup (map row_id rows) -> row ∈ rows ->
  find (has_id (row_id row)) rows = Some row.
Proof.
  induction rows as [|r rows IH]; simpl; intros Hnd Hin.
  - by apply elem_of_nil in Hin.
  - apply NoDup_cons in Hnd as [Hr Hnd].
    apply elem_of_cons in Hin as [->|Hin].
    + unfold has_id. by rewrite String.eqb_refl.
    + destruct (has_id (row_id row) r) eqn:Heq; [|by apply IH].
      exfalso. apply Hr. apply String.eqb_eq in Heq. rewrite Heq.
      apply list_elem_of_fmap. by exists row.
Qed.

Lemma map_gated_unique (rows : list JobRow) (row : JobRow)
    (f : JobRow -> JobRow) :
  NoDup (map row_id rows) -> row ∈ rows ->
  map (fun r => if has_id (row_id row) r && (row_version r =? row_version row)
                then f r else r) rows
  = map (fun r => if has_id (row_id row) r then f r else r) rows.
Proof.
  intros Hnd Hin. apply map_ext_in. intros r Hr%list_elem_of_In.
  destruct (has_id (row_id row) r) eqn:Heq; [|done]. simpl.
  assert (r = row) as ->; [|by rewrite Z.eqb_refl].
  pose proof (find_unique_id rows r Hnd Hr) as H1.
  pose proof (find_unique_id rows row Hnd Hin) as H2.
  apply String.eqb_eq in Heq. rewrite Heq in H1. congruence.
Qed.

Lemma set_jobs_ext (f g : list JobRow -> list JobRow) (w : World) :
  f (jobs w) = g (jobs w) -> set_jobs f w = set_jobs g w.
Proof. intros H. unfold set_jobs. by rewrite H. Qed.

Lemma get_next_none (locked : string -> bool) (queue : JobQueue.t) (w : World) :
  JobQueue.engine queue = PEngine ->
  find (claimable locked) (jobs w) = None ->
  JobQueue.get_next locked queue w = (Ret None, w).
Proof.
  intros He Hfind. unfold JobQueue.get_next. msimpl. rewrite He. msimpl.
  change (fun r => String.eqb (row_status r) "pending" && negb (locked (row_id r)))
    with (claimable locked).
  by rewrite Hfind.
Qed.

Lemma get_next_some (locked : string -> bool) (queue : JobQueue.t) (w : World)
    (runner : string) (row : JobRow) :
  JobQueue.engine queue = PEngine ->
  JobQueue.name queue = PStr runner ->
  find (claimable locked) (jobs w) = Some row ->
  find (has_id (row_id row)) (jobs w) = Some row ->
  JobQueue.get_next locked queue w
  = (Ret (Some (job_of_row PEngine (claimed_row runner row))),
     set_jobs (map (fun r => if has_id (row_id row) r
                                && (row_version r =? row_version row)
                             then claimed_row runner r else r)) w).
Proof.
  intros He Hn Hfind Hrow.
  unfold JobQueue.get_next, Job.from_db, get_job_by_id, update_jobs.
  msimpl. rewrite He. msimpl.
  change (fun r => String.eqb (row_status r) "pending" && negb (locked (row_id r)))
    with (claimable locked).
  rewrite Hfind, Hn. msimpl.
  match goal with
  | |- context [set_jobs (map ?f) w] =>
      assert (Hmap : map f (jobs w)
                     = map (fun r => if has_id (row_id row) r
                                        && (row_version r =? row_version row)
                                     then claimed_row runner r else r) (jobs w))
  end.
  { apply map_ext. intros r. unfold has_id, claimed_row.
    destruct (String.eqb (row_id r) (row_id row)); [|done]. simpl.
    destruct (row_version r =? row_version row) eqn:Hv; [|done].
    apply Z.eqb_eq in Hv. by rewrite Hv. }
  rewrite (set_jobs_ext _ _ _ Hmap). cbn [jobs set_jobs].
  change (fun r => String.eqb (row_id r) (row_id row)) with (has_id (row_id row)).
  by rewrite (find_map_update _ _ _ (claimed_row runner) row).
Qed.

(** C3.  [get_next] takes at most one row, pending and not locked by
    another transaction.  Without such a row it returns [None] and leaves
    every row as it is.  Otherwise it sets that row's status to running and
    its runner to the queue's name, adds one to its version in an update
    whose predicate is the id and the version it read, and returns the job
    read back from the updated row. *)
Theorem get_next_claims_one_pending_row
    (locked : string -> bool) (queue : JobQueue.t) (w : World)
    (runner : string) :
  JobQueue.engine queue = PEngine ->
  JobQueue.name queue = PStr runner ->
  NoDup (map row_id (jobs w)) ->
  ((forall r, r ∈ jobs w -> row_status r = "pending" -> locked (row_id r) = true)
   ∧ JobQueue.get_next locked queue w = (Ret None, w))
  ∨ (exists (row : JobRow) (w' : World),
       row ∈ jobs w ∧ row_status row = "pending" ∧ locked (row_id row) = false
       ∧ JobQueue.get_next locked queue w
         = (Ret (Some (job_of_row PEngine (claimed_row runner row))), w')
       ∧ jobs w'
         = map (fun r => if has_id (row_id row) r
                            && (row_version r =? row_version row)
                         then claimed_row runner r else r) (jobs w)
       ∧ find (has_id (row_id row)) (jobs w') = Some (claimed_row runner row)
       ∧ (forall r, r ∈ jobs w -> r <> row -> r ∈ jobs w')
       ∧ length (jobs w') = length (jobs w)
       ∧ controls w' = controls w ∧ conf w' = conf w
       ∧ actions w' = actions w).
Proof.
  intros He Hn Hnd.
  destruct (find (claimable locked) (jobs w)) as [row|] eqn:Hfind.
  - right. pose proof Hfind as Hsel. apply find_some in Hfind as [Hin Hc].
    apply list_elem_of_In in Hin.
    apply andb_prop in Hc as [Hp Hl].
    apply String.eqb_eq in Hp. apply negb_true_iff in Hl.
    pose proof (find_unique_id _ _ Hnd Hin) as Hrow.
    eexists row, _. split; [done|]. split; [done|]. split; [done|].
    split; [by apply get_next_some|]. cbn [jobs set_jobs controls conf actions].
    split; [done|].
    split; [by apply (find_map_update _ _ _ (claimed_row runner) row)|].
    split; [|split; [by rewrite length_map|done]].
    intros r Hr Hne. apply list_elem_of_fmap. exists r. split; [|done].
    destruct (has_id (row_id row) r) eqn:Hid; [|done]. exfalso. apply Hne.
    pose proof (find_unique_id _ _ Hnd Hr) as Hr'.
    apply String.eqb_eq in Hid. rewrite Hid in Hr'. congruence.
  - left. split; [|by apply get_next_none].
    intros r Hr%list_elem_of_In Hp.
    pose proof (find_none _ _ Hfind r Hr) as Hc. unfold claimable in Hc.
    rewrite Hp in Hc. simpl in Hc. by apply negb_false_iff in Hc.
Qed.

(** ** The identity of a parsed row *)

Section IdentityFacts.

Import Float64.

(** Rounding to the nearest integer stays between integer bounds. *)
Lemma rne_bounds (n d a b : Z) :
  0 < d -> a * d <= n -> n <= b * d -> a <= rne n d <= b.
Proof.
  intros Hd Ha Hb. unfold rne.
  pose proof (Z.div_mod n d ltac:(lia)) as Hdm.
  pose proof (Z.mod_pos_bound n d Hd) as Hr.
  destruct (2 * (n mod d) <? d) eqn:H1; [apply Z.ltb_lt in H1; nia|].
  apply Z.ltb_ge in H1.
  destruct (d <? 2 * (n mod d)); [nia|].
  destruct (Z.even (n / d)); nia.
Qed.

Lemma qlog2_upper (n d B : Z) :
  0 < n -> 0 < d -> 0 < B -> n <= B * d -> qlog2 n d <= Z.log2 B + 1.
Proof.
  intros Hn Hd HB Hle. unfold qlog2.
  assert (Z.log2 n - Z.log2 d <= Z.log2 B + 1).
  { pose proof (Z.log2_le_mono n (B * d) Hle).
    pose proof (Z.log2_mul_above B d ltac:(lia) ltac:(lia)). lia. }
  destruct (pow2_le _ _ _); lia.
Qed.

Lemma round_q_in_range (n d B : Z) :
  0 < d -> 0 < B -> Z.log2 B + 1 <= 51 -> 0 <= n <= B * d ->
  in_range B (round_q n d).
Proof.
  intros Hd HB Hlog [Hn0 HnB]. unfold round_q.
  destruct (n =? 0) eqn:Hz.
  - exists 0, 0. simpl. repeat split; lia.
  - apply Z.eqb_neq in Hz.
    rewrite (Z.abs_eq n) by lia.
    pose proof (qlog2_upper n d B ltac:(lia) Hd HB HnB) as Hk.
    set (e := Z.max (qlog2 n d - 52) (-1074)).
    assert (He : e < 0) by (unfold e; lia).
    assert ((0 <=? e) = false) as -> by (apply Z.leb_gt; lia).
    assert ((971 <? e) = false) as -> by (apply Z.ltb_ge; lia).
    assert ((e =? 971) = false) as -> by (apply Z.eqb_neq; lia).
    simpl. exists (rne (n * 2 ^ (- e)) d), e.
    split; [done|]. split; [lia|].
    pose proof (Z.pow_pos_nonneg 2 (- e) ltac:(lia) ltac:(lia)) as Hp.
    apply rne_bounds; [done|nia|nia].
Qed.

Lemma mul_int_in_range (x : float) (B k : Z) :
  0 < B -> 0 < k -> Z.log2 (B * k) + 1 <= 51 ->
  in_range B x -> in_range (B * k) (mul_int x k).
Proof.
  intros HB Hk Hlog (m & e & -> & He & Hm0 & HmB). unfold mul_int.
  destruct (0 <=? e) eqn:Hs.
  - apply Z.leb_le in Hs. assert (e = 0) as -> by lia.
    simpl in *. apply round_q_in_range; nia.
  - pose proof (Z.pow_pos_nonneg 2 (- e) ltac:(lia) ltac:(lia)) as Hp.
    apply round_q_in_range; [done|nia|done|nia].
Qed.

Lemma round_in_range (x : float) (B z : Z) :
  in_range B x -> round x = Ok z -> 0 <= z <= B.
Proof.
  intros (m & e & -> & He & Hm0 & HmB). simpl. intros [= <-].
  destruct (0 <=? e) eqn:Hs.
  - apply Z.leb_le in Hs. assert (e = 0) as -> by lia. simpl in *. lia.
  - pose proof (Z.pow_pos_nonneg 2 (- e) ltac:(lia) ltac:(lia)) as Hp.
    apply rne_bounds; [done|nia|nia].
Qed.

Lemma truediv_nonzero (a b : Z) (x : float) : truediv a b = Ok x -> b <> 0.
Proof.
  unfold truediv. destruct (b =? 0) eqn:Hb; [done|].
  intros _. by apply Z.eqb_neq.
Qed.

Lemma truediv_in_range (a b : Z) (x : float) :
  0 <= a <= b -> truediv a b = Ok x -> in_range 1 x.
Proof.
  intros Hab Hx. pose proof (truediv_nonzero _ _ _ Hx) as Hb.
  unfold truediv in Hx. apply Z.eqb_neq in Hb. rewrite Hb in Hx.
  apply Z.eqb_neq in Hb.
  assert ((0 <? b) = true) as Hpos by (apply Z.ltb_lt; lia).
  rewrite Hpos in Hx.
  assert (Hr : in_range 1 (round_q a b)).
  { apply round_q_in_range; [lia|lia|by vm_compute|lia]. }
  destruct Hr as (m & e & Heq & Hr). rewrite Heq in Hx.
  injection Hx as <-. by exists m, e.
Qed.

(** Between 0 and 100 when the identical positions do not exceed the
    query length. *)
Lemma compute_identity_bounds (nident q_len z : Z) :
  0 <= nident <= q_len ->
  BlastResult.compute_identity nident q_len = Ok z -> 0 <= z <= 100.
Proof.
  intros Hn. unfold BlastResult.compute_identity, mbind, res_bind, rbind.
  destruct (truediv nident q_len) as [x|] eqn:Hx; [|done].
  intros Hz. apply (round_in_range (mul_int x 100) 100); [|done].
  change 100 with (1 * 100) at 1.
  apply mul_int_in_range; [lia|lia|by vm_compute|].
  by apply (truediv_in_range nident q_len).
Qed.

Lemma compute_identity_nonzero (nident q_len z : Z) :
  BlastResult.compute_identity nident q_len = Ok z -> q_len <> 0.
Proof.
  unfold BlastResult.compute_identity, mbind, res_bind, rbind.
  destruct (truediv nident q_len) as [x|] eqn:Hx; [|done].
  intros _. by apply (truediv_nonzero nident q_len x).
Qed.

End IdentityFacts.

(** What an accepted line tells about its columns. *)
Lemma from_line_accepts (line : string) (r : BlastResult.t) :
  BlastResult.from_line line = Ok r ->
  length (columns line) = 11%nat
  ∧ exists nident : Z,
      Str.py_int (column line 2) = Ok nident
      ∧ Str.py_int (column line 6) = Ok (BlastResult.q_len r)
      ∧ BlastResult.compute_identity nident (BlastResult.q_len r)
        = Ok (BlastResult.identity r).
Proof.
  unfold BlastResult.from_line. fold (columns line). intros H.
  destruct (length (columns line) =? length BlastResult.fields)%nat eqn:Hlen;
    [|done].
  apply Nat.eqb_eq in Hlen. simpl in H. split; [exact Hlen|].
  unfold mbind, res_bind, rbind in H. unfold column.
  fold (column line 2) (column line 4) (column line 5) (column line 6)
       (column line 8) (column line 9) (column line 10) in *.
  destruct (Str.py_int (column line 2)) as [nident|]; [|done].
  destruct (Str.py_int (column line 4)); [|done].
  destruct (Str.py_int (column line 5)); [|done].
  destruct (Str.py_int (column line 6)) as [q_len|]; [|done].
  destruct (BlastResult.compute_identity nident q_len) as [identity|] eqn:Hid;
    [|done].
  destruct (Str.py_int (column line 8)); [|done].
  destruct (Str.py_int (column line 9)); [|done].
  destruct (Str.py_int (column line 10)); [|done].
  injection H as <-. simpl. by exists nident.
Qed.

(** C7, as the parser has it.  For every line the parser accepts, the
    stored identity is [round((nident / q_len) * 100)] in binary64
    arithmetic, for the ints of the third and seventh columns; the seventh
    is not zero; and the identity lies between 0 and 100 whenever
    [0 <= nident <= q_len], which the parser itself does not ask for. *)
Theorem from_line_identity (line : string) (r : BlastResult.t) :
  BlastResult.from_line line = Ok r ->
  exists nident : Z,
    Str.py_int (column line 2) = Ok nident
    ∧ Str.py_int (column line 6) = Ok (BlastResult.q_len r)
    ∧ BlastResult.q_len r <> 0
    ∧ BlastResult.compute_identity nident (BlastResult.q_len r)
      = Ok (BlastResult.identity r)
    ∧ (0 <= nident <= BlastResult.q_len r ->
       0 <= BlastResult.identity r <= 100).
Proof.
  intros [_ (nident & Hn & Hq & Hid)]%from_line_accepts.
  exists nident. split; [done|]. split; [done|]. split; [|split; [done|]].
  - by apply (compute_identity_nonzero nident _ _ Hid).
  - intros Hle. by apply (compute_identity_bounds nident _ _ Hle Hid).
Qed.

(** ** Order of the hits *)

Section SortFacts.

Context {A : Type} (key : A -> Z).

Lemma insert_key_Forall (P : A -> Prop) (x : A) (l : list A) :
  P x -> Forall P l -> Forall P (insert_key key x l).
Proof.
  intros Hx Hl. induction Hl as [|y l Hy Hl IH]; simpl.
  - by constructor.
  - destruct (key x <? key y); repeat constructor; done.
Qed.

Lemma insert_key_sorted (x : A) (l : list A) :
  StronglySorted (key_ge key) l ->
  StronglySorted (key_ge key) (insert_key key x l).
Proof.
  induction 1 as [|y l Hs IH Hy]; simpl.
  - repeat constructor.
  - destruct (key x <? key y) eqn:Hlt.
    + apply Z.ltb_lt in Hlt. constructor; [done|].
      apply insert_key_Forall; [unfold key_ge; lia|done].
    + apply Z.ltb_ge in Hlt. constructor; [by constructor|].
      constructor; [unfold key_ge; lia|].
      eapply Forall_impl; [exact Hy|]. unfold key_ge. intros; simpl in *; lia.
Qed.

Lemma sort_key_sorted (l : list A) :
  StronglySorted (key_ge key) (sort_key key l).
Proof.
  induction l as [|x l IH]; simpl; [constructor|by apply insert_key_sorted].
Qed.

Lemma insert_key_filter (v : Z) (x : A) (l : list A) :
  List.filter (fun y => key y =? v) (insert_key key x l)
  = List.filter (fun y => key y =? v) (x :: l).
Proof.
  induction l as [|y l IH]; simpl; [done|].
  destruct (key x <? key y) eqn:Hlt; [|done].
  apply Z.ltb_lt in Hlt. simpl. rewrite IH. simpl.
  destruct (key x =? v) eqn:Hx; [|done].
  apply Z.eqb_eq in Hx.
  assert ((key y =? v) = false) as -> by (apply Z.eqb_neq; lia). done.
Qed.

(** Stability: the hits of any one key keep their input order. *)
Lemma sort_key_stable (v : Z) (l : list A) :
  List.filter (fun y => key y =? v) (sort_key key l)
  = List.filter (fun y => key y =? v) l.
Proof.
  induction l as [|x l IH]; simpl; [done|].
  rewrite insert_key_filter. simpl. by rewrite IH.
Qed.

Lemma insert_key_perm (x : A) (l : list A) : insert_key key x l ≡ₚ x :: l.
Proof.
  induction l as [|y l IH]; simpl; [done|].
  destruct (key x <? key y); [|done].
  rewrite IH. apply Permutation_swap.
Qed.

Lemma sort_key_perm (l : list A) : sort_key key l ≡ₚ l.
Proof.
  induction l as [|x l IH]; simpl; [done|].
  by rewrite insert_key_perm, IH.
Qed.

Context {B : Type} (f : A -> B).

Lemma insert_desc_ints (x : A) (l : list A) :
  insert_desc (PInt (key x)) (f x) (map (decorate key f) l)
  = Ok (map (decorate key f) (insert_key key x l)).
Proof.
  induction l as [|y l IH]; simpl; [done|].
  unfold mbind, res_bind, rbind in *. simpl.
  destruct (key x <? key y); [|done]. by rewrite IH.
Qed.

Lemma sort_desc_ints (l : list A) :
  sort_desc (map (decorate key f) l)
  = Ok (map (decorate key f) (sort_key key l)).
Proof.
  induction l as [|x l IH]; simpl; [done|].
  unfold mbind, res_bind, rbind in *. rewrite IH. apply insert_desc_ints.
Qed.

End SortFacts.

(** ** The handlers on a container that exits *)

Section HandlerFacts.

Import Core.

Variable py_format : pyval -> string.
Variable run_child : list string -> string -> ChildRun.

Lemma run_job_exits_zero tool job w stdout stderr :
  container_run py_format run_child tool job w = Ok (Exits 0 stdout stderr) ->
  run_job py_format run_child tool (job, w) = (Ret (Some stdout), (job, w)).
Proof.
  unfold container_run, run_job. intros Hc. msimpl.
  unfold mbind, res_bind, rbind in Hc.
  destruct (RunConfig.getattr (conf w) "db_dir") as [db_dir|]; [|done].
  destruct (fasta py_format (Job.data job)) as [payload|]; [|done].
  mred.
  assert (run_child (podman_run py_format db_dir (Job.id job) ++ tool)%list
                    payload = Exits 0 stdout stderr) as -> by congruence.
  unfold await_event, unpack3, run_process. by msimpl.
Qed.

(** A job in sync is committed as it stands: its row takes its status
    and results and the next version. *)
Lemma commit_in_sync job w row :
  in_sync job w row ->
  exists w',
    Job.commit (job, w)
    = (Ret (), (Job.set_version (Job.version job + 1) job, w'))
    ∧ find (has_id (Job.id job)) (jobs w') = Some (committed_row job row)
    ∧ conf w' = conf w ∧ actions w' = actions w.
Proof.
  intros (He & Hrow & Hv).
  destruct (commit_optimistic_lock_aux job w row He Hrow Hv)
    as (w' & Hc & Hf & Hconf & Hact).
  by exists w'.
Qed.

Lemma in_sync_done job w row (results : pyval) (status : string) :
  in_sync job w row ->
  in_sync (Job.set_results results (Job.set_status status job)) w row.
Proof. by intros (He & Hrow & Hv). Qed.

Lemma handle_clusterblast_done job w row stdout stderr hits :
  container_run py_format run_child clusterblast_tool job w
  = Ok (Exits 0 stdout stderr) ->
  clusterblast_hits stdout = Ok hits ->
  in_sync job w row ->
  exists w',
    handle_clusterblast py_format run_child (job, w)
    = (Ret (), (Job.set_version (Job.version job + 1) (done_job hits job), w'))
    ∧ find (has_id (Job.id job)) (jobs w')
      = Some (committed_row (done_job hits job) row).
Proof.
  intros Hrun Hhits Hsync.
  destruct (commit_in_sync (done_job hits job) w row) as (w' & Hc & Hf & _).
  { by apply in_sync_done. }
  exists w'. split; [|done].
  unfold handle_clusterblast. unfold mbind at 1, M_bind, bind.
  rewrite (run_job_exits_zero _ _ _ _ _ Hrun).
  unfold set_job. msimpl. rewrite Hhits. by msimpl.
Qed.

Lemma handle_comparippson_done job w row stdout stderr hits :
  container_run py_format run_child comparippson_tool job w
  = Ok (Exits 0 stdout stderr) ->
  comparippson_hits (comparippson_metadata w) stdout = Ok hits ->
  in_sync job w row ->
  exists w',
    handle_comparippson py_format run_child (job, w)
    = (Ret (), (Job.set_version (Job.version job + 1) (done_job hits job), w'))
    ∧ find (has_id (Job.id job)) (jobs w')
      = Some (committed_row (done_job hits job) row).
Proof.
  intros Hrun Hhits Hsync.
  destruct (commit_in_sync (done_job hits job) w row) as (w' & Hc & Hf & _).
  { by apply in_sync_done. }
  exists w'. split; [|done].
  unfold handle_comparippson. unfold mbind at 1, M_bind, bind.
  rewrite (run_job_exits_zero _ _ _ _ _ Hrun).
  unfold set_job. msimpl. rewrite Hhits. by msimpl.
Qed.

End HandlerFacts.

Lemma rmap_Forall2 {A B} (f : A -> res B) (l : list A) (ys : list B) :
  rmap f l = Ok ys -> Forall2 (fun x y => f x = Ok y) l ys.
Proof.
  revert ys. induction l as [|x l IH]; simpl; intros ys.
  - intros [= <-]. constructor.
  - unfold rbind. destruct (f x) as [y|] eqn:Hy; [|done].
    destruct (rmap f l) as [ys'|]; [|done].
    intros [= <-]. constructor; [done|by apply IH].
Qed.

Lemma rmap_composed {A B C} (f : A -> res B) (g : B -> C) (l : list A)
    (zs : list C) :
  rmap (fun x => y ← f x; Ok (g y)) l = Ok zs ->
  exists ys, rmap f l = Ok ys ∧ zs = map g ys.
Proof.
  revert zs. induction l as [|x l IH]; simpl; intros zs.
  - intros [= <-]. by exists [].
  - unfold mbind, res_bind, rbind. destruct (f x) as [y|]; [|done].
    destruct (rmap _ l) as [zs'|] eqn:Hl; [|done].
    intros [= <-]. destruct (IH zs' eq_refl) as (ys & Hys & ->).
    unfold mbind, res_bind, rbind in Hys. rewrite Hys. by exists (y :: ys).
Qed.

Lemma rmap_total {A B} (f : A -> B) (l : list A) :
  rmap (fun x => Ok (f x)) l = Ok (map f l).
Proof.
  induction l as [|x l IH]; simpl; [done|]. unfold rbind. by rewrite IH.
Qed.

Lemma combine_map_map {A B C} (f : A -> B) (g : A -> C) (l : list A) :
  combine (map f l) (map g l) = map (fun x => (f x, g x)) l.
Proof. induction l as [|x l IH]; simpl; [done|]. by rewrite IH. Qed.

(** The sort of the comparippson handler, on the dicts it has built. *)
Lemma sort_comparippson_json (rs : list ComparippsonResult.t) :
  list_sort_reverse (fun e => getitem e "identity")
                    (map ComparippsonResult.to_json rs)
  = Ok (map ComparippsonResult.to_json
            (sort_key ComparippsonResult.identity rs)).
Proof.
  unfold list_sort_reverse, mbind, res_bind.
  assert (rmap (fun e => getitem e "identity")
               (map ComparippsonResult.to_json rs)
          = Ok (map (fun r => PInt (ComparippsonResult.identity r)) rs)) as ->.
  { induction rs as [|r rs IH]; simpl; [done|]. unfold rbind. by rewrite IH. }
  unfold rbind at 1. rewrite combine_map_map.
  change (fun x => (PInt (ComparippsonResult.identity x),
                    ComparippsonResult.to_json x))
    with (decorate ComparippsonResult.identity ComparippsonResult.to_json).
  rewrite sort_desc_ints. unfold rbind. f_equal.
  rewrite map_map. by apply map_ext.
Qed.

(** The hits of a comparippson run: the enriched rows, in the order of
    [sort_key]. *)
Lemma comparippson_hits_sorted (metadata : pyval) (stdout : list string)
    (hits : list pyval) :
  Core.comparippson_hits metadata stdout = Ok hits ->
  exists (parsed : list BlastResult.t) (rs : list ComparippsonResult.t),
    Forall2 (fun line b => BlastResult.from_line line = Ok b) stdout parsed
    ∧ Forall2 (fun b r => ComparippsonResult.from_blast b metadata = Ok r)
              parsed rs
    ∧ hits = map ComparippsonResult.to_json
                 (sort_key ComparippsonResult.identity rs).
Proof.
  unfold Core.comparippson_hits, parse_blast, mbind at 1 2, res_bind, rbind.
  destruct (rmap BlastResult.from_line stdout) as [parsed|] eqn:Hp; [|done].
  destruct (rmap _ parsed) as [results|] eqn:Hr; [|done].
  apply rmap_composed in Hr as (rs & Hrs & ->).
  rewrite sort_comparippson_json. intros [= <-].
  exists parsed, rs. split; [by apply rmap_Forall2|].
  split; [by apply rmap_Forall2|done].
Qed.

(** The hits of a clusterblast run: one projection per line, in line
    order. *)
Lemma clusterblast_hits_in_order (stdout : list string) (hits : list pyval) :
  Core.clusterblast_hits stdout = Ok hits ->
  exists parsed : list BlastResult.t,
    Forall2 (fun line b => BlastResult.from_line line = Ok b) stdout parsed
    ∧ hits = map (fun b => ClusterBlastResult.to_json
                             (ClusterBlastResult.from_blast b)) parsed.
Proof.
  unfold Core.clusterblast_hits, parse_blast, mbind, res_bind, rbind.
  destruct (rmap BlastResult.from_line stdout) as [parsed|] eqn:Hp; [|done].
  intros [= <-]. exists parsed. split; [by apply rmap_Forall2|done].
Qed.

Lemma handle_job_comparippson py_format run_child (job : Job.t) (w : World) :
  Job.jobtype job = "comparippson" ->
  Core.handle_job py_format run_child (job, w)
  = Core.handle_comparippson py_format run_child (job, w).
Proof. intros Ht. unfold Core.handle_job. msimpl. by rewrite Ht. Qed.

Lemma handle_job_clusterblast py_format run_child (job : Job.t) (w : World) :
  Job.jobtype job = "clusterblast" ->
  Core.handle_job py_format run_child (job, w)
  = Core.handle_clusterblast py_format run_child (job, w).
Proof. intros Ht. unfold Core.handle_job. msimpl. by rewrite Ht. Qed.

Lemma from_line_projection (line : string) (b : BlastResult.t) :
  BlastResult.from_line line = Ok b ->
  line_projection line (BlastResult.to_json b).
Proof.
  unfold BlastResult.from_line. fold (columns line). intros H.
  destruct (length (columns line) =? length BlastResult.fields)%nat; [|done].
  simpl in H. unfold mbind, res_bind, rbind in H.
  fold (column line 0) (column line 1) (column line 2) (column line 3)
       (column line 4) (column line 5) (column line 6) (column line 7)
       (column line 8) (column line 9) (column line 10) in H.
  unfold line_projection.
  destruct (Str.py_int (column line 2)) as [nident|]; [|done].
  destruct (Str.py_int (column line 4)) as [q_start|]; [|done].
  destruct (Str.py_int (column line 5)) as [q_end|]; [|done].
  destruct (Str.py_int (column line 6)) as [q_len|]; [|done].
  destruct (BlastResult.compute_identity nident q_len) as [identity|] eqn:Hid;
    [|done].
  destruct (Str.py_int (column line 8)) as [s_start|]; [|done].
  destruct (Str.py_int (column line 9)) as [s_end|]; [|done].
  destruct (Str.py_int (column line 10)) as [s_len|]; [|done].
  injection H as <-.
  by exists nident, identity, q_start, q_end, q_len, s_start, s_end, s_len.
Qed.

(** C6, for output the parser accepts.  A clusterblast job whose container
    exits with 0 and whose output lines are all accepted by the parser is
    committed with status "done" and results [{"hits": [...]}], with one
    hit per output line, in the order of the lines.  Each hit is the JSON
    object of its line: under the eleven keys [q_acc], [s_acc],
    [identity], [q_seq], [q_start], [q_end], [q_len], [s_seq], [s_start],
    [s_end] and [s_len] it holds the text of columns 0, 1, 3 and 7, the
    ints of columns 4, 5, 6, 8, 9 and 10, and as [identity] the value
    [round((nident / q_len) * 100)] derived from the ints of columns 2 and
    6. *)
Theorem clusterblast_commits_projected_hits
    (py_format : pyval -> string)
    (run_child : list string -> string -> Core.ChildRun)
    (job : Job.t) (w : World) (row : JobRow)
    (stdout stderr : list string) (parsed : list BlastResult.t) :
  Job.jobtype job = "clusterblast" ->
  in_sync job w row ->
  container_run py_format run_child Core.clusterblast_tool job w
  = Ok (Core.Exits 0 stdout stderr) ->
  parse_blast stdout = Ok parsed ->
  exists (hits : list pyval) (job' : Job.t) (w' : World),
    Forall2 line_projection stdout hits
    ∧ Forall2 (fun b hit =>
                 getitem hit "identity" = Ok (PInt (BlastResult.identity b))
                 ∧ getitem hit "q_acc" = Ok (PStr (BlastResult.q_acc b))
                 ∧ getitem hit "s_acc" = Ok (PStr (BlastResult.s_acc b)))
              parsed hits
    ∧ Core.handle_job py_format run_child (job, w) = (Ret (), (job', w'))
    ∧ Job.status job' = "done"
    ∧ Job.results job' = PDict [("hits", PList hits)]
    ∧ Job.version job' = Job.version job + 1
    ∧ find (has_id (Job.id job)) (jobs w')
      = Some (mkJobRow (row_id row) (row_jobtype row) "done" (Job.runner job)
                       (row_submitted_date row) (Job.data job)
                       (PDict [("hits", PList hits)]) (row_version row + 1)).
Proof.
  intros Ht Hsync Hrun Hparsed.
  set (hits := map (fun b => ClusterBlastResult.to_json
                               (ClusterBlastResult.from_blast b)) parsed).
  assert (Hhits : Core.clusterblast_hits stdout = Ok hits).
  { unfold Core.clusterblast_hits, mbind, res_bind, rbind.
    by rewrite Hparsed. }
  destruct (handle_clusterblast_done py_format run_child job w row
              stdout stderr hits Hrun Hhits Hsync) as (w' & Hh & Hf).
  exists hits. eexists _, w'. split; [|split].
  - apply rmap_Forall2 in Hparsed. subst hits. clear -Hparsed.
    induction Hparsed as [|line b stdout' parsed' Hb _ IH]; simpl;
      [constructor|constructor; [|done]].
    by apply from_line_projection.
  - subst hits. clear. induction parsed as [|b parsed IH]; simpl;
      [constructor|constructor; [|done]].
    by repeat split.
  - rewrite handle_job_clusterblast by done.
    split; [exact Hh|]. repeat split; try done.
    rewrite Hf. unfold committed_row. simpl.
    destruct Hsync as (_ & _ & ->). done.
Qed.

(** C8.  The hits a comparippson job is committed with are in
    non-increasing order of identity, hits of equal identity in the order
    of their lines; the hits a clusterblast job is committed with are in
    the order of the lines. *)
Theorem committed_hits_order
    (py_format : pyval -> string)
    (run_child : list string -> string -> Core.ChildRun)
    (job : Job.t) (w : World) (row : JobRow)
    (stdout stderr : list string) (hits : list pyval) :
  in_sync job w row ->
  (Job.jobtype job = "comparippson" ->
   container_run py_format run_child Core.comparippson_tool job w
   = Ok (Core.Exits 0 stdout stderr) ->
   Core.comparippson_hits (comparippson_metadata w) stdout = Ok hits ->
   exists (w' : World) (rs sorted : list ComparippsonResult.t),
     Core.handle_job py_format run_child (job, w)
     = (Ret (), (Job.set_version (Job.version job + 1) (done_job hits job), w'))
     ∧ (row_results <$> find (has_id (Job.id job)) (jobs w'))
       = Some (PDict [("hits", PList hits)])
     ∧ Forall2 (fun line r =>
                  exists b, BlastResult.from_line line = Ok b
                            ∧ ComparippsonResult.from_blast
                                b (comparippson_metadata w) = Ok r) stdout rs
     ∧ hits = map ComparippsonResult.to_json sorted
     ∧ StronglySorted (fun a b => ComparippsonResult.identity a
                                  >= ComparippsonResult.identity b) sorted
     ∧ forall v : Z,
         List.filter (fun r => ComparippsonResult.identity r =? v) sorted
         = List.filter (fun r => ComparippsonResult.identity r =? v) rs)
  ∧ (Job.jobtype job = "clusterblast" ->
     container_run py_format run_child Core.clusterblast_tool job w
     = Ok (Core.Exits 0 stdout stderr) ->
     Core.clusterblast_hits stdout = Ok hits ->
     exists w' : World,
       Core.handle_job py_format run_child (job, w)
       = (Ret (), (Job.set_version (Job.version job + 1) (done_job hits job), w'))
       ∧ (row_results <$> find (has_id (Job.id job)) (jobs w'))
         = Some (PDict [("hits", PList hits)])
       ∧ Forall2 (fun line hit =>
                    exists b, BlastResult.from_line line = Ok b
                              ∧ hit = ClusterBlastResult.to_json
                                        (ClusterBlastResult.from_blast b))
                 stdout hits).
Proof.
  intros Hsync. split; intros Ht Hrun Hhits.
  - destruct (handle_comparippson_done py_format run_child job w row
                stdout stderr hits Hrun Hhits Hsync) as (w' & Hh & Hf).
    destruct (comparippson_hits_sorted _ _ _ Hhits)
      as (parsed & rs & Hp & Hrs & ->).
    exists w', rs, (sort_key ComparippsonResult.identity rs).
    rewrite handle_job_comparippson by done.
    split; [exact Hh|]. split; [by rewrite Hf|]. split; [|split; [done|split]].
    + clear -Hp Hrs. revert rs Hrs.
      induction Hp as [|line b stdout' parsed' Hb _ IH]; intros rs Hrs;
        inversion Hrs; subst; [constructor|constructor; [by exists b|by apply IH]].
    + apply sort_key_sorted.
    + intros v. apply sort_key_stable.
  - destruct (handle_clusterblast_done py_format run_child job w row
                stdout stderr hits Hrun Hhits Hsync) as (w' & Hh & Hf).
    destruct (clusterblast_hits_in_order _ _ Hhits) as (parsed & Hp & ->).
    exists w'. rewrite handle_job_clusterblast by done.
    split; [exact Hh|]. split; [by rewrite Hf|].
    clear -Hp. induction Hp as [|line b stdout' parsed' Hb _ IH]; simpl;
      [constructor|constructor; [by exists b|done]].
Qed.

(** ** The supervisor's tick *)

Lemma control_fetch_ret (c c' : Control.t) (w w' : World) :
  Control.fetch (c, w) = (Ret (), (c', w')) ->
  w' = w
  ∧ exists row : ControlRow,
      c' = Control.mk (Control.engine c) (Control.name c) (crow_status row)
                      (crow_stop_scheduled row) (Control.version c).
Proof.
  unfold Control.fetch, get_control. msimpl. intros H.
  destruct (Control.engine c) eqn:He; mred in H; try discriminate.
  destruct (Control.name c) eqn:Hn; mred in H; try discriminate.
  destruct (find _ (controls w)) as [row|]; mred in H; [|discriminate].
  revert H. intros [= <- <-]. split; [done|]. exists row. by rewrite He, Hn.
Qed.

Lemma want_more_jobs_ints (c : gmap string pyval) (r m : Z) (more : bool) :
  RunConfig.want_more_jobs c = Ok more ->
  c !! "_running_jobs" = Some (PInt r) -> c !! "max_jobs" = Some (PInt m) ->
  more = (r <? m).
Proof.
  unfold RunConfig.want_more_jobs, RunConfig.running_jobs, RunConfig.getattr.
  unfold mbind, res_bind, rbind. intros H Hr Hm. rewrite Hr, Hm in H.
  simpl in H. congruence.
Qed.

(** C5, as the supervisor has it.  A tick starts one dispatcher task when
    [running_jobs < max_jobs] (after [max_jobs] has been set to 0 on a
    scheduled stop) and none otherwise: never more than one. *)
Theorem manage_tick_starts_at_most_one
    (control control' : Control.t) (w w' : World) :
  Core.manage_tick (control, w) = (Ret (), (control', w')) ->
  exists more : bool,
    RunConfig.want_more_jobs (conf w') = Ok more
    ∧ actions w' = ((if more then [StartTask] else []) ++ actions w)%list
    ∧ conf w' = (if Control.stop_scheduled control'
                 then RunConfig.setattr (conf w) "max_jobs" (PInt 0)
                 else conf w)
    ∧ forall r m : Z,
        conf w' !! "_running_jobs" = Some (PInt r) ->
        conf w' !! "max_jobs" = Some (PInt m) ->
        more = (r <? m).
Proof.
  unfold Core.manage_tick. unfold mbind at 1, M_bind, bind. intros H.
  destruct (Control.fetch (control, w)) as [[[]|e|] [c1 w1]] eqn:Hf;
    [|discriminate H..].
  apply control_fetch_ret in Hf as [-> [row ->]].
  revert H. msimpl. cbn [Control.stop_scheduled]. intros H.
  destruct (crow_stop_scheduled row) eqn:Hstop; mred in H.
  - destruct (RunConfig.want_more_jobs _) as [more|] eqn:Hmore;
      [|discriminate]. mred in H.
    exists more. destruct more; revert H; intros [= <- <-];
      cbn [conf actions act set_conf Control.stop_scheduled];
      (split; [exact Hmore|]); (split; [done|]);
      (split; [done|]); intros r m;
      by apply (want_more_jobs_ints _ r m _ Hmore).
  - destruct (RunConfig.want_more_jobs _) as [more|] eqn:Hmore;
      [|discriminate]. mred in H.
    exists more. destruct more; revert H; intros [= <- <-];
      cbn [conf actions act set_conf Control.stop_scheduled];
      (split; [exact Hmore|]); (split; [done|]);
      (split; [done|]); intros r m;
      by apply (want_more_jobs_ints _ r m _ Hmore).
Qed.

(** ** Which errors the dispatcher catches *)

Lemma builtin_not_caught (e : exn) :
  builtin e -> caught_by ASDBJobsError e = false.
Proof. destruct e as [[] msg]; simpl; done. Qed.

Section RaisesOnly.

Context (P : exn -> Prop).

Lemma raises_only_ok {A} (a : A) : raises_only P (Ok a).
Proof. by intros e. Qed.

Lemma raises_only_raise {A} (e : exn) : P e -> raises_only P (@Raise A e).
Proof. intros He e' [= <-]. done. Qed.

Lemma raises_only_bind {A B} (r : res A) (k : A -> res B) :
  raises_only P r -> (forall a, raises_only P (k a)) ->
  raises_only P (x ← r; k x).
Proof.
  intros Hr Hk e. unfold mbind, res_bind, rbind.
  destruct r as [a|e']; [apply Hk|]. intros [= <-]. by apply Hr.
Qed.

Lemma raises_only_rmap {A B} (f : A -> res B) (l : list A) :
  (forall x, raises_only P (f x)) -> raises_only P (rmap f l).
Proof.
  intros Hf. induction l as [|x l IH]; simpl; [apply raises_only_ok|].
  apply (raises_only_bind (f x)); [apply Hf|]. intros y.
  apply (raises_only_bind (rmap f l)); [apply IH|]. intros ys.
  apply raises_only_ok.
Qed.

End RaisesOnly.

Lemma py_int_builtin (s : string) : raises_only builtin (Str.py_int s).
Proof.
  unfold Str.py_int.
  destruct (match Str.rstrip _ _ with String _ _ => _ | _ => _ end) as [neg body].
  destruct (Str.int_digits body 0 false);
    [apply raises_only_ok|by apply raises_only_raise].
Qed.

Lemma compute_identity_builtin (nident q_len : Z) :
  raises_only builtin (BlastResult.compute_identity nident q_len).
Proof.
  unfold BlastResult.compute_identity. apply raises_only_bind.
  - unfold Float64.truediv. destruct (q_len =? 0);
      [by apply raises_only_raise|].
    destruct (if 0 <? q_len then _ else _);
      [apply raises_only_ok|by apply raises_only_raise].
  - intros x. unfold Float64.round. destruct (Float64.mul_int x 100);
      [apply raises_only_ok|by apply raises_only_raise].
Qed.

Lemma from_line_builtin (line : string) :
  raises_only builtin (BlastResult.from_line line).
Proof.
  unfold BlastResult.from_line.
  destruct (negb _); [by apply raises_only_raise|]. simpl.
  repeat (apply raises_only_bind;
          [first [apply py_int_builtin|apply compute_identity_builtin]|intros ?]).
  apply raises_only_ok.
Qed.

Lemma getitem_builtin (v : pyval) (k : string) :
  raises_only builtin (getitem v k).
Proof.
  unfold getitem. destruct v; try by apply raises_only_raise.
  destruct (assoc k d); [apply raises_only_ok|by apply raises_only_raise].
Qed.

Lemma from_blast_builtin (b : BlastResult.t) (metadata : pyval) :
  raises_only builtin (ComparippsonResult.from_blast b metadata).
Proof.
  unfold ComparippsonResult.from_blast.
  repeat (apply raises_only_bind; [apply getitem_builtin|intros ?]).
  apply raises_only_ok.
Qed.

Lemma py_lt_builtin (a b : pyval) : raises_only builtin (py_lt a b).
Proof.
  revert b. induction a as [| | | |la IH| |] using pyval_list_ind;
    intros v; destruct v as [| | | |lb| |]; simpl;
    try (by apply raises_only_raise); try apply raises_only_ok.
  revert lb. induction IH as [|x la Hx _ IHla]; intros lb; destruct lb as [|y lb];
    try apply raises_only_ok.
  destruct (py_eq x y); [apply IHla|apply Hx].
Qed.

Lemma insert_desc_builtin {A} (k : pyval) (x : A) (l : list (pyval * A)) :
  raises_only builtin (insert_desc k x l).
Proof.
  induction l as [|[k' y] l IH]; simpl; [apply raises_only_ok|].
  apply raises_only_bind; [apply py_lt_builtin|]. intros [|].
  - apply raises_only_bind; [apply IH|]. intros r. apply raises_only_ok.
  - apply raises_only_ok.
Qed.

Lemma sort_desc_builtin {A} (l : list (pyval * A)) :
  raises_only builtin (sort_desc l).
Proof.
  induction l as [|[k x] l IH]; simpl; [apply raises_only_ok|].
  apply raises_only_bind; [apply IH|]. intros r. apply insert_desc_builtin.
Qed.

Lemma comparippson_hits_builtin (metadata : pyval) (stdout : list string) :
  raises_only builtin (Core.comparippson_hits metadata stdout).
Proof.
  unfold Core.comparippson_hits, parse_blast.
  apply raises_only_bind; [apply raises_only_rmap, from_line_builtin|].
  intros parsed. apply raises_only_bind.
  - apply raises_only_rmap. intros b.
    apply raises_only_bind; [apply from_blast_builtin|]. intros r.
    apply raises_only_ok.
  - intros results. unfold list_sort_reverse.
    apply raises_only_bind; [apply raises_only_rmap; intros e; apply getitem_builtin|].
    intros keys. apply raises_only_bind; [apply sort_desc_builtin|].
    intros sorted. apply raises_only_ok.
Qed.

Lemma clusterblast_hits_builtin (stdout : list string) :
  raises_only builtin (Core.clusterblast_hits stdout).
Proof.
  unfold Core.clusterblast_hits, parse_blast.
  apply raises_only_bind; [apply raises_only_rmap, from_line_builtin|].
  intros parsed. apply raises_only_ok.
Qed.

Section DispatchFacts.

Import Core.

Variable py_format : pyval -> string.
Variable run_child : list string -> string -> ChildRun.

Lemma handle_clusterblast_raises job w stdout stderr e :
  container_run py_format run_child clusterblast_tool job w
  = Ok (Exits 0 stdout stderr) ->
  clusterblast_hits stdout = Raise e ->
  handle_clusterblast py_format run_child (job, w)
  = (Exc e, (Job.set_status "done" job, w)).
Proof.
  intros Hrun Hhits.
  unfold handle_clusterblast. unfold mbind at 1, M_bind, bind.
  rewrite (run_job_exits_zero _ _ _ _ _ _ _ Hrun).
  unfold set_job. msimpl. rewrite Hhits. by msimpl.
Qed.

Lemma handle_comparippson_raises job w stdout stderr e :
  container_run py_format run_child comparippson_tool job w
  = Ok (Exits 0 stdout stderr) ->
  comparippson_hits (comparippson_metadata w) stdout = Raise e ->
  handle_comparippson py_format run_child (job, w)
  = (Exc e, (Job.set_status "done" job, w)).
Proof.
  intros Hrun Hhits.
  unfold handle_comparippson. unfold mbind at 1, M_bind, bind.
  rewrite (run_job_exits_zero _ _ _ _ _ _ _ Hrun).
  unfold set_job. msimpl. rewrite Hhits. by msimpl.
Qed.

(** An exception that is no [ASDBJobsError] leaves the [try] statement. *)
Lemma dispatch_job_lets_through job w e s :
  handle_job py_format run_child (job, w) = (Exc e, s) ->
  caught_by ASDBJobsError e = false ->
  dispatch_job py_format run_child (job, w) = (Exc e, s).
Proof.
  intros Hh Hc. unfold dispatch_job, try_except. by rewrite Hh, Hc.
Qed.

Lemma dispatch_job_invalid_type job w row :
  Job.jobtype job <> "comparippson" ->
  Job.jobtype job <> "clusterblast" ->
  in_sync job w row ->
  exists w',
    dispatch_job py_format run_child (job, w)
    = (Ret (), (Job.set_version (Job.version job + 1)
                  (failed_job (Job.jobtype job) job), w'))
    ∧ find (has_id (Job.id job)) (jobs w')
      = Some (committed_row (failed_job (Job.jobtype job) job) row).
Proof.
  intros H1 H2 Hsync.
  destruct (commit_in_sync (failed_job (Job.jobtype job) job) w row)
    as (w' & Hc & Hf & _).
  { by apply in_sync_done. }
  exists w'. split; [|done].
  unfold dispatch_job, try_except, handle_job. msimpl.
  apply String.eqb_neq in H1, H2. rewrite H1, H2. simpl.
  unfold set_job. by msimpl.
Qed.

End DispatchFacts.

Lemma from_line_wrong_arity (line : string) :
  length (columns line) <> 11%nat ->
  BlastResult.from_line line = Raise (Exn ValueError "Unexpected line").
Proof.
  intros Hlen. unfold BlastResult.from_line. fold (columns line).
  assert ((length (columns line) =? length BlastResult.fields)%nat = false)
    as -> by (by apply Nat.eqb_neq).
  done.
Qed.

Lemma from_blast_missing_entry (b : BlastResult.t) (metadata : pyval)
    (entries : list (string * pyval)) :
  getitem metadata "entries" = Ok (PDict entries) ->
  assoc (ComparippsonResult.entry_id b) entries = None ->
  ComparippsonResult.from_blast b metadata
  = Raise (Exn KeyError (ComparippsonResult.entry_id b)).
Proof.
  intros Hm He. unfold ComparippsonResult.from_blast, mbind, res_bind, rbind.
  rewrite Hm. simpl. by rewrite He.
Qed.

(** What the [except] clause of [dispatch] does and does not catch, for
    every job.  An invalid job type raises [InvalidJobType], an
    [ASDBJobsError]: it is caught, and the job is committed with status
    "failed" and results [{"status": "failed", "error": <the job type>}].
    An exception raised while the output of a finished container is
    parsed, enriched or sorted is never an [ASDBJobsError] (a line whose
    column count is not 11 raises a plain [ValueError], a missing metadata
    entry a [KeyError]): the clause does not apply, the exception leaves
    the [try] statement, and the row of the job is not written. *)
Lemma dispatch_job_catches_asdb_errors_only
    (py_format : pyval -> string)
    (run_child : list string -> string -> Core.ChildRun)
    (job : Job.t) (w : World) (row : JobRow) :
  in_sync job w row ->
  (Job.jobtype job <> "comparippson" -> Job.jobtype job <> "clusterblast" ->
   exists w',
     Core.dispatch_job py_format run_child (job, w)
     = (Ret (), (Job.set_version (Job.version job + 1)
                   (failed_job (Job.jobtype job) job), w'))
     ∧ find (has_id (Job.id job)) (jobs w')
       = Some (mkJobRow (row_id row) (row_jobtype row) "failed"
                 (Job.runner job) (row_submitted_date row) (Job.data job)
                 (Core.failed_results (PStr (Job.jobtype job)))
                 (row_version row + 1)))
  ∧ (forall stdout stderr e,
       Job.jobtype job = "comparippson" ->
       container_run py_format run_child Core.comparippson_tool job w
       = Ok (Core.Exits 0 stdout stderr) ->
       Core.comparippson_hits (comparippson_metadata w) stdout = Raise e ->
       caught_by ASDBJobsError e = false
       ∧ Core.dispatch_job py_format run_child (job, w)
         = (Exc e, (Job.set_status "done" job, w)))
  ∧ (forall stdout stderr e,
       Job.jobtype job = "clusterblast" ->
       container_run py_format run_child Core.clusterblast_tool job w
       = Ok (Core.Exits 0 stdout stderr) ->
       Core.clusterblast_hits stdout = Raise e ->
       caught_by ASDBJobsError e = false
       ∧ Core.dispatch_job py_format run_child (job, w)
         = (Exc e, (Job.set_status "done" job, w)))
  ∧ (forall line, length (columns line) <> 11%nat ->
       BlastResult.from_line line = Raise (Exn ValueError "Unexpected line"))
  ∧ (forall b metadata entries,
       getitem metadata "entries" = Ok (PDict entries) ->
       assoc (ComparippsonResult.entry_id b) entries = None ->
       ComparippsonResult.from_blast b metadata
       = Raise (Exn KeyError (ComparippsonResult.entry_id b))).
Proof.
  intros Hsync. split; [|split; [|split; [|split]]].
  - intros H1 H2.
    destruct (dispatch_job_invalid_type py_format run_child job w row H1 H2 Hsync)
      as (w' & Hd & Hf).
    exists w'. split; [done|]. rewrite Hf. unfold committed_row. simpl.
    by destruct Hsync as (_ & _ & ->).
  - intros stdout stderr e Ht Hrun Hhits.
    pose proof (builtin_not_caught e
                  (comparippson_hits_builtin _ _ e Hhits)) as Hc.
    split; [done|]. apply dispatch_job_lets_through; [|done].
    rewrite handle_job_comparippson by done.
    by apply (handle_comparippson_raises _ _ _ _ stdout stderr).
  - intros stdout stderr e Ht Hrun Hhits.
    pose proof (builtin_not_caught e
                  (clusterblast_hits_builtin _ e Hhits)) as Hc.
    split; [done|]. apply dispatch_job_lets_through; [|done].
    rewrite handle_job_clusterblast by done.
    by apply (handle_clusterblast_raises _ _ _ _ stdout stderr).
  - apply from_line_wrong_arity.
  - apply from_blast_missing_entry.
Qed.

(** ** The timeout branch and the running-jobs counter *)

Lemma commit_keeps (self self' : Job.t) (w w' : World) (o : outcome unit) :
  Job.commit (self, w) = (o, (self', w')) ->
  Job.results self' = Job.results self ∧ conf w' = conf w.
Proof.
  unfold Job.commit, get_job_by_id, update_jobs, insert_job. msimpl. intros H.
  destruct (Job.engine self); mred in H; try (by revert H; intros [= <- <- <-]).
  destruct (find _ (jobs w)) as [row|]; mred in H.
  - destruct (negb _); mred in H; by revert H; intros [= <- <- <-].
  - simpl in H. by revert H; intros [= <- <- <-].
Qed.

(** The event is completed either by [cancel], with its tuple of four, or
    by [run_process]. *)
Lemma await_event_shape (name : string) (child : Core.ChildRun) (w w' : World)
    (o : outcome Core.event_result) :
  Core.await_event name child w = (o, w') ->
  conf w' = conf w
  ∧ forall ev, o = Ret ev ->
      ev = Core.mkEvent Core.TIMEOUT [[]; ["Runtime exceeded"]; []]
      ∨ exists rc out err, ev = Core.run_process rc out err.
Proof.
  unfold Core.await_event. destruct child as [|rc out err|late cancel_first|].
  - intros [= <- <-]. split; [done|]. intros ev; discriminate.
  - intros [= <- <-]. split; [done|]. intros ev [= <-].
    right. by exists rc, out, err.
  - unfold Core.cancel. msimpl.
    destruct (containers _) as [c|]; mred.
    + destruct (decide _); mred.
      * destruct late as [[[rc out] err]|]; intros [= <- <-];
          (split; [done|]); intros ev [= <-].
        -- destruct cancel_first; [by left|right; by exists rc, out, err].
        -- by left.
      * destruct late as [[[rc out] err]|]; intros [= <- <-];
          (split; [done|]); intros ev; [|discriminate].
        intros [= <-]. right; by exists rc, out, err.
    + destruct late as [[[rc out] err]|]; intros [= <- <-];
        (split; [done|]); intros ev; [|discriminate].
      intros [= <-]. right; by exists rc, out, err.
  - unfold Core.cancel. msimpl.
    destruct (containers _) as [c|]; mred.
    + destruct (decide _); mred; intros [= <- <-]; (split; [done|]);
        intros ev; [|discriminate].
      intros [= <-]. by left.
    + intros [= <- <-]. split; [done|]. intros ev; discriminate.
Qed.

Section TimeoutFacts.

Import Core.

Variable py_format : pyval -> string.
Variable run_child : list string -> string -> ChildRun.

(** The lines the handlers share never take their TIMEOUT branch: the only
    event with that outcome cannot be unpacked. *)
Lemma run_job_results tool job w o job' w' :
  run_job py_format run_child tool (job, w) = (o, (job', w')) ->
  conf w' = conf w
  ∧ (job' = job
     ∨ exists stderr,
         Job.results job' = failed_results (PList (map PStr stderr))).
Proof.
  unfold run_job. msimpl. intros H.
  destruct (RunConfig.getattr _ _) as [db_dir|]; mred in H;
    [|by revert H; intros [= <- <- <-]; split; [|left]].
  destruct (fasta _ _) as [payload|]; mred in H;
    [|by revert H; intros [= <- <- <-]; split; [|left]].
  destruct (await_event _ _ w) as [o1 w1] eqn:Hev.
  apply await_event_shape in Hev as [Hconf Hev].
  destruct o1 as [ev| |]; mred in H;
    try (by revert H; intros [= <- <- <-]; split; [|left]).
  destruct (Hev ev eq_refl) as [->|(rc & out & err & ->)].
  - unfold unpack3 in H. simpl in H.
    by revert H; intros [= <- <- <-]; split; [|left].
  - unfold unpack3, run_process in H.
    destruct (negb (rc =? 0)); simpl in H.
    + unfold set_job in H. msimpl.
      destruct (Job.commit _) as [[[]| |] [j2 w2]] eqn:Hc; mred in H;
        revert H; intros [= <- <- <-];
        apply commit_keeps in Hc as [Hres Hc];
        (split; [congruence|]); right; exists err; by rewrite Hres.
    + by revert H; intros [= <- <- <-]; split; [|left].
Qed.

Lemma handle_comparippson_results job w o job' w' :
  handle_comparippson py_format run_child (job, w) = (o, (job', w')) ->
  conf w' = conf w ∧ handler_results job job'.
Proof.
  unfold handle_comparippson. unfold mbind at 1, M_bind, bind. intros H.
  destruct (run_job _ _ _ _) as [[[stdout|]| |] [j1 w1]] eqn:Hr;
    apply run_job_results in Hr as [Hconf Hr];
    try (revert H; intros [= <- <- <-]; split; [done|];
         destruct Hr as [->|Hr]; [by left|by right; left]).
  revert H. unfold set_job. msimpl.
  destruct (comparippson_hits _ _) as [hits|]; mred.
  - destruct (Job.commit _) as [o2 [j2 w2]] eqn:Hc. intros [= <- <- <-].
    apply commit_keeps in Hc as [Hres Hc]. split; [congruence|].
    right; right. by exists hits.
  - intros [= <- <- <-]. split; [done|]. simpl.
    destruct Hr as [->|Hr]; [by left|by right; left].
Qed.

Lemma handle_clusterblast_results job w o job' w' :
  handle_clusterblast py_format run_child (job, w) = (o, (job', w')) ->
  conf w' = conf w ∧ handler_results job job'.
Proof.
  unfold handle_clusterblast. unfold mbind at 1, M_bind, bind. intros H.
  destruct (run_job _ _ _ _) as [[[stdout|]| |] [j1 w1]] eqn:Hr;
    apply run_job_results in Hr as [Hconf Hr];
    try (revert H; intros [= <- <- <-]; split; [done|];
         destruct Hr as [->|Hr]; [by left|by right; left]).
  revert H. unfold set_job. msimpl.
  destruct (clusterblast_hits _) as [hits|]; mred.
  - destruct (Job.commit _) as [o2 [j2 w2]] eqn:Hc. intros [= <- <- <-].
    apply commit_keeps in Hc as [Hres Hc]. split; [congruence|].
    right; right. by exists hits.
  - intros [= <- <- <-]. split; [done|]. simpl.
    destruct Hr as [->|Hr]; [by left|by right; left].
Qed.

Lemma handle_job_results job w o job' w' :
  handle_job py_format run_child (job, w) = (o, (job', w')) ->
  conf w' = conf w ∧ handler_results job job'.
Proof.
  unfold handle_job. msimpl.
  destruct (String.eqb _ "comparippson"); [apply handle_comparippson_results|].
  destruct (String.eqb _ "clusterblast"); [apply handle_clusterblast_results|].
  intros [= <- <- <-]. split; [done|by left].
Qed.

(** No run of a handler writes "timeout exceeded" into the job: whatever
    the container does, the results are the ones found, a stderr, or
    hits. *)
Lemma handle_job_never_reports_timeout job w o job' w' :
  handle_job py_format run_child (job, w) = (o, (job', w')) ->
  Job.results job' = failed_results (PStr "timeout exceeded") ->
  Job.results job = failed_results (PStr "timeout exceeded").
Proof.
  intros H Ht. apply handle_job_results in H as [_ [H|[[stderr H]|[hits H]]]];
    rewrite H in Ht; [done|discriminate..].
Qed.

(** Handling a job, caught errors included, leaves the configuration and
    with it the running-jobs counter as they are: only the shrink exit of
    [dispatch] calls [down]. *)
Lemma dispatch_job_keeps_conf job w o job' w' :
  dispatch_job py_format run_child (job, w) = (o, (job', w')) ->
  conf w' = conf w.
Proof.
  unfold dispatch_job, try_except.
  destruct (handle_job _ _ _) as [o1 [j1 w1]] eqn:Hh.
  apply handle_job_results in Hh as [Hconf _].
  destruct o1 as [[]|e|]; try (by intros [= <- <- <-]).
  destruct (caught_by _ e); [|by intros [= <- <- <-]].
  unfold set_job. msimpl.
  destruct (Job.commit _) as [o2 [j2 w2]] eqn:Hc. intros [= <- <- <-].
  apply commit_keeps in Hc as [_ Hc]. congruence.
Qed.

End TimeoutFacts.

(** ** The model on small inputs *)

Example issubclass_errors :
  issubclass InvalidJobType ASDBJobsError = true
  ∧ issubclass JobConfict ASDBJobsError = true
  ∧ issubclass ASDBJobsError ValueError = true
  ∧ issubclass ValueError ASDBJobsError = false
  ∧ issubclass KeyError ASDBJobsError = false.
Proof. repeat split; reflexivity. Qed.

Example py_int_literals :
  Str.py_int " 1_000 " = Ok 1000
  ∧ Str.py_int "-007" = Ok (-7)
  ∧ (exists e, Str.py_int "+-1" = Raise e)
  ∧ (exists e, Str.py_int "1__0" = Raise e)
  ∧ (exists e, Str.py_int "4.0" = Raise e).
Proof. repeat split; try reflexivity; by eexists. Qed.

Example strip_split_line :
  Str.split "|" "ENT1|x|y" = ["ENT1"; "x"; "y"]
  ∧ Str.split "|" "plain" = ["plain"]
  ∧ Str.strip "  a b  " = "a b"
  ∧ length (columns Examples.line_80) = 11%nat.
Proof. repeat split; reflexivity. Qed.

(** Ties go to the even neighbour: 1/8 is 12.5 percent, 3/8 is 37.5. *)
Example identity_ties :
  BlastResult.compute_identity 1 8 = Ok 12
  ∧ BlastResult.compute_identity 3 8 = Ok 38
  ∧ BlastResult.compute_identity 4 5 = Ok 80
  ∧ BlastResult.compute_identity (-3) 5 = Ok (-60)
  ∧ (exists e, BlastResult.compute_identity 4 0 = Raise e
               ∧ exn_cls e = ZeroDivisionError).
Proof. repeat split; try (vm_compute; reflexivity). by eexists. Qed.

Example parse_line_80 :
  BlastResult.from_line Examples.line_80
  = Ok (BlastResult.mk "q1" "ENT1|x" 80 "MAGI" 1 4 5 "MAGX" 10 13 20).
Proof. vm_compute. reflexivity. Qed.

(** A container that exits with 1: the job is committed as failed with
    the lines of stderr, and the dispatcher goes on. *)
Example failed_container :
  exists w' : World,
    Core.dispatch Examples.format (Examples.exits 1 [] ["bad input"])
                  Examples.digest Examples.loads Examples.one_turn
                  (Examples.world [Examples.pending_row "comparippson"])
    = (Ret Core.Running, w')
    ∧ jobs w'
      = [mkJobRow "j1" "comparippson" "failed" "runner-1" (PStr "2024-05-01")
                  Examples.job_data
                  (Core.failed_results (PList [PStr "bad input"])) 2].
Proof. eexists. split; [vm_compute; reflexivity|reflexivity]. Qed.

(** ** Instances of the theorems *)

Lemma update_from_dict_overwrites_internal_fields_witness :
  exists self',
    RunConfig.read_config Examples.digest Examples.loads false
                          (Ok "_running_jobs = 7") Examples.config
    = (Ok (), self')
    ∧ RunConfig.running_jobs self' = Ok (PInt 7).
Proof.
  apply (update_from_dict_overwrites_internal_fields
           Examples.digest Examples.loads Examples.config
           {["_running_jobs" := PInt 7]} "_running_jobs = 7"
           (PStr "unchanged") (PInt 7));
    reflexivity.
Defined.

Lemma get_next_claims_one_pending_row_witness :
  exists w',
    JobQueue.get_next Examples.unlocked
                      (JobQueue.mk PEngine (PStr "runner-1"))
                      (Examples.world [Examples.pending_row "comparippson"])
    = (Ret (Some (Examples.claimed_job "comparippson")), w')
    ∧ jobs w' = [Examples.running_row "comparippson"].
Proof.
  destruct (get_next_claims_one_pending_row
              Examples.unlocked (JobQueue.mk PEngine (PStr "runner-1"))
              (Examples.world [Examples.pending_row "comparippson"])
              "runner-1" eq_refl eq_refl)
    as [[Hnone _]|(row & w' & Hin & _ & _ & Hget & Hjobs & _)].
  - apply NoDup_singleton.
  - exfalso.
    by specialize (Hnone (Examples.pending_row "comparippson")
                         ltac:(by apply list_elem_of_singleton) eq_refl).
  - apply list_elem_of_singleton in Hin as ->. by exists w'.
Defined.

Lemma commit_optimistic_lock_witness :
  Job.commit (Job.set_version 0 (Examples.claimed_job "comparippson"),
              Examples.world [Examples.running_row "comparippson"])
  = (Exc (Exn JobConfict "Job(j1) changed in database 1 vs. local 0"),
     (Job.set_version 0 (Examples.claimed_job "comparippson"),
      Examples.world [Examples.running_row "comparippson"])).
Proof.
  apply (commit_optimistic_lock
           (Job.set_version 0 (Examples.claimed_job "comparippson"))
           (Examples.world [Examples.running_row "comparippson"])
           (Examples.running_row "comparippson") eq_refl eq_refl).
  simpl. lia.
Defined.

Lemma from_line_identity_witness :
  exists nident : Z,
    Str.py_int (column Examples.line_80 2) = Ok nident
    ∧ Str.py_int (column Examples.line_80 6) = Ok 5
    ∧ 5 <> 0
    ∧ BlastResult.compute_identity nident 5 = Ok 80
    ∧ (0 <= nident <= 5 -> 0 <= 80 <= 100).
Proof.
  apply (from_line_identity Examples.line_80
           (BlastResult.mk "q1" "ENT1|x" 80 "MAGI" 1 4 5 "MAGX" 10 13 20)).
  vm_compute. reflexivity.
Defined.

Lemma clusterblast_commits_projected_hits_witness :
  exists (hits : list pyval) (job' : Job.t) (w' : World),
    Forall2 line_projection [Examples.line_80; Examples.line_100] hits
    ∧ Core.handle_job Examples.format
        (Examples.exits 0 [Examples.line_80; Examples.line_100] [])
        (Examples.claimed_job "clusterblast",
         Examples.world [Examples.running_row "clusterblast"])
      = (Ret (), (job', w'))
    ∧ Job.status job' = "done"
    ∧ Job.results job' = PDict [("hits", PList hits)]
    ∧ hits = [MoreExamples.json_80; MoreExamples.json_100]
    ∧ Job.version job' = 2.
Proof.
  destruct (clusterblast_commits_projected_hits
              Examples.format
              (Examples.exits 0 [Examples.line_80; Examples.line_100] [])
              (Examples.claimed_job "clusterblast")
              (Examples.world [Examples.running_row "clusterblast"])
              (Examples.running_row "clusterblast")
              [Examples.line_80; Examples.line_100] []
              [BlastResult.mk "q1" "ENT1|x" 80 "MAGI" 1 4 5 "MAGX" 10 13 20;
               BlastResult.mk "q1" "ENT2|y" 100 "MAGIC" 1 5 5 "MAGIC" 7 11 30]
              eq_refl)
    as (hits & job' & w' & Hproj & _ & Hrun & Hstatus & Hresults & Hversion
        & _).
  - repeat split; reflexivity.
  - vm_compute. reflexivity.
  - vm_compute. reflexivity.
  - exists hits, job', w'.
    split; [exact Hproj|]. split; [exact Hrun|]. split; [exact Hstatus|].
    split; [exact Hresults|]. split; [|exact Hversion].
    assert (Hc : Core.handle_job Examples.format
                   (Examples.exits 0 [Examples.line_80; Examples.line_100] [])
                   (Examples.claimed_job "clusterblast",
                    Examples.world [Examples.running_row "clusterblast"])
                 = (Ret (),
                    (Job.mk PEngine "j1" "clusterblast" "done" "runner-1"
                            Examples.job_data
                            (PDict [("hits", PList [MoreExamples.json_80;
                                                    MoreExamples.json_100])])
                            2,
                     Examples.world
                       [mkJobRow "j1" "clusterblast" "done" "runner-1"
                                 (PStr "2024-05-01") Examples.job_data
                                 (PDict [("hits",
                                          PList [MoreExamples.json_80;
                                                 MoreExamples.json_100])])
                                 2])))
      by (vm_compute; reflexivity).
    rewrite Hc in Hrun. injection Hrun as <- _. simpl in Hresults.
    injection Hresults as ->. reflexivity.
Defined.

(** C6 as stated fails: a clusterblast job whose container exits with 0
    and prints a line the parser accepts and a line of ten columns.  The
    handler raises on the second line; the job is not committed, neither
    as done nor with any hits, and its row is as it was. *)
Lemma clusterblast_malformed_line_commits_nothing :
  length (columns Examples.line_short) = 10%nat
  ∧ Core.handle_job Examples.format
      (Examples.exits 0 [Examples.line_80; Examples.line_short] [])
      (Examples.claimed_job "clusterblast",
       Examples.world [Examples.running_row "clusterblast"])
    = (Exc (Exn ValueError "Unexpected line"),
       (Job.set_status "done" (Examples.claimed_job "clusterblast"),
        Examples.world [Examples.running_row "clusterblast"]))
  ∧ row_status (Examples.running_row "clusterblast") = "running"
  ∧ row_results (Examples.running_row "clusterblast") = PNone.
Proof.
  split; [reflexivity|]. split; [vm_compute; reflexivity|].
  split; reflexivity.
Qed.

Lemma committed_hits_order_witness :
  let stdout := [Examples.line_80; Examples.line_100; Examples.line_80] in
  let enriched (locus accession : string) (rec_start rec_end identity : Z)
        (s_seq : string) (nums : Z * Z * Z * Z * Z * Z) :=
    let '(q_start, q_end, q_len, s_start, s_end, s_len) := nums in
    ComparippsonResult.mk "q1" (PStr locus) (PStr "T") (PStr accession)
      (PInt rec_start) (PInt rec_end) identity
      (if identity =? 100 then "MAGIC" else "MAGI") q_start q_end q_len
      s_seq s_start s_end s_len in
  let hit_80 := enriched "L" "A" 1 99 80 "MAGX" (1, 4, 5, 10, 13, 20) in
  let hit_100 := enriched "M" "B" 5 50 100 "MAGIC" (1, 5, 5, 7, 11, 30) in
  let hits := map ComparippsonResult.to_json [hit_100; hit_80; hit_80] in
  exists (w' : World) (rs sorted : list ComparippsonResult.t),
    Core.handle_job Examples.format (Examples.exits 0 stdout [])
      (Examples.claimed_job "comparippson",
       Examples.world [Examples.running_row "comparippson"])
    = (Ret (), (Job.set_version 2
                  (done_job hits (Examples.claimed_job "comparippson")), w'))
    ∧ (row_results <$> find (has_id "j1") (jobs w'))
      = Some (PDict [("hits", PList hits)])
    ∧ hits = map ComparippsonResult.to_json sorted
    ∧ StronglySorted (fun a b => ComparippsonResult.identity a
                                 >= ComparippsonResult.identity b) sorted
    ∧ forall v : Z,
        List.filter (fun r => ComparippsonResult.identity r =? v) sorted
        = List.filter (fun r => ComparippsonResult.identity r =? v) rs.
Proof.
  intros stdout enriched hit_80 hit_100 hits.
  assert (Hsync : in_sync (Examples.claimed_job "comparippson")
                    (Examples.world [Examples.running_row "comparippson"])
                    (Examples.running_row "comparippson"))
    by (repeat split; reflexivity).
  assert (Hrun : container_run Examples.format (Examples.exits 0 stdout [])
                   Core.comparippson_tool (Examples.claimed_job "comparippson")
                   (Examples.world [Examples.running_row "comparippson"])
                 = Ok (Core.Exits 0 stdout []))
    by (vm_compute; reflexivity).
  assert (Hhits : Core.comparippson_hits Examples.metadata stdout = Ok hits)
    by (vm_compute; reflexivity).
  destruct (committed_hits_order
              Examples.format (Examples.exits 0 stdout [])
              (Examples.claimed_job "comparippson")
              (Examples.world [Examples.running_row "comparippson"])
              (Examples.running_row "comparippson") stdout [] hits Hsync)
    as [Hcomp _].
  destruct (Hcomp eq_refl Hrun Hhits)
    as (w' & rs & sorted & H1 & H2 & _ & H3 & H4 & H5).
  exists w', rs, sorted.
  split; [exact H1|]. split; [exact H2|]. split; [exact H3|].
  split; [exact H4|exact H5].
Defined.

Lemma manage_tick_starts_at_most_one_witness :
  exists more : bool,
    RunConfig.want_more_jobs Examples.config = Ok more
    ∧ [StartTask] = ((if more then [StartTask] else []) ++ [])%list
    ∧ more = (0 <? 5).
Proof.
  destruct (manage_tick_starts_at_most_one
              Examples.control Examples.control
              (Examples.world []) (act StartTask (Examples.world []))
              ltac:(vm_compute; reflexivity))
    as (more & Hmore & Hact & _ & Hgap).
  exists more. split; [exact Hmore|]. split; [exact Hact|].
  apply Hgap; reflexivity.
Defined.

(** C5 as stated fails: with no dispatcher running and five wanted, one
    tick starts one dispatcher task, not five. *)
Lemma manage_tick_does_not_close_gap :
  exists (control' : Control.t) (w' : World),
    Core.manage_tick (Examples.control, Examples.world [])
    = (Ret (), (control', w'))
    ∧ conf w' !! "_running_jobs" = Some (PInt 0)
    ∧ conf w' !! "max_jobs" = Some (PInt 5)
    ∧ actions w' = [StartTask]
    ∧ Z.of_nat (length (actions w')) <> 5 - 0.
Proof.
  exists Examples.control, (act StartTask (Examples.world [])).
  split; [vm_compute; reflexivity|].
  split; [reflexivity|]. split; [reflexivity|]. split; [reflexivity|].
  simpl. lia.
Qed.

Lemma dispatch_job_catches_asdb_errors_only_witness :
  exists w',
    Core.dispatch_job Examples.format (Examples.exits 0 [] [])
      (Examples.claimed_job "mystery",
       Examples.world [Examples.running_row "mystery"])
    = (Ret (), (Job.set_version 2
                  (failed_job "mystery" (Examples.claimed_job "mystery")), w'))
    ∧ find (has_id "j1") (jobs w')
      = Some (mkJobRow "j1" "mystery" "failed" "runner-1" (PStr "2024-05-01")
                       Examples.job_data
                       (PDict [("status", PStr "failed");
                               ("error", PStr "mystery")]) 2).
Proof.
  destruct (dispatch_job_catches_asdb_errors_only
              Examples.format (Examples.exits 0 [] [])
              (Examples.claimed_job "mystery")
              (Examples.world [Examples.running_row "mystery"])
              (Examples.running_row "mystery"))
    as [Hcaught _].
  - repeat split; reflexivity.
  - destruct (Hcaught ltac:(discriminate) ltac:(discriminate))
      as (w' & Hrun & Hrow).
    exists w'. split; [exact Hrun|exact Hrow].
Defined.

(** C2 on the code.  Of the four job-class errors only the invalid job
    type is an [ASDBJobsError], which is all the [except] clause of
    [dispatch] catches.  A dispatcher that claims the comparippson job [j1]
    is ended by a [ValueError] when the container prints a line of ten
    columns, by a [KeyError] when the line names a subject the metadata
    has no entry for, and by a [KeyError] when the job data has no name;
    each time the row of the job is left as claimed, "running", and the
    counter of running dispatchers stays at 1.  A job of an unknown type
    is committed as failed with the type as the error, and the dispatcher
    goes on. *)
Theorem job_class_errors_abort_dispatcher :
  let run (stdout : list string) (rows : list JobRow) :=
    Core.dispatch Examples.format (Examples.exits 0 stdout [])
                  Examples.digest Examples.loads Examples.one_turn
                  (Examples.world rows) in
  (length (columns Examples.line_short) = 10%nat
   ∧ exists w',
       run [Examples.line_short] [Examples.pending_row "comparippson"]
       = (Exc (Exn ValueError "Unexpected line"), w')
       ∧ caught_by ASDBJobsError (Exn ValueError "Unexpected line") = false
       ∧ jobs w' = [Examples.running_row "comparippson"]
       ∧ conf w' !! "_running_jobs" = Some (PInt 1))
  ∧ (getitem Examples.metadata "entries"
       ≫= (fun entries => getitem entries "ENT9")
     = Raise (Exn KeyError "ENT9")
     ∧ exists w',
         run [MoreExamples.line_unknown_entry]
             [Examples.pending_row "comparippson"]
         = (Exc (Exn KeyError "ENT9"), w')
         ∧ caught_by ASDBJobsError (Exn KeyError "ENT9") = false
         ∧ jobs w' = [Examples.running_row "comparippson"]
         ∧ conf w' !! "_running_jobs" = Some (PInt 1))
  ∧ (getitem MoreExamples.nameless_data "name" = Raise (Exn KeyError "name")
     ∧ exists w',
         run [Examples.line_80]
             [MoreExamples.nameless_row "pending" EmptyString 0]
         = (Exc (Exn KeyError "name"), w')
         ∧ caught_by ASDBJobsError (Exn KeyError "name") = false
         ∧ jobs w' = [MoreExamples.nameless_row "running" "runner-1" 1]
         ∧ conf w' !! "_running_jobs" = Some (PInt 1))
  ∧ (exists w',
       run [] [Examples.pending_row "mystery"] = (Ret Core.Running, w')
       ∧ caught_by ASDBJobsError (Exn InvalidJobType "mystery") = true
       ∧ jobs w'
         = [mkJobRow "j1" "mystery" "failed" "runner-1" (PStr "2024-05-01")
                     Examples.job_data
                     (Core.failed_results (PStr "mystery")) 2]).
Proof.
  intros run. subst run. cbv beta. split; [|split; [|split]].
  - split; [reflexivity|]. eexists. split; [vm_compute; reflexivity|].
    split; [reflexivity|]. split; reflexivity.
  - split; [reflexivity|]. eexists. split; [vm_compute; reflexivity|].
    split; [reflexivity|]. split; reflexivity.
  - split; [reflexivity|]. eexists. split; [vm_compute; reflexivity|].
    split; [reflexivity|]. split; reflexivity.
  - eexists. split; [vm_compute; reflexivity|].
    split; reflexivity.
Qed.

(** C7 as stated fails on both counts: a line with ten identical positions
    on a query of length five is accepted with identity 200; and 23 of 40
    is stored as 57, while the nearest integer to 2300 / 40, ties to even,
    is 58. *)
Lemma identity_exceeds_100 :
  (exists r : BlastResult.t,
     BlastResult.from_line Examples.line_200 = Ok r
     ∧ BlastResult.identity r = 200
     ∧ ~ (0 <= BlastResult.identity r <= 100))
  ∧ (exists r : BlastResult.t,
       BlastResult.from_line Examples.line_23_of_40 = Ok r
       ∧ BlastResult.identity r = 57
       ∧ Float64.rne (23 * 100) 40 = 58).
Proof.
  split.
  - eexists. split; [vm_compute; reflexivity|]. simpl. split; [reflexivity|lia].
  - eexists. split; [vm_compute; reflexivity|]. simpl. split; reflexivity.
Qed.

(** C9 on the code: a dispatcher that claims a comparippson job whose
    container prints a line of ten columns.  The [ValueError] ends the
    dispatcher, and the counter it raised from 0 to 1 on entry stays at 1:
    no dispatcher lives, one is counted. *)
Theorem dispatcher_error_leaves_counter :
  conf (Examples.world [Examples.pending_row "comparippson"]) !! "_running_jobs"
  = Some (PInt 0)
  ∧ exists (e : exn) (w' : World),
      Core.dispatch Examples.format (Examples.exits 0 [Examples.line_short] [])
                    Examples.digest Examples.loads Examples.one_turn
                    (Examples.world [Examples.pending_row "comparippson"])
      = (Exc e, w')
      ∧ exn_cls e = ValueError
      ∧ conf w' !! "_running_jobs" = Some (PInt 1).
Proof.
  split; [reflexivity|].
  eexists _, _. split; [vm_compute; reflexivity|].
  split; reflexivity.
Qed.

(** C1 on the code: a comparippson job whose container is still running
    when the timer fires.  With the application as [main] builds it,
    [cancel] kills the container and then fails on [app['containers']]; the
    event is completed by [run_process] with the killed container's exit,
    and the job is committed with that run's stderr as its error.  Were
    the container registered, [cancel] would complete the event with a
    tuple of four, which the handler cannot unpack: no commit at all.  The
    message "timeout exceeded" is committed in neither case. *)
Theorem timeout_is_not_committed :
  (exists w' : World,
     Core.dispatch Examples.format
       (Examples.overruns (Some (137, [], ["killed"])) true)
       Examples.digest Examples.loads Examples.one_turn
       (Examples.world [Examples.pending_row "comparippson"])
     = (Ret Core.Running, w')
     ∧ actions w' = [PodmanKill "j1"]
     ∧ (row_results <$> find (has_id "j1") (jobs w'))
       = Some (Core.failed_results (PList [PStr "killed"]))
     ∧ Core.failed_results (PList [PStr "killed"])
       <> Core.failed_results (PStr "timeout exceeded"))
  ∧ (exists w' : World,
       Core.dispatch Examples.format
         (Examples.overruns (Some (137, [], ["killed"])) true)
         Examples.digest Examples.loads Examples.one_turn
         (set_containers (Some {["j1"]})
            (Examples.world [Examples.pending_row "comparippson"]))
       = (Exc (Exn ValueError "too many values to unpack (expected 3)"), w')
       ∧ actions w' = [PodmanKill "j1"]
       ∧ jobs w' = [Examples.running_row "comparippson"]).
Proof.
  split.
  - eexists. split; [vm_compute; reflexivity|].
    split; [reflexivity|]. split; [reflexivity|]. discriminate.
  - eexists. split; [vm_compute; reflexivity|].
    split; reflexivity.
Qed.

(** * Further properties *)

(** ** Parsing and enrichment of result lines *)

Lemma rmap_app_raise {A B} (f : A -> res B) (pre post : list A) (bad : A)
    (ys : list B) (e : exn) :
  rmap f pre = Ok ys -> f bad = Raise e ->
  rmap f (pre ++ bad :: post) = Raise e.
Proof.
  revert ys. induction pre as [|x pre IH]; intros ys Hpre Hbad; simpl.
  - by rewrite Hbad.
  - simpl in Hpre. destruct (f x) as [y|]; [|done]. simpl in *.
    destruct (rmap f pre) as [ys'|]; [|done].
    by rewrite (IH ys' eq_refl Hbad).
Qed.

Lemma rmap_raise_inv {A B} (f : A -> res B) (l : list A) (e : exn) :
  rmap f l = Raise e ->
  exists pre bad post ys,
    l = (pre ++ bad :: post)%list ∧ rmap f pre = Ok ys ∧ f bad = Raise e.
Proof.
  induction l as [|x l IH]; [done|]. simpl.
  destruct (f x) as [y|e'] eqn:Hx; simpl.
  - destruct (rmap f l) as [ys|e'] eqn:Hl; simpl; [done|].
    intros [= ->]. destruct (IH eq_refl) as (pre & bad & post & ys & -> & Hpre & Hbad).
    exists (x :: pre), bad, post, (y :: ys). simpl. by rewrite Hx, Hpre.
  - intros [= ->]. by exists [], x, l, [].
Qed.

Lemma Forall2_rmap {A B} (f : A -> res B) (l : list A) (ys : list B) :
  Forall2 (fun x y => f x = Ok y) l ys -> rmap f l = Ok ys.
Proof.
  induction 1 as [|x y l ys Hx _ IH]; [done|]. simpl. by rewrite Hx, IH.
Qed.

(** [parse_blast] fails exactly when some line is rejected, and then with the
    error of the first such line: the lines before it all parse, the lines
    after it are not looked at, and no partial list of hits is returned. *)
Theorem parse_blast_first_bad_line (lines : list string) (e : exn) :
  parse_blast lines = Raise e
  <-> exists (pre post : list string) (bad : string)
             (parsed : list BlastResult.t),
        lines = (pre ++ bad :: post)%list
        ∧ parse_blast pre = Ok parsed
        ∧ BlastResult.from_line bad = Raise e.
Proof.
  unfold parse_blast. split.
  - intros H. apply rmap_raise_inv in H as (pre & bad & post & ys & H).
    by exists pre, post, bad, ys.
  - intros (pre & post & bad & ys & -> & Hpre & Hbad).
    by apply (rmap_app_raise _ _ _ _ ys).
Qed.

(** [parse_blast] succeeds exactly when every line is accepted by
    [from_line], and the records it returns are those of the lines, one
    per line and in the order of the lines. *)
Theorem parse_blast_one_record_per_line (lines : list string)
    (parsed : list BlastResult.t) :
  parse_blast lines = Ok parsed
  <-> Forall2 (fun line b => BlastResult.from_line line = Ok b) lines parsed.
Proof.
  unfold parse_blast. split; [apply rmap_Forall2|apply Forall2_rmap].
Qed.

Lemma split_head (sep : ascii) (s : string) :
  exists (h : string) (t : list string),
    Str.split sep s = h :: t
    ∧ (forall i, String.get i h <> Some sep)
    ∧ (s = h ∧ t = [] ∨ exists rest, s = h ++ String sep rest).
Proof.
  induction s as [|c s (h & t & Hs & Hno & Hpre)]; simpl.
  - exists EmptyString, []. split; [done|]. split; [by intros []|by left].
  - destruct (Ascii.eqb c sep) eqn:Hc.
    + apply Ascii.eqb_eq in Hc as ->.
      exists EmptyString, (Str.split sep s). split; [done|].
      split; [by intros []|]. right. by exists s.
    + rewrite Hs. exists (String c h), t. split; [done|]. split.
      * intros [|i]; simpl; [|apply Hno].
        intros [= ->]. by rewrite Ascii.eqb_refl in Hc.
      * destruct Hpre as [[-> ->]|[rest ->]]; [by left|right]. by exists rest.
Qed.

(** The entry a hit is looked up under, [s_acc.split("|")[0]], contains no
    "|" and is the subject accession up to its first "|": the accession is
    that identifier, or the identifier followed by "|" and a rest. *)
Theorem entry_id_is_prefix (blast : BlastResult.t) :
  let id := ComparippsonResult.entry_id blast in
  (forall i, String.get i id <> Some "|"%char)
  ∧ (BlastResult.s_acc blast = id
     ∨ exists rest, BlastResult.s_acc blast = id ++ String "|" rest).
Proof.
  unfold ComparippsonResult.entry_id.
  destruct (split_head "|" (BlastResult.s_acc blast)) as (h & t & -> & Hno & Hpre).
  simpl. split; [done|]. destruct Hpre as [[-> _]|[rest ->]]; [by left|right].
  by exists rest.
Qed.

(** Enriching a parsed row changes none of its values: under every key of
    a [BlastResult] other than [s_acc] the JSON of the enriched result has
    the value the JSON of the parsed row has ([s_acc] is replaced by the
    accession of the metadata entry). *)
Theorem from_blast_keeps_parsed_fields (blast : BlastResult.t)
    (metadata : pyval) (r : ComparippsonResult.t) (k : string) :
  ComparippsonResult.from_blast blast metadata = Ok r ->
  k ∈ BlastResult.fields -> k <> "s_acc" ->
  getitem (ComparippsonResult.to_json r) k
  = getitem (BlastResult.to_json blast) k.
Proof.
  unfold ComparippsonResult.from_blast. unfold mbind, res_bind, rbind.
  destruct (getitem metadata _) as [entries|]; [|done].
  destruct (getitem entries _) as [data|]; [|done].
  repeat (destruct (getitem data _); [|done]).
  intros [= <-] Hk Hne. unfold BlastResult.fields in Hk.
  repeat (apply elem_of_cons in Hk as [->|Hk]; [try done|]).
  by apply elem_of_nil in Hk.
Qed.

Lemma sort_key_length {A} (key : A -> Z) (l : list A) :
  length (sort_key key l) = length l.
Proof. apply Permutation_length, sort_key_perm. Qed.

(** The hits of a comparippson run are the enriched output lines, each one
    once: as many hits as lines, and the list of hits is a permutation of
    the JSON of the lines' enriched results. *)
Theorem comparippson_hits_keep_every_line (metadata : pyval)
    (stdout : list string) (hits : list pyval) :
  Core.comparippson_hits metadata stdout = Ok hits ->
  length hits = length stdout
  ∧ exists rs : list ComparippsonResult.t,
      Forall2 (fun line r =>
                 exists b, BlastResult.from_line line = Ok b
                           ∧ ComparippsonResult.from_blast b metadata = Ok r)
              stdout rs
      ∧ hits ≡ₚ map ComparippsonResult.to_json rs.
Proof.
  intros H. apply comparippson_hits_sorted in H as (parsed & rs & Hp & Hr & ->).
  split.
  - rewrite length_map, sort_key_length.
    apply Forall2_length in Hp, Hr. congruence.
  - exists rs. split.
    + clear -Hp Hr. revert rs Hr.
      induction Hp as [|line b stdout parsed Hb _ IH]; intros rs Hr.
      * inversion Hr. constructor.
      * inversion Hr as [|? r ? rs' Hbr Hr']; subst. constructor; [|by apply IH].
        by exists b.
    + apply Permutation_map, sort_key_perm.
Qed.

(** ** The configuration object *)

Section MoreConfigFacts.

Import RunConfig.

Variable md5_hexdigest : string -> string.
Variable toml_loads : string -> res (gmap string pyval).

Lemma py_eq_str_refl (s : string) : py_eq (PStr s) (PStr s) = true.
Proof. simpl. apply String.eqb_refl. Qed.

Lemma read_config_unchanged (self : gmap string pyval) (data : string) :
  self !! "_config_file_hash" = Some (PStr (md5_hexdigest data)) ->
  read_config md5_hexdigest toml_loads false (Ok data) self = (Ok (), self).
Proof.
  intros H. unfold read_config, getattr. rewrite H.
  by rewrite py_eq_str_refl.
Qed.

End MoreConfigFacts.

(** Reading the same configuration file twice changes nothing the second
    time: once [read_config] has returned for a file that does not itself
    set [_config_file_hash], the next call on the same content returns
    with the object as it is. *)
Theorem read_config_second_read_is_noop
    (md5_hexdigest : string -> string)
    (toml_loads : string -> res (gmap string pyval))
    (self loaded : gmap string pyval) (data : string) (h : pyval) :
  RunConfig.getattr self "_config_file_hash" = Ok h ->
  toml_loads data = Ok loaded ->
  loaded !! "_config_file_hash" = None ->
  exists self',
    RunConfig.read_config md5_hexdigest toml_loads false (Ok data) self
    = (Ok (), self')
    ∧ RunConfig.read_config md5_hexdigest toml_loads false (Ok data) self'
      = (Ok (), self').
Proof.
  intros Hh Hload Hnohash. unfold RunConfig.read_config at 1. rewrite Hh.
  destruct (py_eq _ h && negb false) eqn:Heq.
  - exists self. split; [done|]. unfold RunConfig.read_config.
    by rewrite Hh, Heq.
  - rewrite Hload. eexists. split; [done|].
    apply read_config_unchanged.
    rewrite update_from_dict_lookup, Hnohash.
    unfold RunConfig.setattr. by rewrite lookup_insert_eq.
Qed.

(** A configuration file that does not parse is reported once.  The new
    fingerprint is stored before the file is parsed, so the call raises the
    parser's error having changed only [_config_file_hash], and the next
    call on the same content returns without an error and without having
    applied anything of the file. *)
Theorem read_config_reports_parse_error_once
    (md5_hexdigest : string -> string)
    (toml_loads : string -> res (gmap string pyval))
    (self : gmap string pyval) (data : string) (h : pyval) (e : exn) :
  RunConfig.getattr self "_config_file_hash" = Ok h ->
  py_eq (PStr (md5_hexdigest data)) h = false ->
  toml_loads data = Raise e ->
  exists self',
    RunConfig.read_config md5_hexdigest toml_loads false (Ok data) self
    = (Raise e, self')
    ∧ (forall name, name <> "_config_file_hash" -> self' !! name = self !! name)
    ∧ RunConfig.read_config md5_hexdigest toml_loads false (Ok data) self'
      = (Ok (), self').
Proof.
  intros Hh Heq Hload. unfold RunConfig.read_config at 1.
  rewrite Hh, Heq, Hload. simpl. eexists. split; [done|]. split.
  - intros name Hname. unfold RunConfig.setattr. by rewrite lookup_insert_ne.
  - apply read_config_unchanged. unfold RunConfig.setattr.
    by rewrite lookup_insert_eq.
Qed.

Lemma update_from_dict_idem (self config : gmap string pyval) :
  RunConfig.update_from_dict (RunConfig.update_from_dict self config) config
  = RunConfig.update_from_dict self config.
Proof.
  apply map_eq. intros name. rewrite !update_from_dict_lookup.
  destruct (config !! name); [|done]. by destruct (decide _).
Qed.

(** [update_from_dict] assigns the fields named in the dictionary and
    nothing else: an attribute that is no field of [RunConfig], or that the
    dictionary has no key for, keeps its value (keys that are no field are
    ignored); applying the same dictionary twice is applying it once, and
    the empty dictionary changes nothing. *)
Theorem update_from_dict_touches_named_fields_only
    (self config : gmap string pyval) :
  (forall name, name ∉ RunConfig.fields ∨ config !! name = None ->
     RunConfig.update_from_dict self config !! name = self !! name)
  ∧ RunConfig.update_from_dict (RunConfig.update_from_dict self config) config
    = RunConfig.update_from_dict self config
  ∧ RunConfig.update_from_dict self ∅ = self.
Proof.
  split; [|split].
  - intros name H. rewrite update_from_dict_lookup.
    destruct (config !! name); [|done].
    destruct (decide _); [|done]. by destruct H.
  - apply update_from_dict_idem.
  - apply map_eq. intros name. by rewrite update_from_dict_lookup, lookup_empty.
Qed.

(** [up] followed by [down] restores the configuration: with an int count
    [n] of running jobs, [up] leaves [n + 1] and [down] after it gives
    back the object [up] was called on. *)
Theorem up_then_down_restores_counter (self : gmap string pyval) (n : Z) :
  self !! "_running_jobs" = Some (PInt n) ->
  exists self',
    RunConfig.up self = Ok self'
    ∧ RunConfig.running_jobs self' = Ok (PInt (n + 1))
    ∧ RunConfig.down self' = Ok self.
Proof.
  intros H. unfold RunConfig.up, RunConfig.down, RunConfig.running_jobs,
    RunConfig.getattr, RunConfig.setattr.
  rewrite H. simpl. eexists. split; [done|].
  rewrite lookup_insert_eq. split; [done|]. simpl.
  rewrite insert_insert_eq. replace (n + 1 - 1) with n by lia.
  by rewrite insert_id.
Qed.

Lemma py_lt_not_eq (a : pyval) :
  forall b, py_lt a b = Ok true -> py_eq b a = false.
Proof.
  induction a as [|c|x|s|la IH|d|] using pyval_list_ind;
    intros [|c'|y|s'|lb|d'|]; simpl; try done.
  - intros [= H]. destruct c, c'; try done.
  - intros [= H]. destruct c; lia.
  - intros [= H]. destruct c'; lia.
  - intros [= H]. lia.
  - intros [= H]. apply String.eqb_neq. intros ->.
    unfold String.ltb in H.
    pose proof (String.compare_antisym s s) as Ha.
    by destruct (String.compare s s).
  - revert lb. induction IH as [|x xs Hx _ IHxs]; intros [|y ys]; try done.
    destruct (py_eq x y) eqn:Hxy.
    + intros H. rewrite (IHxs ys H). apply andb_false_r.
    + intros H. by rewrite (Hx y H).
Qed.

Lemma py_lt_asym (a : pyval) :
  forall b, py_lt a b = Ok true -> py_lt b a = Ok true -> False.
Proof.
  induction a as [|c|x|s|la IH|d|] using pyval_list_ind;
    intros [|c'|y|s'|lb|d'|]; simpl; try done.
  - intros [= H] [= H']. destruct c, c'; done.
  - intros [= H] [= H']. destruct c; lia.
  - intros [= H] [= H']. destruct c'; lia.
  - intros [= H] [= H']. lia.
  - intros [= H] [= H']. unfold String.ltb in *.
    rewrite String.compare_antisym in H'.
    destruct (String.compare s s'); done.
  - revert lb. induction IH as [|x xs Hx _ IHxs]; intros [|y ys]; try done.
    destruct (py_eq x y) eqn:Hxy, (py_eq y x) eqn:Hyx.
    + apply IHxs.
    + intros _ H'. apply py_lt_not_eq in H'. congruence.
    + intros H _. apply py_lt_not_eq in H. congruence.
    + apply Hx.
Qed.

(** [want_more_jobs] and [want_less_jobs] are never both true, whatever
    values [_running_jobs] and [max_jobs] hold (ints, booleans, strings or
    lists): the supervisor's test for starting a dispatcher and a
    dispatcher's test for leaving exclude each other. *)
Theorem want_more_and_less_exclude_each_other
    (self : gmap string pyval) (more less : bool) :
  RunConfig.want_more_jobs self = Ok more ->
  RunConfig.want_less_jobs self = Ok less ->
  more && less = false.
Proof.
  unfold RunConfig.want_more_jobs, RunConfig.want_less_jobs, py_gt.
  unfold mbind, res_bind, rbind.
  destruct (RunConfig.running_jobs self) as [r|]; [|done].
  destruct (RunConfig.getattr self "max_jobs") as [m|]; [|done].
  intros Hm Hl. destruct more, less; try done.
  destruct (py_lt_asym _ _ Hm Hl).
Qed.

(** The [db] property follows [init_db] and [close_db].  After an [init_db]
    that returned an engine, [db] gives that engine; an [init_db] that
    raises leaves the object as it was.  After [close_db], [db] raises
    [ValueError], a second [close_db] does nothing, and no attribute other
    than [_db] has changed. *)
Theorem db_follows_init_and_close
    (create_engine : pyval -> pyval -> pyval -> pyval -> pyval -> res pyval)
    (self : gmap string pyval) :
  (forall engine self',
     RunConfig.init_db create_engine self = (Ok engine, self') ->
     engine <> PNone -> RunConfig.db self' = Ok engine)
  ∧ (forall e self',
       RunConfig.init_db create_engine self = (Raise e, self') -> self' = self)
  ∧ (forall self',
       RunConfig.close_db self = Ok self' ->
       RunConfig.db self'
       = Raise (Exn ValueError "Initialise the database first")
       ∧ RunConfig.close_db self' = Ok self'
       ∧ forall name, name <> "_db" -> self' !! name = self !! name).
Proof.
  split; [|split].
  - intros engine self'. unfold RunConfig.init_db.
    destruct (_ ← _; _) as [v|]; [|done]. intros [= <- <-] Hne.
    unfold RunConfig.db, RunConfig.getattr, RunConfig.setattr.
    rewrite lookup_insert_eq. simpl. by destruct v.
  - intros e self'. unfold RunConfig.init_db.
    destruct (_ ← _; _) as [v|]; [done|]. by intros [= <- <-].
  - intros self' H.
    assert (self !! "_db" = Some PNone ∧ self' = self
            ∨ self !! "_db" = Some PEngine
              ∧ self' = RunConfig.setattr self "_db" PNone) as Hcases.
    { revert H. unfold RunConfig.close_db, RunConfig.getattr.
      destruct (self !! "_db") as [v|]; [|done]. simpl.
      destruct v; try done; intros [= <-]; [by left|by right]. }
    assert (self' !! "_db" = Some PNone) as Hnone.
    { destruct Hcases as [[Hdb ->]|[_ ->]]; [done|].
      unfold RunConfig.setattr. by rewrite lookup_insert_eq. }
    split; [|split].
    + unfold RunConfig.db, RunConfig.getattr. by rewrite Hnone.
    + unfold RunConfig.close_db, RunConfig.getattr. by rewrite Hnone.
    + intros name Hname. destruct Hcases as [[_ ->]|[_ ->]]; [done|].
      unfold RunConfig.setattr. by rewrite lookup_insert_ne.
Qed.

(** ** Construction from the command line *)

Section FromArgparseFacts.

Import RunConfig.

Variables db_dir_default debug_default workdir_default : pyval.

Abbreviation specs :=
  (dataclass_fields db_dir_default debug_default workdir_default).

Lemma dataclass_fields_names : f_name <$> specs = fields.
Proof. reflexivity. Qed.

Lemma collect_kwargs_frame (fs : list field) (args : gmap string pyval) :
  forall kwargs kwargs' name,
    collect_kwargs fs args kwargs = Ok kwargs' ->
    (forall f, f ∈ fs -> f_init f = true -> f_name f <> name) ->
    kwargs' !! name = kwargs !! name.
Proof.
  induction fs as [|f fs IH]; intros kwargs kwargs' name; simpl.
  - by intros [= <-].
  - intros H Hne.
    assert (forall g, g ∈ fs -> f_init g = true -> f_name g <> name) as Hne'.
    { intros g Hg. apply Hne. by right. }
    destruct (f_init f) eqn:Hinit; simpl in H; [|by apply IH].
    assert (f_name f <> name) as Hf by (apply Hne; [by left|done]).
    destruct (args !! f_name f) as [v|].
    + rewrite (IH _ _ _ H Hne'). by rewrite lookup_insert_ne.
    + destruct (f_default f) as [d|]; [|done].
      rewrite (IH _ _ _ H Hne'). by rewrite lookup_insert_ne.
Qed.

Lemma collect_kwargs_lookup (fs : list field) (args : gmap string pyval) :
  forall kwargs kwargs' f,
    collect_kwargs fs args kwargs = Ok kwargs' ->
    NoDup (f_name <$> fs) -> f ∈ fs -> f_init f = true ->
    kwargs' !! f_name f = passed_value args f.
Proof.
  induction fs as [|g fs IH]; intros kwargs kwargs' f; simpl.
  - intros _ _ Hf. by apply elem_of_nil in Hf.
  - intros H Hnd Hf Hinit. apply NoDup_cons in Hnd as [Hg Hnd].
    apply elem_of_cons in Hf as [->|Hf].
    + rewrite Hinit in H. simpl in H. unfold passed_value. rewrite Hinit.
      assert (forall h, h ∈ fs -> f_init h = true -> f_name h <> f_name g) as Hne.
      { intros h Hh _ Heq. apply Hg. rewrite <- Heq.
        by apply list_elem_of_fmap_2. }
      destruct (args !! f_name g) as [v|].
      * rewrite (collect_kwargs_frame _ _ _ _ _ H Hne).
        by rewrite lookup_insert_eq.
      * destruct (f_default g) as [d|]; [|done].
        rewrite (collect_kwargs_frame _ _ _ _ _ H Hne).
        by rewrite lookup_insert_eq.
    + destruct (f_init g); simpl in H; [|by apply (IH kwargs)].
      destruct (args !! f_name g) as [v|].
      * by apply (IH (<[f_name g := v]> kwargs)).
      * destruct (f_default g) as [d|]; [|done].
        by apply (IH (<[f_name g := d]> kwargs)).
Qed.

Lemma collect_kwargs_ok (fs : list field) (args : gmap string pyval) :
  forall kwargs,
    (forall f, f ∈ fs -> is_Some (passed_value args f)) ->
    exists kwargs', collect_kwargs fs args kwargs = Ok kwargs'.
Proof.
  induction fs as [|f fs IH]; intros kwargs Hsome; simpl; [by eexists|].
  assert (forall g, g ∈ fs -> is_Some (passed_value args g)) as Hsome'.
  { intros g Hg. apply Hsome. by right. }
  pose proof (Hsome f ltac:(by left)) as [v Hv]. unfold passed_value in Hv.
  destruct (f_init f); simpl; [|by apply IH].
  destruct (args !! f_name f); [by apply IH|].
  rewrite Hv. by apply IH.
Qed.

(** What [__init__] assigns to a field. *)
Lemma init_fields_frame (fs : list field) (kwargs : gmap string pyval) :
  forall self self' name,
    init_fields fs kwargs self = Ok self' ->
    (forall f, f ∈ fs -> f_name f <> name) ->
    self' !! name = self !! name.
Proof.
  induction fs as [|f fs IH]; intros self self' name; simpl.
  - by intros [= <-].
  - intros H Hne.
    assert (forall g, g ∈ fs -> f_name g <> name) as Hne'.
    { intros g Hg. apply Hne. by right. }
    assert (f_name f <> name) as Hf by (apply Hne; by left).
    destruct (if f_init f then _ else _) as [v|].
    + rewrite (IH _ _ _ H Hne'). unfold setattr. by rewrite lookup_insert_ne.
    + destruct (f_default f) as [d|]; [|done].
      rewrite (IH _ _ _ H Hne'). unfold setattr. by rewrite lookup_insert_ne.
Qed.

Lemma init_fields_lookup (fs : list field) (kwargs : gmap string pyval) :
  forall self self' f,
    init_fields fs kwargs self = Ok self' ->
    NoDup (f_name <$> fs) -> f ∈ fs ->
    self' !! f_name f
    = match (if f_init f then kwargs !! f_name f else None) with
      | Some v => Some v
      | None => f_default f
      end.
Proof.
  induction fs as [|g fs IH]; intros self self' f; simpl.
  - intros _ _ Hf. by apply elem_of_nil in Hf.
  - intros H Hnd Hf. apply NoDup_cons in Hnd as [Hg Hnd].
    apply elem_of_cons in Hf as [->|Hf].
    + assert (forall h, h ∈ fs -> f_name h <> f_name g) as Hne.
      { intros h Hh Heq. apply Hg. rewrite <- Heq.
        by apply list_elem_of_fmap_2. }
      destruct (if f_init g then _ else _) as [v|].
      * rewrite (init_fields_frame _ _ _ _ _ H Hne). unfold setattr.
        by rewrite lookup_insert_eq.
      * destruct (f_default g) as [d|]; [|done].
        rewrite (init_fields_frame _ _ _ _ _ H Hne). unfold setattr.
        by rewrite lookup_insert_eq.
    + destruct (if f_init g then _ else _) as [v|].
      * by apply (IH (setattr self (f_name g) v)).
      * destruct (f_default g) as [d|]; [|done].
        by apply (IH (setattr self (f_name g) d)).
Qed.

Lemma init_fields_ok (fs : list field) (kwargs : gmap string pyval) :
  forall self,
    (forall f, f ∈ fs ->
       is_Some (match (if f_init f then kwargs !! f_name f else None) with
                | Some v => Some v
                | None => f_default f
                end)) ->
    exists self', init_fields fs kwargs self = Ok self'.
Proof.
  induction fs as [|f fs IH]; intros self Hsome; simpl; [by eexists|].
  assert (forall g, g ∈ fs ->
            is_Some (match (if f_init g then kwargs !! f_name g else None) with
                     | Some v => Some v
                     | None => f_default g
                     end)) as Hsome'.
  { intros g Hg. apply Hsome. by right. }
  pose proof (Hsome f ltac:(by left)) as [v Hv].
  destruct (if f_init f then _ else _); [by apply IH|].
  rewrite Hv. by apply IH.
Qed.

Lemma arg_or_default_is_Some (arg : option pyval) (d : pyval) :
  is_Some (match arg with Some v => Some v | None => Some d end).
Proof. destruct arg; by eexists. Qed.

Lemma dataclass_fields_defaults (args : gmap string pyval) (f : field) :
  is_Some (args !! "configfile") -> f ∈ specs -> is_Some (passed_value args f).
Proof.
  intros [path Hcfg] Hf. unfold dataclass_fields in Hf.
  repeat (apply elem_of_cons in Hf as [->|Hf];
          [unfold passed_value; cbn [f_init f_name f_default];
           rewrite ?Hcfg;
           first [by eexists|apply arg_or_default_is_Some]|]).
  by apply elem_of_nil in Hf.
Qed.

Lemma from_argparse_fields (args : gmap string pyval) :
  is_Some (args !! "configfile") ->
  exists conf,
    from_argparse db_dir_default debug_default workdir_default args = Ok conf
    ∧ (forall f, f ∈ specs -> conf !! f_name f = passed_value args f)
    ∧ (forall name, name ∉ fields -> conf !! name = None).
Proof.
  intros Hcfg.
  assert (NoDup (f_name <$> specs)) as Hnd.
  { rewrite dataclass_fields_names. by apply (bool_decide_unpack _). }
  destruct (collect_kwargs_ok specs args ∅) as [kwargs Hkw].
  { intros f. by apply dataclass_fields_defaults. }
  unfold from_argparse. rewrite Hkw. simpl. unfold new.
  rewrite bool_decide_eq_true_2.
  2:{ intros name Hname. apply elem_of_dom in Hname.
      destruct (decide (name ∈ f_name <$> List.filter f_init specs))
        as [Hin|Hnotin]; [by apply elem_of_list_to_set|].
      rewrite (collect_kwargs_frame _ _ _ _ name Hkw) in Hname.
      - rewrite lookup_empty in Hname. by destruct Hname.
      - intros f Hf Hinit <-. apply Hnotin. apply list_elem_of_fmap_2.
        apply list_elem_of_In, filter_In. split; [|done].
        by apply list_elem_of_In. }
  destruct (init_fields_ok specs kwargs ∅) as [conf Hconf].
  { intros f Hf. destruct (f_init f) eqn:Hinit.
    - rewrite (collect_kwargs_lookup _ _ _ _ _ Hkw Hnd Hf Hinit).
      pose proof (dataclass_fields_defaults args f Hcfg Hf) as [v Hv].
      rewrite Hv. by eexists.
    - pose proof (dataclass_fields_defaults args f Hcfg Hf) as Hv.
      unfold passed_value in Hv. by rewrite Hinit in Hv. }
  exists conf. split; [done|]. split.
  - intros f Hf. rewrite (init_fields_lookup _ _ _ _ _ Hconf Hnd Hf).
    destruct (f_init f) eqn:Hinit.
    + rewrite (collect_kwargs_lookup _ _ _ _ _ Hkw Hnd Hf Hinit).
      pose proof (dataclass_fields_defaults args f Hcfg Hf) as [v Hv].
      by rewrite Hv.
    + unfold passed_value. by rewrite Hinit.
  - intros name Hname. rewrite (init_fields_frame _ _ _ _ name Hconf).
    + apply lookup_empty.
    + intros f Hf <-. apply Hname. rewrite <- dataclass_fields_names.
      by apply list_elem_of_fmap_2.
Qed.

Lemma collect_kwargs_missing (f : field) (fs : list field)
    (args kwargs : gmap string pyval) :
  f_init f = true -> args !! f_name f = None -> f_default f = None ->
  collect_kwargs (f :: fs) args kwargs
  = Raise (Exn ValueError ("Missing value for " ++ f_name f)).
Proof. intros Hinit Harg Hdef. simpl. by rewrite Hinit, Harg, Hdef. Qed.

End FromArgparseFacts.

(** [from_argparse] on a namespace without [configfile], the one field that
    has no default, raises [ValueError("Missing value for configfile")]. *)
Theorem from_argparse_needs_configfile
    (db_dir_default debug_default workdir_default : pyval)
    (args : gmap string pyval) :
  args !! "configfile" = None ->
  RunConfig.from_argparse db_dir_default debug_default workdir_default args
  = Raise (Exn ValueError "Missing value for configfile").
Proof.
  intros H. unfold RunConfig.from_argparse, RunConfig.dataclass_fields.
  by rewrite collect_kwargs_missing.
Qed.

(** [from_argparse] on a namespace that has [configfile] returns an object
    with exactly the fifteen fields: every [init] field has the attribute
    of the namespace when there is one and its default otherwise, and the
    three internal fields have their defaults (the empty fingerprint, no
    engine, a count of 0) whatever the namespace holds under their names;
    attributes of the namespace that are no field are dropped. *)
Theorem from_argparse_sets_every_field
    (db_dir_default debug_default workdir_default : pyval)
    (args : gmap string pyval) (configfile : pyval) :
  args !! "configfile" = Some configfile ->
  exists conf,
    RunConfig.from_argparse db_dir_default debug_default workdir_default args
    = Ok conf
    ∧ (forall f,
         f ∈ RunConfig.dataclass_fields db_dir_default debug_default
               workdir_default ->
         conf !! RunConfig.f_name f = passed_value args f)
    ∧ (forall name, name ∉ RunConfig.fields -> conf !! name = None)
    ∧ conf !! "configfile" = Some configfile
    ∧ conf !! "_config_file_hash" = Some (PStr EmptyString)
    ∧ conf !! "_db" = Some PNone
    ∧ conf !! "_running_jobs" = Some (PInt 0).
Proof.
  intros Hcfg.
  destruct (from_argparse_fields db_dir_default debug_default workdir_default
              args) as (conf & Hconf & Hfields & Hother).
  { by rewrite Hcfg. }
  exists conf. split; [done|]. split; [done|]. split; [done|].
  assert (forall f,
            In f (RunConfig.dataclass_fields db_dir_default debug_default
                    workdir_default) ->
            conf !! RunConfig.f_name f = passed_value args f) as Hin.
  { intros f Hf. by apply Hfields, list_elem_of_In. }
  split; [|split; [|split]].
  - pose proof (Hin (RunConfig.mkField "configfile" true None)
                    ltac:(simpl; tauto)) as Hc.
    unfold passed_value in Hc.
    cbn [RunConfig.f_name RunConfig.f_init RunConfig.f_default] in Hc.
    by rewrite Hcfg in Hc.
  - apply (Hin (RunConfig.mkField "_config_file_hash" false
                  (Some (PStr EmptyString)))).
    simpl. tauto.
  - apply (Hin (RunConfig.mkField "_db" false (Some PNone))).
    simpl. tauto.
  - apply (Hin (RunConfig.mkField "_running_jobs" false (Some (PInt 0)))).
    simpl. tauto.
Qed.

(** ** Jobs and controls in the database *)

Lemma find_has_id (id : string) (rows : list JobRow) (row : JobRow) :
  find (has_id id) rows = Some row -> row_id row = id ∧ row ∈ rows.
Proof.
  intros H. apply find_some in H as [Hin Hid].
  split; [by apply String.eqb_eq|by apply list_elem_of_In].
Qed.

Lemma from_db_found (id : string) (w : World) (row : JobRow) :
  find (has_id id) (jobs w) = Some row ->
  Job.from_db PEngine id w = (Ret (job_of_row PEngine row), w).
Proof.
  intros H. unfold Job.from_db, get_job_by_id. msimpl.
  unfold has_id in H. by rewrite H.
Qed.

Lemma fetch_found (job : Job.t) (w : World) (row : JobRow) :
  Job.engine job = PEngine ->
  find (has_id (Job.id job)) (jobs w) = Some row ->
  Job.fetch (job, w)
  = (Ret (), (Job.mk (Job.engine job) (Job.id job) (Job.jobtype job)
                     (row_status row) (row_runner row) (row_data row)
                     (row_results row) (row_version row), w)).
Proof.
  intros He H. unfold Job.fetch, get_job_by_id. msimpl. rewrite He. msimpl.
  unfold has_id in H. rewrite H. by rewrite He.
Qed.

(** After a successful [commit] of a job whose row is at the job's version,
    [fetch] leaves the job object as [commit] left it, and [from_db] loads
    a job with the committed status, runner, data, results and version
    (and the job type of the row). *)
Theorem commit_then_fetch_round_trip (job : Job.t) (w : World) (row : JobRow) :
  in_sync job w row ->
  exists (job' : Job.t) (w' : World),
    Job.commit (job, w) = (Ret (), (job', w'))
    ∧ Job.fetch (job', w') = (Ret (), (job', w'))
    ∧ Job.from_db (Job.engine job) (Job.id job) w'
      = (Ret (Job.mk (Job.engine job) (Job.id job) (row_jobtype row)
                     (Job.status job) (Job.runner job) (Job.data job)
                     (Job.results job) (Job.version job + 1)), w').
Proof.
  intros (He & Hf & Hv).
  destruct (commit_optimistic_lock_aux job w row He Hf Hv)
    as (w' & Hc & Hf' & _).
  destruct (find_has_id _ _ _ Hf) as [Hid _].
  exists (Job.set_version (Job.version job + 1) job), w'.
  split; [done|]. split.
  - rewrite (fetch_found _ _ (committed_row job row)); [|done..].
    by destruct job.
  - rewrite He. rewrite (from_db_found _ _ _ Hf').
    unfold job_of_row, committed_row. simpl. by rewrite Hid.
Qed.

Lemma find_app_none {A} (p : A -> bool) (l : list A) (x : A) :
  find p l = None -> find p (l ++ [x]) = if p x then Some x else None.
Proof.
  induction l as [|y l IH]; simpl; [done|].
  destruct (p y); [done|]. apply IH.
Qed.

Lemma find_app_some {A} (p : A -> bool) (l l' : list A) (y : A) :
  find p l = Some y -> find p (l ++ l') = Some y.
Proof.
  induction l as [|z l IH]; simpl; [done|].
  destruct (p z); [done|]. apply IH.
Qed.

Lemma find_app_other {A} (p : A -> bool) (l : list A) (x : A) :
  p x = false -> find p (l ++ [x]) = find p l.
Proof.
  intros Hx. induction l as [|y l IH]; simpl; [by rewrite Hx|].
  by destruct (p y).
Qed.

Lemma commit_insert (job : Job.t) (w : World) :
  Job.engine job = PEngine ->
  find (has_id (Job.id job)) (jobs w) = None ->
  Job.commit (job, w)
  = (Ret (), (job, set_jobs (fun rows => (rows ++ [inserted_row job])%list) w)).
Proof.
  intros He Hf. unfold Job.commit, get_job_by_id, insert_job. msimpl.
  rewrite He. msimpl. unfold has_id in Hf. rewrite Hf. by msimpl.
Qed.

(** [commit] of a job that has no row inserts one: the call returns with
    the job object unchanged (its version is not incremented), the table
    has one more row, at the end, with the job's status, runner, data,
    results and version and with the job's id also as its job type, no
    other row is touched, and the job is in step with its new row, so that
    the next [commit] is an update. *)
Theorem commit_inserts_unknown_job (job : Job.t) (w : World) :
  Job.engine job = PEngine ->
  find (has_id (Job.id job)) (jobs w) = None ->
  exists w',
    Job.commit (job, w) = (Ret (), (job, w'))
    ∧ jobs w' = (jobs w ++ [inserted_row job])%list
    ∧ (forall id', id' <> Job.id job ->
         find (has_id id') (jobs w') = find (has_id id') (jobs w))
    ∧ controls w' = controls w ∧ conf w' = conf w
    ∧ in_sync job w' (inserted_row job).
Proof.
  intros He Hf. eexists. split; [by apply commit_insert|].
  split; [done|]. split; [|split; [done|split; [done|]]].
  - intros id' Hne. simpl. apply find_app_other. unfold has_id. simpl.
    by apply String.eqb_neq.
  - split; [done|]. split; [|done]. simpl.
    rewrite (find_app_none _ _ _ Hf). unfold has_id. simpl.
    by rewrite String.eqb_refl.
Qed.

Lemma unique_row (rows : list JobRow) (r r' : JobRow) :
  NoDup (map row_id rows) -> r ∈ rows -> r' ∈ rows ->
  row_id r = row_id r' -> r = r'.
Proof.
  intros Hnd Hr Hr' Hid.
  pose proof (find_unique_id rows r Hnd Hr) as H.
  pose proof (find_unique_id rows r' Hnd Hr') as H'.
  rewrite Hid in H. congruence.
Qed.

Lemma get_next_inv (locked : string -> bool) (queue : JobQueue.t) (w w' : World)
    (runner : string) (job : Job.t) :
  JobQueue.engine queue = PEngine ->
  JobQueue.name queue = PStr runner ->
  NoDup (map row_id (jobs w)) ->
  JobQueue.get_next locked queue w = (Ret (Some job), w') ->
  exists row,
    find (claimable locked) (jobs w) = Some row
    ∧ job = job_of_row PEngine (claimed_row runner row)
    ∧ jobs w' = map (fun r => if has_id (row_id row) r
                                 && (row_version r =? row_version row)
                              then claimed_row runner r else r) (jobs w).
Proof.
  intros He Hn Hnd H.
  destruct (find (claimable locked) (jobs w)) as [row|] eqn:Hfind.
  - exists row. split; [done|].
    pose proof Hfind as Hin. apply find_some in Hin as [Hin _].
    apply list_elem_of_In in Hin.
    rewrite (get_next_some _ _ _ runner row He Hn Hfind
               (find_unique_id _ _ Hnd Hin)) in H.
    by revert H; intros [= <- <-].
  - by rewrite (get_next_none _ _ _ He Hfind) in H.
Qed.

(** Two calls of [get_next] in a row never return the same job: the second
    job has another id than the first, its row was pending before the
    first call, and the ids of the table stay unique.  (The rows locked by
    others may differ between the calls.) *)
Theorem get_next_never_claims_twice
    (locked locked' : string -> bool) (queue : JobQueue.t)
    (w w1 w2 : World) (runner : string) (job1 job2 : Job.t) :
  JobQueue.engine queue = PEngine ->
  JobQueue.name queue = PStr runner ->
  NoDup (map row_id (jobs w)) ->
  JobQueue.get_next locked queue w = (Ret (Some job1), w1) ->
  JobQueue.get_next locked' queue w1 = (Ret (Some job2), w2) ->
  Job.id job1 <> Job.id job2
  ∧ (exists row2, row2 ∈ jobs w ∧ row_id row2 = Job.id job2
                  ∧ row_status row2 = "pending")
  ∧ NoDup (map row_id (jobs w2)).
Proof.
  intros He Hn Hnd H1 H2.
  destruct (get_next_inv _ _ _ _ _ _ He Hn Hnd H1) as (row & Hf1 & -> & Hj1).
  assert (map row_id (jobs w1) = map row_id (jobs w)) as Hids1.
  { rewrite Hj1, map_map. apply map_ext. intros r. by destruct (_ && _). }
  assert (NoDup (map row_id (jobs w1))) as Hnd1 by (by rewrite Hids1).
  destruct (get_next_inv _ _ _ _ _ _ He Hn Hnd1 H2) as (row2 & Hf2 & -> & Hj2).
  assert (map row_id (jobs w2) = map row_id (jobs w1)) as Hids2.
  { rewrite Hj2, map_map. apply map_ext. intros r. by destruct (_ && _). }
  apply find_some in Hf1 as [Hin1 Hc1], Hf2 as [Hin2 Hc2].
  apply list_elem_of_In in Hin1.
  unfold claimable in Hc2. apply andb_prop in Hc2 as [Hpending _].
  apply String.eqb_eq in Hpending.
  rewrite Hj1 in Hin2. apply in_map_iff in Hin2 as (r & Hr & Hrin).
  apply list_elem_of_In in Hrin.
  destruct (has_id (row_id row) r && (row_version r =? row_version row))
    eqn:Hgate.
  - subst row2. done.
  - subst row2. split; [|split].
    + simpl. intros Hid.
      assert (r = row) as -> by (by apply (unique_row (jobs w))).
      unfold has_id in Hgate.
      by rewrite String.eqb_refl, Z.eqb_refl in Hgate.
    + by exists r.
    + by rewrite Hids2.
Qed.

Lemma find_has_name_update (rows : list ControlRow) (name : string)
    (new : ControlRow) :
  crow_name new = name ->
  is_Some (find (has_name name) rows) ->
  find (has_name name) (map (fun r => if has_name name r then new else r) rows)
  = Some new.
Proof.
  intros Hnew [row H]. induction rows as [|r rows IH]; [done|]. simpl in *.
  destruct (has_name name r) eqn:Hr.
  - unfold has_name. by rewrite Hnew, String.eqb_refl.
  - rewrite Hr. by apply IH.
Qed.

Lemma find_has_name_other (rows : list ControlRow) (name name' : string)
    (new : ControlRow) :
  crow_name new = name -> name' <> name ->
  find (has_name name') (map (fun r => if has_name name r then new else r) rows)
  = find (has_name name') rows.
Proof.
  intros Hnew Hne. induction rows as [|r rows IH]; [done|]. simpl.
  destruct (has_name name r) eqn:Hr.
  - assert (has_name name' new = false) as ->.
    { unfold has_name. rewrite Hnew. apply String.eqb_neq. congruence. }
    assert (has_name name' r = false) as ->; [|done].
    apply String.eqb_eq in Hr. unfold has_name. rewrite Hr.
    apply String.eqb_neq. congruence.
  - by destruct (has_name name' r).
Qed.

Lemma find_has_name_filter (rows : list ControlRow) (name name' : string) :
  find (has_name name') (List.filter (fun r => negb (has_name name r)) rows)
  = if String.eqb name' name then None else find (has_name name') rows.
Proof.
  induction rows as [|r rows IH]; simpl; [by destruct (String.eqb _ _)|].
  destruct (has_name name r) eqn:Hr; simpl.
  - rewrite IH. destruct (String.eqb name' name) eqn:Hn; [done|].
    assert (has_name name' r = false) as ->; [|done].
    apply String.eqb_eq in Hr. unfold has_name. rewrite Hr.
    rewrite String.eqb_sym. done.
  - destruct (has_name name' r) eqn:Hr'; [|done].
    destruct (String.eqb name' name) eqn:Hn; [|done].
    apply String.eqb_eq in Hn as ->. congruence.
Qed.

Lemma control_commit_upsert (c : Control.t) (w : World) (name : string) :
  Control.engine c = PEngine -> Control.name c = PStr name ->
  exists w',
    Control.commit (c, w) = (Ret (), (c, w'))
    ∧ find (has_name name) (controls w') = Some (control_row_of name c)
    ∧ (forall name', name' <> name ->
         find (has_name name') (controls w') = find (has_name name') (controls w))
    ∧ jobs w' = jobs w ∧ conf w' = conf w ∧ actions w' = actions w.
Proof.
  intros He Hn. unfold Control.commit, get_control. msimpl.
  rewrite He, Hn. msimpl.
  fold (has_name name).
  destruct (find (has_name name) (controls w)) as [row|] eqn:Hf; msimpl.
  - eexists. split; [done|]. simpl.
    split; [|split; [|done]].
    + apply (find_has_name_update _ _ (control_row_of name c)); [done|].
      by rewrite Hf.
    + intros name' Hne.
      by apply (find_has_name_other _ _ _ (control_row_of name c)).
  - simpl. eexists. split; [done|]. simpl.
    split; [|split; [|done]].
    + rewrite (find_app_none _ _ _ Hf). unfold has_name. simpl.
      by rewrite String.eqb_refl.
    + intros name' Hne. apply find_app_other. unfold has_name. simpl.
      apply String.eqb_neq. congruence.
Qed.

(** [Control.commit] is an upsert: whether or not the table has a row of
    that name, the call returns and the row of that name then holds the
    object's status, stop flag and version; the rows of other names, the
    jobs and the configuration are as before, and [fetch] and [from_db]
    give back the committed object. *)
Theorem control_commit_is_upsert (c : Control.t) (w : World) (name : string) :
  Control.engine c = PEngine -> Control.name c = PStr name ->
  exists w',
    Control.commit (c, w) = (Ret (), (c, w'))
    ∧ find (has_name name) (controls w') = Some (control_row_of name c)
    ∧ (forall name', name' <> name ->
         find (has_name name') (controls w') = find (has_name name') (controls w))
    ∧ jobs w' = jobs w ∧ conf w' = conf w
    ∧ Control.fetch (c, w') = (Ret (), (c, w'))
    ∧ Control.from_db PEngine (PStr name) w' = (Ret c, w').
Proof.
  intros He Hn.
  destruct (control_commit_upsert c w name He Hn)
    as (w' & Hc & Hf & Hother & Hj & Hconf & _).
  exists w'. split; [done|]. split; [done|]. split; [done|].
  split; [done|]. split; [done|]. split.
  - unfold Control.fetch, get_control. msimpl. rewrite He, Hn. msimpl.
    fold (has_name name). rewrite Hf. destruct c; simpl in *. by subst.
  - unfold Control.from_db, get_control. msimpl.
    fold (has_name name). rewrite Hf. destruct c; simpl in *. by subst.
Qed.

Lemma control_delete_found (c : Control.t) (w : World) (name : string) :
  Control.engine c = PEngine -> Control.name c = PStr name ->
  is_Some (find (has_name name) (controls w)) ->
  Control.delete (c, w)
  = (Ret (), (c, set_controls
                   (List.filter (fun r => negb (has_name name r))) w)).
Proof.
  intros He Hn [row Hf]. unfold Control.delete, get_control. msimpl.
  rewrite He, Hn. msimpl. fold (has_name name). rewrite Hf. by msimpl.
Qed.

(** [Control.delete] of a control without a row raises
    [InvalidControlName] and changes nothing; with a row it removes the row
    of that name and no other, after which [fetch] raises
    [InvalidControlName]. *)
Theorem control_delete_removes_the_row (c : Control.t) (w : World)
    (name : string) :
  Control.engine c = PEngine -> Control.name c = PStr name ->
  (find (has_name name) (controls w) = None ->
   Control.delete (c, w)
   = (Exc (Exn InvalidControlName ("No control named " ++ name ++ " found")),
      (c, w)))
  ∧ (is_Some (find (has_name name) (controls w)) ->
     exists w',
       Control.delete (c, w) = (Ret (), (c, w'))
       ∧ find (has_name name) (controls w') = None
       ∧ (forall name', name' <> name ->
            find (has_name name') (controls w')
            = find (has_name name') (controls w))
       ∧ jobs w' = jobs w ∧ conf w' = conf w
       ∧ Control.fetch (c, w')
         = (Exc (Exn InvalidControlName
                     ("No control named " ++ name ++ " found")), (c, w'))).
Proof.
  intros He Hn. split.
  - intros Hf. unfold Control.delete, get_control. msimpl.
    rewrite He, Hn. msimpl. fold (has_name name). by rewrite Hf.
  - intros Hsome. eexists. split; [by apply control_delete_found|].
    assert (find (has_name name)
              (List.filter (fun r => negb (has_name name r)) (controls w))
            = None) as Hgone.
    { by rewrite find_has_name_filter, String.eqb_refl. }
    split; [done|]. split; [|split; [done|split; [done|]]].
    + intros name' Hne. simpl. rewrite find_has_name_filter.
      apply String.eqb_neq in Hne. by rewrite Hne.
    + unfold Control.fetch, get_control. msimpl. rewrite He, Hn. msimpl.
      fold (has_name name). simpl. by rewrite Hgone.
Qed.

(** ** What handling a job changes *)

Lemma commit_cases (self self' : Job.t) (w w' : World) (o : outcome unit) :
  Job.commit (self, w) = (o, (self', w')) ->
  (o <> Ret () ∧ self' = self ∧ w' = w)
  ∨ (exists row,
       find (has_id (Job.id self)) (jobs w) = Some row
       ∧ row_version row = Job.version self
       ∧ o = Ret ()
       ∧ self' = Job.set_version (Job.version self + 1) self
       ∧ w' = set_jobs (map (fun r => if has_id (Job.id self) r
                                         && (row_version r =? Job.version self)
                                      then committed_row self r else r)) w)
  ∨ (find (has_id (Job.id self)) (jobs w) = None
     ∧ o = Ret () ∧ self' = self
     ∧ w' = set_jobs (fun rows => (rows ++ [inserted_row self])%list) w).
Proof.
  intros H.
  assert (Job.engine self = PEngine
          ∨ Job.commit (self, w)
            = (Exc (Exn AttributeError "acquire"), (self, w))) as [He|Hbad].
  { unfold Job.commit. msimpl. destruct (Job.engine self); mred; auto. }
  - destruct (find (has_id (Job.id self)) (jobs w)) as [row|] eqn:Hf.
    + destruct (decide (row_version row = Job.version self)) as [Hv|Hv].
      * rewrite (commit_match _ _ _ He Hf Hv) in H. revert H.
        intros [= <- <- <-]. right; left. by exists row.
      * rewrite (commit_conflict _ _ _ He Hf Hv) in H. revert H.
        intros [= <- <- <-]. by left.
    + rewrite (commit_insert _ _ He Hf) in H. revert H.
      intros [= <- <- <-]. by right; right.
  - rewrite Hbad in H. revert H. intros [= <- <- <-]. by left.
Qed.

Lemma commit_keeps_frame (self self' : Job.t) (w w' : World) (o : outcome unit) :
  Job.commit (self, w) = (o, (self', w')) ->
  keeps self w self' w'
  ∧ actions w' = actions w
  ∧ Job.status self' = Job.status self ∧ Job.results self' = Job.results self
  ∧ (Job.version self' = Job.version self
     ∨ o = Ret () ∧ Job.version self' = Job.version self + 1).
Proof.
  intros H. apply commit_cases in H
    as [(Ho & -> & ->)|[(row & Hf & Hv & -> & -> & ->)|(Hf & -> & -> & ->)]].
  - repeat split; try done. by left.
  - repeat split; try done; [|by right].
    intros id' Hne. simpl.
    apply (find_map_other _ (Job.id self)); [done| |done].
    intros r Hr. apply andb_prop in Hr as [Hr _]. by apply String.eqb_eq.
  - repeat split; try done; [|by left].
    intros id' Hne. simpl. apply find_app_other. unfold has_id. simpl.
    by apply String.eqb_neq.
Qed.

Lemma await_event_frame (name : string) (child : Core.ChildRun) (w w' : World)
    (o : outcome Core.event_result) :
  Core.await_event name child w = (o, w') ->
  same_tables w w' ∧ actions w' = (kills (Ok child) name ++ actions w)%list.
Proof.
  unfold Core.await_event. destruct child as [|rc out err|late cancel_first|].
  - by intros [= <- <-].
  - by intros [= <- <-].
  - unfold Core.cancel. msimpl.
    destruct (containers _) as [c|]; mred.
    + destruct (decide _); mred;
        destruct late as [[[rc out] err]|]; by intros [= <- <-].
    + destruct late as [[[rc out] err]|]; by intros [= <- <-].
  - unfold Core.cancel. msimpl.
    destruct (containers _) as [c|]; mred.
    + destruct (decide _); mred; by intros [= <- <-].
    + by intros [= <- <-].
Qed.

Lemma keeps_modified (job jm : Job.t) (w wm : World) :
  same_tables w wm ->
  Job.engine jm = Job.engine job -> Job.id jm = Job.id job ->
  Job.jobtype jm = Job.jobtype job -> Job.runner jm = Job.runner job ->
  Job.data jm = Job.data job ->
  keeps job w jm wm.
Proof.
  intros (Hj & Hc & Hconf & Hm) ? ? ? ? ?. repeat split; try done.
  intros id' _. by rewrite Hj.
Qed.

Lemma keeps_trans (j1 j2 j3 : Job.t) (w1 w2 w3 : World) :
  keeps j1 w1 j2 w2 -> keeps j2 w2 j3 w3 -> keeps j1 w1 j3 w3.
Proof.
  intros (He & Hi & Ht & Hr & Hd & Hf & Hc & Hconf & Hm)
         (He' & Hi' & Ht' & Hr' & Hd' & Hf' & Hc' & Hconf' & Hm').
  repeat split; try congruence.
  intros id' Hne. rewrite Hf' by congruence. by apply Hf.
Qed.

Section TraceFacts.

Import Core.

Variable py_format : pyval -> string.
Variable run_child : list string -> string -> ChildRun.

(** The lines the handlers share end either without a commit, or in the
    one commit of the job as failed with the stderr of its container. *)
Lemma run_job_trace tool job w o j1 w1 :
  run_job py_format run_child tool (job, w) = (o, (j1, w1)) ->
  exists wm,
    same_tables w wm
    ∧ actions wm
      = (kills (container_run py_format run_child tool job w) (Job.id job)
         ++ actions w)%list
    ∧ ((j1 = job ∧ w1 = wm ∧ o <> Ret None)
       ∨ exists stderr oc,
           Job.commit (failed_with_stderr stderr job, wm) = (oc, (j1, w1))
           ∧ o = outcome_then None oc).
Proof.
  unfold run_job, container_run. msimpl. intros H.
  destruct (RunConfig.getattr _ _) as [db_dir|]; mred in H;
    [|revert H; intros [= <- <- <-]; exists w; by repeat split; try left].
  destruct (fasta _ _) as [payload|]; mred in H;
    [|revert H; intros [= <- <- <-]; exists w; by repeat split; try left].
  simpl. destruct (await_event _ _ w) as [o1 wm] eqn:Hev.
  pose proof (await_event_frame _ _ _ _ _ Hev) as [Hsame Hact].
  apply await_event_shape in Hev as [_ Hev].
  exists wm. split; [done|]. split; [done|].
  destruct o1 as [ev| |]; mred in H;
    try (by revert H; intros [= <- <- <-]; left).
  destruct (Hev ev eq_refl) as [->|(rc & out & err & ->)].
  - unfold unpack3 in H. simpl in H.
    by revert H; intros [= <- <- <-]; left.
  - unfold unpack3, run_process in H.
    destruct (negb (rc =? 0)); simpl in H.
    + unfold set_job in H. msimpl. right. exists err.
      fold (failed_with_stderr err job) in H.
      destruct (Job.commit _) as [[[]| |] [j2 w2]] eqn:Hc; mred in H;
        revert H; intros [= <- <- <-]; by eexists.
    + by revert H; intros [= <- <- <-]; left.
Qed.

Lemma handle_comparippson_trace job w o j1 w1 :
  handle_comparippson py_format run_child (job, w) = (o, (j1, w1)) ->
  exists wm,
    same_tables w wm
    ∧ actions wm
      = (kills (container_run py_format run_child comparippson_tool job w)
               (Job.id job) ++ actions w)%list
    ∧ ((o <> Ret () ∧ w1 = wm ∧ (j1 = job ∨ j1 = Job.set_status "done" job))
       ∨ exists jm, committable job jm
                    ∧ Job.commit (jm, wm) = (o, (j1, w1))).
Proof.
  unfold handle_comparippson. unfold mbind at 1, M_bind, bind. intros H.
  destruct (run_job _ _ _ _) as [o1 [j2 w2]] eqn:Hr.
  apply run_job_trace in Hr
    as (wm & Hsame & Hact & [(-> & -> & Ho)|(stderr & oc & Hc & ->)]);
    exists wm; (split; [done|]); (split; [done|]).
  - destruct o1 as [[stdout|]| |]; try done;
      try (by revert H; intros [= <- <- <-]; left; split; [|split; [|left]]).
    revert H. unfold set_job. msimpl.
    destruct Hsame as (_ & _ & _ & ->).
    destruct (comparippson_hits _ _) as [hits|]; mred.
    + intros H. right. exists (done_job hits job).
      split; [right; by exists hits|]. exact H.
    + intros [= <- <- <-]. left. split; [done|]. split; [done|by right].
  - right. exists (failed_with_stderr stderr job).
    split; [left; by exists stderr|].
    destruct oc as [[]| |]; by revert H; intros [= <- <- <-].
Qed.

Lemma handle_clusterblast_trace job w o j1 w1 :
  handle_clusterblast py_format run_child (job, w) = (o, (j1, w1)) ->
  exists wm,
    same_tables w wm
    ∧ actions wm
      = (kills (container_run py_format run_child clusterblast_tool job w)
               (Job.id job) ++ actions w)%list
    ∧ ((o <> Ret () ∧ w1 = wm ∧ (j1 = job ∨ j1 = Job.set_status "done" job))
       ∨ exists jm, committable job jm
                    ∧ Job.commit (jm, wm) = (o, (j1, w1))).
Proof.
  unfold handle_clusterblast. unfold mbind at 1, M_bind, bind. intros H.
  destruct (run_job _ _ _ _) as [o1 [j2 w2]] eqn:Hr.
  apply run_job_trace in Hr
    as (wm & Hsame & Hact & [(-> & -> & Ho)|(stderr & oc & Hc & ->)]);
    exists wm; (split; [done|]); (split; [done|]).
  - destruct o1 as [[stdout|]| |]; try done;
      try (by revert H; intros [= <- <- <-]; left; split; [|split; [|left]]).
    revert H. unfold set_job. msimpl.
    destruct (clusterblast_hits _) as [hits|]; mred.
    + intros H. right. exists (done_job hits job).
      split; [right; by exists hits|]. exact H.
    + intros [= <- <- <-]. left. split; [done|]. split; [done|by right].
  - right. exists (failed_with_stderr stderr job).
    split; [left; by exists stderr|].
    destruct oc as [[]| |]; by revert H; intros [= <- <- <-].
Qed.

Lemma same_tables_refl (w : World) : same_tables w w.
Proof. done. Qed.

Lemma handle_job_trace job w o j1 w1 :
  handle_job py_format run_child (job, w) = (o, (j1, w1)) ->
  exists wm,
    same_tables w wm
    ∧ actions wm = (job_kills py_format run_child job w ++ actions w)%list
    ∧ ((o <> Ret () ∧ w1 = wm ∧ (j1 = job ∨ j1 = Job.set_status "done" job))
       ∨ exists jm, committable job jm
                    ∧ Job.commit (jm, wm) = (o, (j1, w1))).
Proof.
  unfold handle_job, job_kills. msimpl.
  destruct (String.eqb _ "comparippson"); [apply handle_comparippson_trace|].
  destruct (String.eqb _ "clusterblast"); [apply handle_clusterblast_trace|].
  intros [= <- <- <-]. exists w. split; [done|]. split; [done|].
  left. split; [done|]. split; [done|by left].
Qed.

Lemma committable_keeps job jm w wm :
  same_tables w wm -> committable job jm ->
  keeps job w jm wm ∧ Job.version jm = Job.version job.
Proof.
  intros Hsame [[stderr ->]|[hits ->]];
    (split; [by apply keeps_modified|done]).
Qed.

Lemma handle_job_frame job w o j1 w1 :
  handle_job py_format run_child (job, w) = (o, (j1, w1)) ->
  keeps job w j1 w1
  ∧ actions w1 = (job_kills py_format run_child job w ++ actions w)%list
  ∧ (Job.version j1 = Job.version job
     ∨ o = Ret () ∧ Job.version j1 = Job.version job + 1).
Proof.
  intros H. apply handle_job_trace in H
    as (wm & Hsame & Hact & [(Ho & -> & Hj)|(jm & Hjm & Hc)]).
  - split; [|split; [done|left]].
    + destruct Hj as [->| ->]; by apply keeps_modified.
    + by destruct Hj as [->| ->].
  - destruct (committable_keeps _ _ _ _ Hsame Hjm) as [Hk Hv].
    apply commit_keeps_frame in Hc as (Hk' & Hact' & _ & _ & Hv').
    split; [by apply (keeps_trans _ jm _ _ wm)|].
    split; [congruence|]. rewrite <- Hv. exact Hv'.
Qed.

Lemma dispatch_job_frame job w o j1 w1 :
  dispatch_job py_format run_child (job, w) = (o, (j1, w1)) ->
  keeps job w j1 w1
  ∧ actions w1 = (job_kills py_format run_child job w ++ actions w)%list
  ∧ Job.version job <= Job.version j1 <= Job.version job + 1.
Proof.
  unfold dispatch_job, try_except.
  destruct (handle_job _ _ _) as [o1 [j2 w2]] eqn:Hh.
  apply handle_job_frame in Hh as (Hk & Hact & Hv).
  assert (forall e, o1 = Exc e -> Job.version j2 = Job.version job) as Hexc.
  { intros e ->. by destruct Hv as [Hv|[Hv _]]. }
  destruct o1 as [[]|e|];
    try (intros [= <- <- <-]; split; [done|split; [done|]];
         destruct Hv as [Hv|[_ Hv]]; lia).
  destruct (caught_by _ e).
  - unfold set_job. msimpl. intros Hc.
    apply commit_keeps_frame in Hc as (Hk' & Hact' & _ & _ & Hv').
    split; [|split].
    + apply (keeps_trans _ j2 _ _ w2); [done|].
      destruct Hk' as (? & ? & ? & ? & ? & ? & ? & ? & ?).
      by repeat split.
    + congruence.
    + specialize (Hexc e eq_refl). simpl in Hv'.
      destruct Hv' as [Hv'|[_ Hv']]; lia.
  - intros [= <- <- <-]. split; [done|split; [done|]].
    specialize (Hexc e eq_refl). lia.
Qed.

Lemma in_sync_modified job jm w wm row :
  in_sync job w row -> jobs wm = jobs w ->
  Job.engine jm = Job.engine job -> Job.id jm = Job.id job ->
  Job.version jm = Job.version job ->
  in_sync jm wm row.
Proof.
  intros (He & Hf & Hv) Hj He' Hi Hv'. unfold in_sync.
  rewrite He', Hi, Hv', Hj. done.
Qed.

Lemma commit_terminal jm wm row o j1 w1 :
  in_sync jm wm row ->
  Job.status jm = "done" ∨ Job.status jm = "failed" ->
  Job.commit (jm, wm) = (o, (j1, w1)) ->
  o = Ret () ∧ terminal j1 w1 row.
Proof.
  intros Hsync Hst Hc. pose proof Hsync as (He & Hf & Hv).
  destruct (commit_optimistic_lock_aux jm wm row He Hf Hv)
    as (w' & Hc' & Hf' & _).
  rewrite Hc' in Hc. revert Hc. intros [= <- <- <-]. split; [done|].
  exists (committed_row jm row). simpl. repeat split; try done. lia.
Qed.

Lemma dispatch_job_terminal job w row j1 w1 :
  in_sync job w row ->
  dispatch_job py_format run_child (job, w) = (Ret (), (j1, w1)) ->
  terminal j1 w1 row.
Proof.
  intros Hsync. unfold dispatch_job, try_except.
  destruct (handle_job _ _ _) as [o1 [j2 w2]] eqn:Hh.
  apply handle_job_trace in Hh
    as (wm & (Hj & _) & _ & [(Ho & -> & Hj2)|(jm & Hjm & Hc)]).
  - destruct o1 as [[]|e|]; try done.
    destruct (caught_by _ e); [|done].
    unfold set_job. msimpl. intros Hc.
    apply (commit_terminal _ _ row) in Hc as [_ Ht]; [done| |by right].
    destruct Hj2 as [->| ->]; by apply (in_sync_modified job _ w).
  - assert (in_sync jm wm row ∧ (Job.status jm = "done" ∨ Job.status jm = "failed"))
      as [Hsync' Hst].
    { destruct Hjm as [[stderr ->]|[hits ->]];
        (split; [by apply (in_sync_modified job _ w)|]); [by right|by left]. }
    apply (commit_terminal _ _ row) in Hc as [-> Ht]; [|done..].
    by intros [= <- <-].
Qed.

Lemma handle_job_failure tool job w row rc stdout stderr :
  Job.jobtype job = "comparippson" ∧ tool = comparippson_tool
  ∨ Job.jobtype job = "clusterblast" ∧ tool = clusterblast_tool ->
  in_sync job w row ->
  container_run py_format run_child tool job w = Ok (Exits rc stdout stderr) ->
  rc <> 0 ->
  exists w',
    handle_job py_format run_child (job, w)
    = (Ret (), (Job.set_version (Job.version job + 1)
                  (failed_with_stderr stderr job), w'))
    ∧ find (has_id (Job.id job)) (jobs w')
      = Some (committed_row (failed_with_stderr stderr job) row)
    ∧ actions w' = actions w.
Proof.
  intros Htool Hsync Hrun Hrc.
  destruct (commit_optimistic_lock_aux (failed_with_stderr stderr job) w row)
    as (w' & Hc & Hf & _ & Hact); [by destruct Hsync as (? & ? & ?)..|].
  exists w'. split; [|done].
  assert (run_job py_format run_child tool (job, w)
          = (Ret None, (Job.set_version (Job.version job + 1)
                          (failed_with_stderr stderr job), w'))) as Hr.
  { revert Hrun. unfold run_job, container_run. msimpl.
    destruct (RunConfig.getattr _ _) as [db_dir|]; [|done]. simpl.
    destruct (fasta _ _) as [payload|]; [|done]. simpl. intros [= ->]. simpl.
    unfold unpack3, run_process. apply Z.eqb_neq in Hrc. rewrite Hrc. simpl.
    unfold set_job. msimpl. fold (failed_with_stderr stderr job).
    by rewrite Hc. }
  destruct Htool as [[Ht ->]|[Ht ->]].
  - rewrite handle_job_comparippson by done.
    unfold handle_comparippson. unfold mbind at 1, M_bind, bind.
    by rewrite Hr.
  - rewrite handle_job_clusterblast by done.
    unfold handle_clusterblast. unfold mbind at 1, M_bind, bind.
    by rewrite Hr.
Qed.

End TraceFacts.

(** [podman kill] while a job is handled, with the [except] clause of
    the dispatcher: it is run at most once, on the container named after
    the job, and exactly when the timer fires before [run_process] has
    completed the event, that is, when the container is still running
    after the hour or when its output is not UTF-8 (the [run_process] task
    then ends on the decoding error and the timer is never cancelled).
    For a container that cannot be started, or that exits in time with
    output that decodes, no kill is run; and handling a job starts no
    dispatcher task. *)
Theorem dispatch_job_kills_only_on_overrun
    (py_format : pyval -> string)
    (run_child : list string -> string -> Core.ChildRun)
    (job job' : Job.t) (w w' : World) (o : outcome unit) :
  Core.dispatch_job py_format run_child (job, w) = (o, (job', w')) ->
  actions w' = (job_kills py_format run_child job w ++ actions w)%list
  ∧ forall tool child,
      Job.jobtype job = "comparippson" ∧ tool = Core.comparippson_tool
      ∨ Job.jobtype job = "clusterblast" ∧ tool = Core.clusterblast_tool ->
      container_run py_format run_child tool job w = Ok child ->
      actions w'
      = match child with
        | Core.Overruns _ _ | Core.Undecodable =>
            PodmanKill (Job.id job) :: actions w
        | Core.SpawnFails | Core.Exits _ _ _ => actions w
        end.
Proof.
  intros H. apply dispatch_job_frame in H as (_ & Hact & _).
  split; [done|]. intros tool child Htool Hrun. rewrite Hact.
  unfold job_kills.
  destruct Htool as [[Ht ->]|[Ht ->]]; rewrite Ht; simpl; rewrite Hrun;
    by destruct child.
Qed.

Lemma dispatch_job_undecodable
    (py_format : pyval -> string)
    (run_child : list string -> string -> Core.ChildRun)
    (tool : list string) (job : Job.t) (w : World) :
  Job.jobtype job = "comparippson" ∧ tool = Core.comparippson_tool
  ∨ Job.jobtype job = "clusterblast" ∧ tool = Core.clusterblast_tool ->
  container_run py_format run_child tool job w = Ok Core.Undecodable ->
  exists (o : outcome unit) (w' : World),
    Core.dispatch_job py_format run_child (job, w) = (o, (job, w'))
    ∧ (o = Blocked
       ∨ o = Exc (Exn ValueError "too many values to unpack (expected 3)"))
    ∧ jobs w' = jobs w
    ∧ actions w' = PodmanKill (Job.id job) :: actions w.
Proof.
  intros Htool Hrun.
  assert (exists (o : outcome (option (list string))) (w' : World),
            Core.run_job py_format run_child tool (job, w) = (o, (job, w'))
            ∧ (o = Blocked
               ∨ o = Exc (Exn ValueError
                              "too many values to unpack (expected 3)"))
            ∧ jobs w' = jobs w
            ∧ actions w' = PodmanKill (Job.id job) :: actions w)
    as (o1 & w1 & Hr & Ho & Hj & Ha).
  { revert Hrun. unfold Core.run_job, container_run. msimpl.
    destruct (RunConfig.getattr _ _) as [db_dir|]; [|done]. simpl.
    destruct (Core.fasta _ _) as [payload|]; [|done]. simpl. intros [= ->].
    unfold Core.await_event, Core.cancel. msimpl. simpl.
    destruct (containers w) as [c|]; mred.
    - destruct (decide _); mred.
      + eexists _, _. split; [reflexivity|]. split; [by right|done].
      + eexists _, _. split; [reflexivity|]. split; [by left|done].
    - eexists _, _. split; [reflexivity|]. split; [by left|done]. }
  assert (Core.handle_job py_format run_child (job, w)
          = (match o1 with
             | Exc e => Exc e
             | _ => Blocked
             end, (job, w1))) as Hh.
  { destruct Htool as [[Ht ->]|[Ht ->]].
    - rewrite handle_job_comparippson by done.
      unfold Core.handle_comparippson. unfold mbind at 1, M_bind, bind.
      rewrite Hr. by destruct Ho as [-> | ->].
    - rewrite handle_job_clusterblast by done.
      unfold Core.handle_clusterblast. unfold mbind at 1, M_bind, bind.
      rewrite Hr. by destruct Ho as [-> | ->]. }
  unfold Core.dispatch_job, try_except. rewrite Hh.
  destruct Ho as [-> | ->]; eexists _, w1;
    (split; [reflexivity|]); (split; [|done]); [by left|by right].
Qed.

(** A container that exits in time with a code other than 0, for a job
    whose row is at the job's version.  When its output decodes as UTF-8,
    the job is failed with its stderr: it is committed with status
    "failed" and results [{"status": "failed", "error": <the lines of
    stderr>}] at the next version, whatever the lines of stdout are, and
    nothing is killed.  When its output does not decode, whatever the
    return code, [run_process] ends before it looks at the return code and
    never completes the event: nothing is committed, the job object and
    the table are as before, the container's name is killed when the timer
    fires, and handling the job does not return (it waits for ever, or
    fails on the tuple [cancel] completes the event with). *)
Theorem failed_container_commits_stderr
    (py_format : pyval -> string)
    (run_child : list string -> string -> Core.ChildRun)
    (tool : list string) (job : Job.t) (w : World) (row : JobRow) :
  Job.jobtype job = "comparippson" ∧ tool = Core.comparippson_tool
  ∨ Job.jobtype job = "clusterblast" ∧ tool = Core.clusterblast_tool ->
  in_sync job w row ->
  (forall (rc : Z) (stdout stderr : list string),
     container_run py_format run_child tool job w
     = Ok (Core.Exits rc stdout stderr) ->
     rc <> 0 ->
     exists (job' : Job.t) (w' : World),
       Core.dispatch_job py_format run_child (job, w) = (Ret (), (job', w'))
       ∧ Job.status job' = "failed"
       ∧ Job.results job' = Core.failed_results (PList (map PStr stderr))
       ∧ Job.version job' = Job.version job + 1
       ∧ find (has_id (Job.id job)) (jobs w')
         = Some (mkJobRow (row_id row) (row_jobtype row) "failed"
                          (Job.runner job) (row_submitted_date row)
                          (Job.data job)
                          (Core.failed_results (PList (map PStr stderr)))
                          (row_version row + 1))
       ∧ actions w' = actions w)
  ∧ (container_run py_format run_child tool job w = Ok Core.Undecodable ->
     exists (o : outcome unit) (w' : World),
       Core.dispatch_job py_format run_child (job, w) = (o, (job, w'))
       ∧ (o = Blocked
          ∨ o = Exc (Exn ValueError "too many values to unpack (expected 3)"))
       ∧ jobs w' = jobs w
       ∧ actions w' = PodmanKill (Job.id job) :: actions w).
Proof.
  intros Htool Hsync. split.
  - intros rc stdout stderr Hrun Hrc.
    destruct (handle_job_failure py_format run_child tool job w row rc stdout
                stderr Htool Hsync Hrun Hrc) as (w' & Hh & Hf & Hact).
    eexists _, w'. split.
    + unfold Core.dispatch_job, try_except. by rewrite Hh.
    + repeat split; try done. rewrite Hf. unfold committed_row. simpl.
      by destruct Hsync as (_ & _ & ->).
  - by apply dispatch_job_undecodable.
Qed.

(** Handling a job, with the [except] clause of the dispatcher, touches
    only that job: the engine, id, job type, runner and data of the job
    object are kept, its version grows by at most one, and the rows of
    other ids, the controls, the configuration and the metadata are as
    before, however the call ends. *)
Theorem dispatch_job_touches_only_its_job
    (py_format : pyval -> string)
    (run_child : list string -> string -> Core.ChildRun)
    (job job' : Job.t) (w w' : World) (o : outcome unit) :
  Core.dispatch_job py_format run_child (job, w) = (o, (job', w')) ->
  keeps job w job' w'
  ∧ Job.version job <= Job.version job' <= Job.version job + 1.
Proof.
  intros H. apply dispatch_job_frame in H as (Hk & _ & Hv). by split.
Qed.

(** When handling a job returns without an exception, the job has reached
    a final state: for a job whose row was at the job's version, the row
    now has status "done" or "failed", the next version, and the status,
    runner and results of the job object. *)
Theorem dispatch_job_returns_with_terminal_row
    (py_format : pyval -> string)
    (run_child : list string -> string -> Core.ChildRun)
    (job job' : Job.t) (w w' : World) (row : JobRow) :
  in_sync job w row ->
  Core.dispatch_job py_format run_child (job, w) = (Ret (), (job', w')) ->
  terminal job' w' row ∧ Job.id job' = Job.id job.
Proof.
  intros Hsync H.
  split; [by apply (dispatch_job_terminal py_format run_child job w)|].
  apply dispatch_job_frame in H as ((_ & Hid & _) & _). done.
Qed.

(** ** The loops of the dispatcher and of the supervisor *)

Lemma set_conf_same (w : World) (c : gmap string pyval) :
  c = conf w -> set_conf (fun _ => c) w = w.
Proof. intros ->. by destruct w. Qed.

Section LoopFacts.

Import Core.

Variable py_format : pyval -> string.
Variable run_child : list string -> string -> ChildRun.
Variable md5_hexdigest : string -> string.
Variable toml_loads : string -> res (gmap string pyval).

Lemma core_read_config_unchanged (w : World) (data : string) :
  conf w !! "_config_file_hash" = Some (PStr (md5_hexdigest data)) ->
  read_config md5_hexdigest toml_loads (Ok data) w = (Ret (), w).
Proof.
  intros H. unfold read_config.
  rewrite (read_config_unchanged md5_hexdigest toml_loads _ _ H).
  by rewrite set_conf_same.
Qed.

Lemma config_up_int (w : World) (r : Z) :
  conf w !! "_running_jobs" = Some (PInt r) ->
  config_up w
  = (Ret (), set_conf (fun _ => <["_running_jobs" := PInt (r + 1)]> (conf w)) w).
Proof.
  intros H. unfold config_up, RunConfig.up, RunConfig.getattr. msimpl.
  by rewrite H.
Qed.

Lemma config_down_int (w : World) (r : Z) :
  conf w !! "_running_jobs" = Some (PInt r) ->
  config_down w
  = (Ret (), set_conf (fun _ => <["_running_jobs" := PInt (r - 1)]> (conf w)) w).
Proof.
  intros H. unfold config_down, RunConfig.down, RunConfig.getattr. msimpl.
  by rewrite H.
Qed.

Lemma want_less_jobs_int (c : gmap string pyval) (r m : Z) :
  c !! "_running_jobs" = Some (PInt r) -> c !! "max_jobs" = Some (PInt m) ->
  RunConfig.want_less_jobs c = Ok (m <? r).
Proof.
  intros Hr Hm. unfold RunConfig.want_less_jobs, RunConfig.running_jobs,
    RunConfig.getattr. by rewrite Hr, Hm.
Qed.

Lemma want_more_jobs_int (c : gmap string pyval) (r m : Z) :
  c !! "_running_jobs" = Some (PInt r) -> c !! "max_jobs" = Some (PInt m) ->
  RunConfig.want_more_jobs c = Ok (r <? m).
Proof.
  intros Hr Hm. unfold RunConfig.want_more_jobs, RunConfig.running_jobs,
    RunConfig.getattr. by rewrite Hr, Hm.
Qed.

Lemma dispatch_turn_shrinks (queue : JobQueue.t) (w : World) (data : string)
    (locked : string -> bool) (r m : Z) :
  conf w !! "_config_file_hash" = Some (PStr (md5_hexdigest data)) ->
  conf w !! "_running_jobs" = Some (PInt r) ->
  conf w !! "max_jobs" = Some (PInt m) ->
  m < r ->
  dispatch_turn py_format run_child md5_hexdigest toml_loads queue
                (Ok data) locked w
  = (Ret Break,
     set_conf (fun _ => <["_running_jobs" := PInt (r - 1)]> (conf w)) w).
Proof.
  intros Hh Hr Hm Hlt. unfold dispatch_turn. msimpl.
  rewrite (core_read_config_unchanged _ _ Hh).
  rewrite (want_less_jobs_int _ _ _ Hr Hm).
  assert ((m <? r) = true) as -> by lia. mred.
  fold (@config_down). by rewrite (config_down_int _ _ Hr).
Qed.

Lemma dispatch_turn_idle (queue : JobQueue.t) (w : World) (data : string)
    (locked : string -> bool) :
  JobQueue.engine queue = PEngine ->
  conf w !! "_config_file_hash" = Some (PStr (md5_hexdigest data)) ->
  RunConfig.want_less_jobs (conf w) = Ok false ->
  find (claimable locked) (jobs w) = None ->
  dispatch_turn py_format run_child md5_hexdigest toml_loads queue
                (Ok data) locked w
  = (Ret Continue, w).
Proof.
  intros He Hh Hless Hnone. unfold dispatch_turn. msimpl.
  rewrite (core_read_config_unchanged _ _ Hh). rewrite Hless. mred.
  fold (@JobQueue.get_next). by rewrite (get_next_none _ _ _ He Hnone).
Qed.

End LoopFacts.

(** A dispatcher that starts when as many dispatchers are counted as are
    wanted, or more, leaves in its first turn: it counts itself, finds
    more running than wanted, counts itself out again and exits, having
    claimed no job and leaving the world exactly as it found it. *)
Theorem dispatch_over_target_exits_at_once
    (py_format : pyval -> string)
    (run_child : list string -> string -> Core.ChildRun)
    (md5_hexdigest : string -> string)
    (toml_loads : string -> res (gmap string pyval))
    (w : World) (data : string) (locked : string -> bool)
    (turns : list (res string * (string -> bool)))
    (r m : Z) (engine name : pyval) :
  conf w !! "_running_jobs" = Some (PInt r) ->
  conf w !! "max_jobs" = Some (PInt m) ->
  m <= r ->
  conf w !! "_db" = Some engine -> engine <> PNone ->
  conf w !! "name" = Some name ->
  conf w !! "_config_file_hash" = Some (PStr (md5_hexdigest data)) ->
  Core.dispatch py_format run_child md5_hexdigest toml_loads
                ((Ok data, locked) :: turns) w
  = (Ret Core.Exited, w).
Proof.
  intros Hr Hm Hle Hdb Hne Hname Hh.
  unfold Core.dispatch, Core.dispatch_enter. msimpl.
  fold (@Core.config_up). rewrite (config_up_int _ _ Hr). mred.
  unfold RunConfig.db, RunConfig.getattr. simpl.
  rewrite lookup_insert_ne by done. rewrite Hdb. simpl.
  assert (match engine with
          | PNone => Raise (Exn ValueError "Initialise the database first")
          | _ => Ok engine
          end = Ok engine) as -> by (by destruct engine).
  rewrite lookup_insert_ne by done. rewrite Hname.
  unfold Core.dispatch_loop. msimpl.
  rewrite (dispatch_turn_shrinks _ _ _ _ _ _ _ _ (r + 1) m).
  - mred. f_equal. unfold set_conf. simpl.
    rewrite insert_insert_eq. replace (r + 1 - 1) with r by lia.
    rewrite insert_id by done. by destruct w.
  - simpl. by rewrite lookup_insert_ne.
  - simpl. by rewrite lookup_insert_eq.
  - simpl. by rewrite lookup_insert_ne.
  - lia.
Qed.

(** A dispatcher that is not asked to leave and finds no row to claim does
    nothing: through any number of turns in which the configuration file
    is unchanged and no pending row is free, the world stays as it is and
    the task keeps running. *)
Theorem dispatch_idles_without_claimable_rows
    (py_format : pyval -> string)
    (run_child : list string -> string -> Core.ChildRun)
    (md5_hexdigest : string -> string)
    (toml_loads : string -> res (gmap string pyval))
    (queue : JobQueue.t) (w : World)
    (turns : list (res string * (string -> bool))) :
  JobQueue.engine queue = PEngine ->
  RunConfig.want_less_jobs (conf w) = Ok false ->
  Forall (fun turn =>
            (exists data,
               fst turn = Ok data
               ∧ conf w !! "_config_file_hash"
                 = Some (PStr (md5_hexdigest data)))
            ∧ find (claimable (snd turn)) (jobs w) = None) turns ->
  Core.dispatch_loop py_format run_child md5_hexdigest toml_loads queue turns w
  = (Ret Core.Running, w).
Proof.
  intros He Hless Hturns.
  induction Hturns as [|[file locked] turns [(data & Hfile & Hh) Hnone] _ IH];
    [done|].
  simpl in Hfile, Hnone. subst file.
  cbn [Core.dispatch_loop]. unfold mbind at 1, M_bind, bind.
  rewrite (dispatch_turn_idle _ _ _ _ _ _ _ _ He Hh Hless Hnone).
  exact IH.
Qed.

(** A turn of the dispatcher that claims a row and returns has finished
    that job: the row is then "done" or "failed", two versions on (one for
    the claim, one for the result), under the dispatcher's name and with
    its job type; the other rows, the controls and the configuration are
    as before. *)
Theorem dispatch_turn_finishes_the_claimed_job
    (py_format : pyval -> string)
    (run_child : list string -> string -> Core.ChildRun)
    (md5_hexdigest : string -> string)
    (toml_loads : string -> res (gmap string pyval))
    (queue : JobQueue.t) (w w' : World) (data runner : string)
    (locked : string -> bool) (row : JobRow) (c : Core.loop_ctl) :
  JobQueue.engine queue = PEngine ->
  JobQueue.name queue = PStr runner ->
  NoDup (map row_id (jobs w)) ->
  conf w !! "_config_file_hash" = Some (PStr (md5_hexdigest data)) ->
  RunConfig.want_less_jobs (conf w) = Ok false ->
  find (claimable locked) (jobs w) = Some row ->
  Core.dispatch_turn py_format run_child md5_hexdigest toml_loads queue
                     (Ok data) locked w
  = (Ret c, w') ->
  c = Core.Continue
  ∧ (exists row',
       find (has_id (row_id row)) (jobs w') = Some row'
       ∧ (row_status row' = "done" ∨ row_status row' = "failed")
       ∧ row_version row' = row_version row + 2
       ∧ row_runner row' = runner
       ∧ row_jobtype row' = row_jobtype row)
  ∧ (forall id', id' <> row_id row ->
       find (has_id id') (jobs w') = find (has_id id') (jobs w))
  ∧ controls w' = controls w ∧ conf w' = conf w.
Proof.
  intros He Hn Hnd Hh Hless Hfind.
  pose proof Hfind as Hin. apply find_some in Hin as [Hin _].
  apply list_elem_of_In in Hin.
  pose proof (find_unique_id _ _ Hnd Hin) as Hrow.
  unfold Core.dispatch_turn. msimpl.
  rewrite (core_read_config_unchanged _ _ _ _ Hh). rewrite Hless. mred.
  fold (@JobQueue.get_next).
  rewrite (get_next_some _ _ _ runner row He Hn Hfind Hrow). mred.
  set (job := job_of_row PEngine (claimed_row runner row)).
  set (w1 := set_jobs _ w).
  assert (in_sync job w1 (claimed_row runner row)) as Hsync.
  { split; [done|]. split; [|done]. subst w1. simpl.
    by apply (find_map_update _ _ _ (claimed_row runner) row). }
  destruct (Core.dispatch_job _ _ (job, w1)) as [o [j2 w2]] eqn:Hd.
  pose proof (dispatch_job_frame _ _ _ _ _ _ _ Hd)
    as ((_ & Hid & _ & Hrun & _ & Hothers & Hctl & Hconf & _) & _ & _).
  destruct o as [[]|e|]; mred; try done.
  intros [= <- <-]. split; [done|].
  apply (dispatch_job_terminal _ _ _ _ _ _ _ Hsync) in Hd
    as (row' & Hf' & Hst & Hv & _ & Hjt & _ & Hr' & _).
  split; [|split; [|done]].
  - exists row'. rewrite Hid in Hf'. split; [done|]. split; [done|].
    split; [simpl in Hv; lia|]. split; [by rewrite <- Hr', Hrun|done].
  - intros id' Hne. rewrite (Hothers id' Hne). subst w1. simpl.
    apply (find_map_other _ (row_id row)); [done| |done].
    intros r Hr. apply andb_prop in Hr as [Hr _]. by apply String.eqb_eq.
Qed.

Lemma control_fetch_found (c : Control.t) (w : World) (name : string)
    (row : ControlRow) :
  Control.engine c = PEngine -> Control.name c = PStr name ->
  find (has_name name) (controls w) = Some row ->
  Control.fetch (c, w)
  = (Ret (), (Control.mk (Control.engine c) (Control.name c) (crow_status row)
                         (crow_stop_scheduled row) (Control.version c), w)).
Proof.
  intros He Hn Hf. unfold Control.fetch, get_control. msimpl.
  rewrite He, Hn. msimpl. fold (has_name name). rewrite Hf.
  by rewrite He, Hn.
Qed.

Lemma manage_tick_stop (c : Control.t) (w : World) (name : string)
    (row : ControlRow) (r : Z) :
  Control.engine c = PEngine -> Control.name c = PStr name ->
  find (has_name name) (controls w) = Some row ->
  crow_stop_scheduled row = true ->
  conf w !! "_running_jobs" = Some (PInt r) -> 0 <= r ->
  Core.manage_tick (c, w)
  = (Ret (),
     (Control.mk (Control.engine c) (Control.name c) (crow_status row)
                 (crow_stop_scheduled row) (Control.version c),
      set_conf (fun c => RunConfig.setattr c "max_jobs" (PInt 0)) w)).
Proof.
  intros He Hn Hf Hstop Hr Hpos.
  assert (RunConfig.want_more_jobs (<["max_jobs" := PInt 0]> (conf w))
          = Ok false) as Hmore.
  { rewrite (want_more_jobs_int _ r 0).
    - f_equal. lia.
    - by rewrite lookup_insert_ne.
    - by rewrite lookup_insert_eq. }
  unfold Core.manage_tick. unfold mbind at 1, M_bind, bind.
  rewrite (control_fetch_found _ _ _ _ He Hn Hf). msimpl.
  rewrite Hstop. mred. simpl. unfold RunConfig.setattr.
  rewrite Hmore. mred. reflexivity.
Qed.

Lemma manage_done_int (c : Control.t) (w : World) (r m : Z) :
  conf w !! "_running_jobs" = Some (PInt r) ->
  conf w !! "max_jobs" = Some (PInt m) ->
  Core.manage_done (c, w) = (Ret ((r =? 0) && negb (r <? m)), (c, w)).
Proof.
  intros Hr Hm. unfold Core.manage_done. msimpl.
  rewrite (want_more_jobs_int _ _ _ Hr Hm).
  unfold RunConfig.running_jobs, RunConfig.getattr. rewrite Hr. mred. simpl.
  by destruct (r =? 0).
Qed.

(** Once a stop is scheduled in the control row, a turn of the supervisor
    sets [max_jobs] to 0 and starts no dispatcher (for a count of running
    jobs that is not negative), and the test after the sleep lets the loop
    end exactly when no job is running. *)
Theorem scheduled_stop_starts_no_dispatcher
    (c : Control.t) (w : World) (name : string) (row : ControlRow) (r : Z) :
  Control.engine c = PEngine -> Control.name c = PStr name ->
  find (has_name name) (controls w) = Some row ->
  crow_stop_scheduled row = true ->
  conf w !! "_running_jobs" = Some (PInt r) -> 0 <= r ->
  exists (c' : Control.t) (w' : World),
    Core.manage_tick (c, w) = (Ret (), (c', w'))
    ∧ Control.stop_scheduled c' = true
    ∧ conf w' = <["max_jobs" := PInt 0]> (conf w)
    ∧ actions w' = actions w
    ∧ jobs w' = jobs w ∧ controls w' = controls w
    ∧ Core.manage_done (c', w') = (Ret (r =? 0), (c', w')).
Proof.
  intros He Hn Hf Hstop Hr Hpos.
  eexists _, _.
  split; [by apply (manage_tick_stop _ _ name row r)|].
  split; [done|]. split; [done|]. split; [done|]. split; [done|].
  split; [done|].
  rewrite (manage_done_int _ _ r 0).
  - f_equal. f_equal. lia.
  - simpl. unfold RunConfig.setattr. by rewrite lookup_insert_ne.
  - simpl. unfold RunConfig.setattr. by rewrite lookup_insert_eq.
Qed.

(** On entry the supervisor registers itself: the control row of the
    runner's name is written as "running" with the runner's version and
    with [stop_scheduled] false, whatever row of that name was there (a
    stop scheduled before the start is cleared); other rows, the jobs and
    the configuration are as before. *)
Theorem manage_enter_registers_and_clears_stop
    (runner_version : string) (w : World) (name : string) :
  conf w !! "_db" = Some PEngine ->
  conf w !! "name" = Some (PStr name) ->
  exists w',
    Core.manage_enter runner_version w
    = (Ret (Control.mk PEngine (PStr name) "running" false runner_version), w')
    ∧ find (has_name name) (controls w')
      = Some (mkControlRow name "running" false runner_version)
    ∧ (forall name', name' <> name ->
         find (has_name name') (controls w') = find (has_name name') (controls w))
    ∧ jobs w' = jobs w ∧ conf w' = conf w ∧ actions w' = actions w.
Proof.
  intros Hdb Hname.
  destruct (control_commit_upsert
              (Control.mk PEngine (PStr name) "running" false runner_version)
              w name eq_refl eq_refl) as (w' & Hc & Hf & Ho & Hj & Hconf & Hact).
  exists w'. split; [|done].
  unfold Core.manage_enter, RunConfig.db, RunConfig.getattr. msimpl.
  rewrite Hdb, Hname. simpl. by rewrite Hc.
Qed.

(** With a stop scheduled and no job running, the supervisor leaves after
    one turn, provided the other tasks leave the configuration and the
    controls alone while it sleeps: [max_jobs] is set to 0, the loop ends
    after the sleep, and the control row of the runner is deleted (and no
    other), whatever the turns that were still to come. *)
Theorem manage_leaves_once_drained
    (c : Control.t) (w : World) (name : string) (row : ControlRow)
    (during_sleep : World -> World) (sleeps : list (World -> World)) :
  Control.engine c = PEngine -> Control.name c = PStr name ->
  find (has_name name) (controls w) = Some row ->
  crow_stop_scheduled row = true ->
  conf w !! "_running_jobs" = Some (PInt 0) ->
  (forall x, conf (during_sleep x) = conf x
             ∧ controls (during_sleep x) = controls x) ->
  exists w',
    Core.manage_loop c (during_sleep :: sleeps) w = (Ret Core.Exited, w')
    ∧ find (has_name name) (controls w') = None
    ∧ (forall name', name' <> name ->
         find (has_name name') (controls w') = find (has_name name') (controls w))
    ∧ conf w' = <["max_jobs" := PInt 0]> (conf w)
    ∧ actions w' = actions (during_sleep
                              (set_conf (fun c => <["max_jobs" := PInt 0]> c) w)).
Proof.
  intros He Hn Hf Hstop Hr Hsleep.
  set (c' := Control.mk (Control.engine c) (Control.name c) (crow_status row)
                        (crow_stop_scheduled row) (Control.version c)).
  set (w1 := set_conf (fun c => RunConfig.setattr c "max_jobs" (PInt 0)) w).
  destruct (Hsleep w1) as [Hconf2 Hctl2].
  assert (Core.manage_done (c', during_sleep w1)
          = (Ret true, (c', during_sleep w1))) as Hdone.
  { rewrite (manage_done_int _ _ 0 0); [done|rewrite Hconf2..].
    - simpl. unfold RunConfig.setattr. by rewrite lookup_insert_ne.
    - simpl. unfold RunConfig.setattr. by rewrite lookup_insert_eq. }
  assert (is_Some (find (has_name name) (controls (during_sleep w1)))) as Hrow.
  { rewrite Hctl2. simpl. by rewrite Hf. }
  eexists. split.
  - cbn [Core.manage_loop]. unfold mbind at 1, M_bind, bind.
    unfold run_with at 1.
    rewrite (manage_tick_stop _ _ name row 0 He Hn Hf Hstop Hr ltac:(lia)).
    fold c' w1. mred. msimpl. fold (@Core.manage_done).
    rewrite Hdone. mred.
    rewrite (control_delete_found c' _ name He Hn Hrow). reflexivity.
  - simpl. rewrite Hctl2. simpl. split; [|split; [|split; [|done]]].
    + by rewrite find_has_name_filter, String.eqb_refl.
    + intros name' Hne. rewrite find_has_name_filter.
      apply String.eqb_neq in Hne. by rewrite Hne.
    + by rewrite Hconf2.
Qed.

(** ** The version string *)

Section VersionFacts.

Import Version.

Variable utf8_decode : string -> res string.

Lemma get_git_version_sync_caches (git : res (Z * string))
    (cache cache' : option string) (ver : string) :
  get_git_version_sync utf8_decode git cache = (Ret ver, cache') ->
  cache' = Some ver.
Proof.
  unfold get_git_version_sync. msimpl. destruct cache as [cached|]; mred.
  - by intros [= <- <-].
  - destruct git as [[rc out]|]; mred; [|done].
    destruct (if negb (rc =? 0) then _ else _); mred; [|done].
    by intros [= <- <-].
Qed.

Lemma get_git_version_caches (git : res (Z * string))
    (cache cache' : option string) (ver : string) :
  get_git_version utf8_decode git cache = (Ret ver, cache') ->
  cache' = Some ver.
Proof.
  unfold get_git_version. msimpl. destruct cache as [cached|]; mred.
  - by intros [= <- <-].
  - destruct git as [[rc out]|]; mred; [|done].
    destruct (if negb (rc =? 0) then _ else _); mred; [|done].
    by intros [= <- <-].
Qed.

End VersionFacts.

(** The git version is looked up once: after either [get_version_sync] or
    [get_version] has returned, both return that same version string and
    leave the cache as it is, whatever git would say now. *)
Theorem get_version_runs_git_at_most_once
    (utf8_decode : string -> res string)
    (git git' : res (Z * string)) (cache cache' : option string)
    (version : string) :
  Version.get_version_sync utf8_decode git cache = (Ret version, cache')
  ∨ Version.get_version utf8_decode git cache = (Ret version, cache') ->
  Version.get_version utf8_decode git' cache' = (Ret version, cache')
  ∧ Version.get_version_sync utf8_decode git' cache' = (Ret version, cache').
Proof.
  intros H.
  assert (exists ver, cache' = Some ver ∧ version = Version.full_version ver)
    as (ver & -> & ->).
  { destruct H as [H|H]; revert H;
      unfold Version.get_version_sync, Version.get_version;
      unfold mbind at 1, M_bind, bind.
    - destruct (Version.get_git_version_sync _ _ _) as [[ver| |] c] eqn:Hg;
        try done.
      apply get_git_version_sync_caches in Hg as ->.
      unfold_monad. intros [= <- <-]. by exists ver.
    - destruct (Version.get_git_version _ _ _) as [[ver| |] c] eqn:Hg;
        try done.
      apply get_git_version_caches in Hg as ->.
      unfold_monad. intros [= <- <-]. by exists ver. }
  done.
Qed.

(** The coroutine [get_version] cannot read what git prints, where
    [get_version_sync] can.  Both run the same lines on what
    [communicate] gives, but only the synchronous one starts git with a
    pipe on stdout.  With nothing cached and a git that succeeds, the
    coroutine raises [AttributeError] (there is nothing to strip) and
    caches nothing, while the synchronous function on the same run returns
    ["0.1.0-<what git printed, stripped and decoded>"] and caches it.  When
    the coroutine does return with nothing cached, git has failed: the
    version is the bare ["0.1.0"], and the empty string is cached. *)
Theorem get_version_never_reads_git_output
    (utf8_decode : string -> res string) (git : res (Z * string)) :
  (forall written,
     git = Ok (0, written) ->
     Version.get_version utf8_decode git None
     = (Exc (Exn AttributeError "strip"), None)
     ∧ forall ver,
         utf8_decode (Str.rstrip Version.bytes_space
                        (Str.lstrip Version.bytes_space written)) = Ok ver ->
         Version.get_version_sync utf8_decode git None
         = (Ret (Version.full_version ver), Some ver))
  ∧ (forall version cache',
       Version.get_version utf8_decode git None = (Ret version, cache') ->
       version = Version.__version__ ∧ cache' = Some EmptyString
       ∧ exists returncode written,
           git = Ok (returncode, written) ∧ returncode <> 0).
Proof.
  split.
  - intros written ->. split; [reflexivity|]. intros ver Hver.
    unfold Version.get_version_sync, Version.get_git_version_sync,
      Version.strip_decode, Version.communicate.
    msimpl. simpl. rewrite Hver. reflexivity.
  - intros version cache'.
    unfold Version.get_version, Version.get_git_version,
      Version.strip_decode, Version.communicate.
    msimpl. destruct git as [[rc out]|]; mred; [|done].
    destruct (rc =? 0) eqn:Hrc; simpl; [done|].
    intros [= <- <-]. split; [done|]. split; [done|].
    exists rc, out. split; [done|]. by apply Z.eqb_neq.
Qed.

(** ** Instances of the further properties *)

Lemma parse_blast_first_bad_line_witness :
  parse_blast [Examples.line_80; Examples.line_short; Examples.line_100]
  = Raise (Exn ValueError "Unexpected line").
Proof.
  apply (proj2 (parse_blast_first_bad_line
                  [Examples.line_80; Examples.line_short; Examples.line_100]
                  (Exn ValueError "Unexpected line"))).
  exists [Examples.line_80], [Examples.line_100], Examples.line_short,
         [MoreExamples.hit_80].
  split; [reflexivity|]. split; vm_compute; reflexivity.
Defined.

Lemma parse_blast_one_record_per_line_witness :
  Forall2 (fun line b => BlastResult.from_line line = Ok b)
          [Examples.line_80; Examples.line_100]
          [MoreExamples.hit_80; MoreExamples.hit_100].
Proof.
  apply (proj1 (parse_blast_one_record_per_line
                  [Examples.line_80; Examples.line_100]
                  [MoreExamples.hit_80; MoreExamples.hit_100])).
  vm_compute. reflexivity.
Defined.

Lemma entry_id_is_prefix_witness :
  BlastResult.s_acc MoreExamples.hit_80 = "ENT1"
  ∨ exists rest,
      BlastResult.s_acc MoreExamples.hit_80 = "ENT1" ++ String "|" rest.
Proof. exact (proj2 (entry_id_is_prefix MoreExamples.hit_80)). Defined.

Lemma from_blast_keeps_parsed_fields_witness :
  getitem (ComparippsonResult.to_json
             (ComparippsonResult.mk "q1" (PStr "L") (PStr "T") (PStr "A")
                (PInt 1) (PInt 99) 80 "MAGI" 1 4 5 "MAGX" 10 13 20))
          "identity"
  = getitem (BlastResult.to_json MoreExamples.hit_80) "identity".
Proof.
  apply (from_blast_keeps_parsed_fields MoreExamples.hit_80 Examples.metadata).
  - vm_compute. reflexivity.
  - vm_compute. right. right. left.
  - discriminate.
Defined.

Lemma comparippson_hits_keep_every_line_witness :
  exists hits,
    Core.comparippson_hits Examples.metadata
                           [Examples.line_80; Examples.line_100]
    = Ok hits
    ∧ length hits = 2%nat
    ∧ exists rs : list ComparippsonResult.t,
        Forall2 (fun line r =>
                   exists b, BlastResult.from_line line = Ok b
                             ∧ ComparippsonResult.from_blast b Examples.metadata
                               = Ok r)
                [Examples.line_80; Examples.line_100] rs
        ∧ hits ≡ₚ map ComparippsonResult.to_json rs.
Proof.
  eexists. split; [vm_compute; reflexivity|].
  apply (comparippson_hits_keep_every_line Examples.metadata
           [Examples.line_80; Examples.line_100]).
  vm_compute. reflexivity.
Defined.

Lemma read_config_second_read_is_noop_witness :
  exists self',
    RunConfig.read_config Examples.digest Examples.loads false
                          (Ok "_running_jobs = 7") Examples.config
    = (Ok (), self')
    ∧ RunConfig.read_config Examples.digest Examples.loads false
                            (Ok "_running_jobs = 7") self'
      = (Ok (), self').
Proof.
  apply (read_config_second_read_is_noop
           Examples.digest Examples.loads Examples.config
           {["_running_jobs" := PInt 7]} "_running_jobs = 7"
           (PStr "unchanged"));
    reflexivity.
Defined.

Lemma read_config_reports_parse_error_once_witness :
  exists self',
    RunConfig.read_config Examples.digest MoreExamples.broken_loads false
                          (Ok "max_jobs = ") Examples.config
    = (Raise (Exn TOMLDecodeError "Invalid statement"), self')
    ∧ (forall name, name <> "_config_file_hash" ->
         self' !! name = Examples.config !! name)
    ∧ RunConfig.read_config Examples.digest MoreExamples.broken_loads false
                            (Ok "max_jobs = ") self'
      = (Ok (), self').
Proof.
  apply (read_config_reports_parse_error_once
           Examples.digest MoreExamples.broken_loads Examples.config
           "max_jobs = " (PStr "unchanged")
           (Exn TOMLDecodeError "Invalid statement"));
    reflexivity.
Defined.

Lemma update_from_dict_touches_named_fields_only_witness :
  RunConfig.update_from_dict Examples.config {["max_jobs" := PInt 3]} !! "cpus"
  = Examples.config !! "cpus".
Proof.
  apply (proj1 (update_from_dict_touches_named_fields_only
                  Examples.config {["max_jobs" := PInt 3]})).
  right. reflexivity.
Defined.

Lemma up_then_down_restores_counter_witness :
  exists self',
    RunConfig.up Examples.config = Ok self'
    ∧ RunConfig.running_jobs self' = Ok (PInt (0 + 1))
    ∧ RunConfig.down self' = Ok Examples.config.
Proof.
  apply (up_then_down_restores_counter Examples.config 0). reflexivity.
Defined.

Lemma want_more_and_less_exclude_each_other_witness : true && false = false.
Proof.
  apply (want_more_and_less_exclude_each_other Examples.config true false);
    reflexivity.
Defined.

Lemma db_follows_init_and_close_witness :
  RunConfig.db (RunConfig.setattr Examples.config "_db" PNone)
  = Raise (Exn ValueError "Initialise the database first")
  ∧ RunConfig.close_db (RunConfig.setattr Examples.config "_db" PNone)
    = Ok (RunConfig.setattr Examples.config "_db" PNone)
  ∧ forall name, name <> "_db" ->
      RunConfig.setattr Examples.config "_db" PNone !! name
      = Examples.config !! name.
Proof.
  apply (proj2 (proj2 (db_follows_init_and_close MoreExamples.connect
                         Examples.config))).
  reflexivity.
Defined.

Lemma from_argparse_needs_configfile_witness :
  RunConfig.from_argparse (PStr "/srv/databases") (PList [PBool false])
                          (PStr "/srv/workdir") ∅
  = Raise (Exn ValueError "Missing value for configfile").
Proof. apply from_argparse_needs_configfile. reflexivity. Defined.

Lemma from_argparse_sets_every_field_witness :
  exists conf,
    RunConfig.from_argparse (PStr "/srv/databases") (PList [PBool false])
                            (PStr "/srv/workdir") MoreExamples.args
    = Ok conf
    ∧ conf !! "configfile" = Some (PStr "/srv/asdb-jobs.toml")
    ∧ conf !! "_running_jobs" = Some (PInt 0)
    ∧ conf !! "verbose" = None.
Proof.
  destruct (from_argparse_sets_every_field
              (PStr "/srv/databases") (PList [PBool false])
              (PStr "/srv/workdir") MoreExamples.args
              (PStr "/srv/asdb-jobs.toml") eq_refl)
    as (conf & Hconf & _ & Hother & Hfile & _ & _ & Hcount).
  exists conf. split; [exact Hconf|]. split; [exact Hfile|].
  split; [exact Hcount|]. apply Hother.
  apply (bool_decide_unpack _). vm_compute. exact I.
Defined.

Lemma commit_then_fetch_round_trip_witness :
  exists (job' : Job.t) (w' : World),
    Job.commit (Examples.claimed_job "comparippson",
                Examples.world [Examples.running_row "comparippson"])
    = (Ret (), (job', w'))
    ∧ Job.fetch (job', w') = (Ret (), (job', w'))
    ∧ Job.from_db PEngine "j1" w'
      = (Ret (Job.mk PEngine "j1" "comparippson" "running" "runner-1"
                     Examples.job_data PNone 2), w').
Proof.
  apply (commit_then_fetch_round_trip
           (Examples.claimed_job "comparippson")
           (Examples.world [Examples.running_row "comparippson"])
           (Examples.running_row "comparippson")).
  repeat split; reflexivity.
Defined.

Lemma commit_inserts_unknown_job_witness :
  exists w',
    Job.commit (Examples.claimed_job "comparippson", Examples.world [])
    = (Ret (), (Examples.claimed_job "comparippson", w'))
    ∧ jobs w'
      = [mkJobRow "j1" "j1" "running" "runner-1" PNone Examples.job_data
                  PNone 1].
Proof.
  destruct (commit_inserts_unknown_job
              (Examples.claimed_job "comparippson") (Examples.world [])
              eq_refl eq_refl) as (w' & Hc & Hj & _).
  exists w'. split; [exact Hc|exact Hj].
Defined.

Lemma get_next_never_claims_twice_witness :
  "j1" <> "j2"
  ∧ (exists row2,
       row2 ∈ [Examples.pending_row "comparippson";
               MoreExamples.second_pending_row]
       ∧ row_id row2 = "j2" ∧ row_status row2 = "pending")
  ∧ NoDup (map row_id [Examples.running_row "comparippson";
                       MoreExamples.second_running_row]).
Proof.
  apply (get_next_never_claims_twice
           Examples.unlocked Examples.unlocked
           (JobQueue.mk PEngine (PStr "runner-1"))
           (Examples.world [Examples.pending_row "comparippson";
                            MoreExamples.second_pending_row])
           (Examples.world [Examples.running_row "comparippson";
                            MoreExamples.second_pending_row])
           (Examples.world [Examples.running_row "comparippson";
                            MoreExamples.second_running_row])
           "runner-1" (Examples.claimed_job "comparippson")
           MoreExamples.second_claimed_job eq_refl eq_refl).
  - apply (bool_decide_unpack _). vm_compute. exact I.
  - vm_compute. reflexivity.
  - vm_compute. reflexivity.
Defined.

Lemma control_commit_is_upsert_witness :
  exists w',
    Control.commit (Examples.control, MoreExamples.stopping_world)
    = (Ret (), (Examples.control, w'))
    ∧ find (has_name "runner-1") (controls w')
      = Some (mkControlRow "runner-1" "running" false "0.1.0")
    ∧ Control.from_db PEngine (PStr "runner-1") w' = (Ret Examples.control, w').
Proof.
  destruct (control_commit_is_upsert
              Examples.control MoreExamples.stopping_world "runner-1"
              eq_refl eq_refl) as (w' & Hc & Hf & _ & _ & _ & _ & Hdb).
  exists w'. split; [exact Hc|]. split; [exact Hf|exact Hdb].
Defined.

Lemma control_delete_removes_the_row_witness :
  exists w',
    Control.delete (Examples.control, Examples.world []) = (Ret (), (Examples.control, w'))
    ∧ find (has_name "runner-1") (controls w') = None.
Proof.
  destruct (control_delete_removes_the_row
              Examples.control (Examples.world []) "runner-1" eq_refl eq_refl)
    as [_ Hfound].
  destruct (Hfound ltac:(by eexists)) as (w' & Hd & Hgone & _).
  exists w'. split; [exact Hd|exact Hgone].
Defined.

Lemma dispatch_job_kills_only_on_overrun_witness :
  actions
    (mkWorld [MoreExamples.finished_row "failed"
                (Core.failed_results (PList [PStr "killed"]))]
             [Examples.control_row] Examples.config Examples.metadata None
             [PodmanKill "j1"])
  = PodmanKill "j1"
    :: actions (Examples.world [Examples.running_row "comparippson"]).
Proof.
  apply (proj2 (dispatch_job_kills_only_on_overrun
                  Examples.format
                  (Examples.overruns (Some (137, [], ["killed"])) true)
                  (Examples.claimed_job "comparippson")
                  (MoreExamples.finished_job "failed"
                     (Core.failed_results (PList [PStr "killed"])))
                  (Examples.world [Examples.running_row "comparippson"])
                  _ (Ret ()) ltac:(vm_compute; reflexivity))
               Core.comparippson_tool
               (Core.Overruns (Some (137, [], ["killed"])) true)
               (or_introl (conj eq_refl eq_refl))).
  vm_compute. reflexivity.
Defined.

Lemma failed_container_commits_stderr_witness :
  (exists (job' : Job.t) (w' : World),
     Core.dispatch_job Examples.format
       (Examples.exits 1 ["junk"] ["bad input"])
       (Examples.claimed_job "clusterblast",
        Examples.world [Examples.running_row "clusterblast"])
     = (Ret (), (job', w'))
     ∧ Job.status job' = "failed"
     ∧ Job.results job' = Core.failed_results (PList [PStr "bad input"])
     ∧ Job.version job' = 2)
  ∧ (exists (o : outcome unit) (w' : World),
       Core.dispatch_job Examples.format MoreExamples.undecodable
         (Examples.claimed_job "clusterblast",
          Examples.world [Examples.running_row "clusterblast"])
       = (o, (Examples.claimed_job "clusterblast", w'))
       ∧ o = Blocked
       ∧ jobs w' = [Examples.running_row "clusterblast"]
       ∧ actions w' = [PodmanKill "j1"]).
Proof.
  split.
  - destruct (proj1 (failed_container_commits_stderr
                       Examples.format
                       (Examples.exits 1 ["junk"] ["bad input"])
                       Core.clusterblast_tool
                       (Examples.claimed_job "clusterblast")
                       (Examples.world [Examples.running_row "clusterblast"])
                       (Examples.running_row "clusterblast")
                       (or_intror (conj eq_refl eq_refl))
                       ltac:(repeat split; reflexivity))
                    1 ["junk"] ["bad input"]
                    ltac:(vm_compute; reflexivity) ltac:(lia))
      as (job' & w' & Hd & Hs & Hr & Hv & _).
    exists job', w'. split; [exact Hd|]. split; [exact Hs|].
    split; [exact Hr|exact Hv].
  - destruct (proj2 (failed_container_commits_stderr
                       Examples.format MoreExamples.undecodable
                       Core.clusterblast_tool
                       (Examples.claimed_job "clusterblast")
                       (Examples.world [Examples.running_row "clusterblast"])
                       (Examples.running_row "clusterblast")
                       (or_intror (conj eq_refl eq_refl))
                       ltac:(repeat split; reflexivity))
                    ltac:(vm_compute; reflexivity))
      as (o & w' & Hd & Ho & Hj & Ha).
    exists o, w'. split; [exact Hd|]. split; [|split; [exact Hj|exact Ha]].
    assert (Hc : Core.dispatch_job Examples.format MoreExamples.undecodable
                   (Examples.claimed_job "clusterblast",
                    Examples.world [Examples.running_row "clusterblast"])
                 = (Blocked,
                    (Examples.claimed_job "clusterblast",
                     act (PodmanKill "j1")
                         (Examples.world
                            [Examples.running_row "clusterblast"]))))
      by (vm_compute; reflexivity).
    rewrite Hc in Hd. by injection Hd as <- _.
Defined.

Lemma dispatch_job_touches_only_its_job_witness :
  keeps (Examples.claimed_job "comparippson")
        (Examples.world [Examples.running_row "comparippson"])
        (Job.set_status "done" (Examples.claimed_job "comparippson"))
        (Examples.world [Examples.running_row "comparippson"])
  ∧ 1 <= 1 <= 1 + 1.
Proof.
  apply (dispatch_job_touches_only_its_job
           Examples.format (Examples.exits 0 [Examples.line_short] [])
           (Examples.claimed_job "comparippson")
           (Job.set_status "done" (Examples.claimed_job "comparippson"))
           (Examples.world [Examples.running_row "comparippson"])
           (Examples.world [Examples.running_row "comparippson"])
           (Exc (Exn ValueError "Unexpected line"))).
  vm_compute. reflexivity.
Defined.

Lemma dispatch_job_returns_with_terminal_row_witness :
  terminal
    (MoreExamples.finished_job "done"
       (MoreExamples.hits [MoreExamples.enriched_100; MoreExamples.enriched_80]))
    (Examples.world
       [MoreExamples.finished_row "done"
          (MoreExamples.hits [MoreExamples.enriched_100;
                              MoreExamples.enriched_80])])
    (Examples.running_row "comparippson")
  ∧ "j1" = "j1".
Proof.
  apply (dispatch_job_returns_with_terminal_row
           Examples.format
           (Examples.exits 0 [Examples.line_80; Examples.line_100] [])
           (Examples.claimed_job "comparippson")
           (MoreExamples.finished_job "done"
              (MoreExamples.hits [MoreExamples.enriched_100;
                                  MoreExamples.enriched_80]))
           (Examples.world [Examples.running_row "comparippson"])
           (Examples.world
              [MoreExamples.finished_row "done"
                 (MoreExamples.hits [MoreExamples.enriched_100;
                                     MoreExamples.enriched_80])])
           (Examples.running_row "comparippson")).
  - repeat split; reflexivity.
  - vm_compute. reflexivity.
Defined.

Lemma dispatch_over_target_exits_at_once_witness :
  Core.dispatch Examples.format (Examples.exits 0 [] [])
                Examples.digest Examples.loads Examples.one_turn
                MoreExamples.full_world
  = (Ret Core.Exited, MoreExamples.full_world).
Proof.
  apply (dispatch_over_target_exits_at_once
           Examples.format (Examples.exits 0 [] [])
           Examples.digest Examples.loads MoreExamples.full_world
           "unchanged" Examples.unlocked [] 5 5 PEngine (PStr "runner-1"));
    [reflexivity|reflexivity|lia|reflexivity|discriminate|reflexivity
    |reflexivity].
Defined.

Lemma dispatch_idles_without_claimable_rows_witness :
  Core.dispatch_loop Examples.format (Examples.exits 0 [] [])
                     Examples.digest Examples.loads
                     (JobQueue.mk PEngine (PStr "runner-1"))
                     [(Ok "unchanged", Examples.unlocked);
                      (Ok "unchanged", Examples.unlocked)]
                     (Examples.world [Examples.running_row "comparippson"])
  = (Ret Core.Running, Examples.world [Examples.running_row "comparippson"]).
Proof.
  apply dispatch_idles_without_claimable_rows; [reflexivity..|].
  repeat constructor; by exists "unchanged".
Defined.

Lemma dispatch_turn_finishes_the_claimed_job_witness :
  exists row' : JobRow,
    find (has_id "j1")
         (jobs (Examples.world
                  [MoreExamples.finished_row "done"
                     (MoreExamples.hits [MoreExamples.enriched_80])]))
    = Some row'
    ∧ (row_status row' = "done" ∨ row_status row' = "failed")
    ∧ row_version row' = 0 + 2
    ∧ row_runner row' = "runner-1".
Proof.
  destruct (dispatch_turn_finishes_the_claimed_job
              Examples.format (Examples.exits 0 [Examples.line_80] [])
              Examples.digest Examples.loads
              (JobQueue.mk PEngine (PStr "runner-1"))
              (Examples.world [Examples.pending_row "comparippson"])
              (Examples.world
                 [MoreExamples.finished_row "done"
                    (MoreExamples.hits [MoreExamples.enriched_80])])
              "unchanged" "runner-1" Examples.unlocked
              (Examples.pending_row "comparippson") Core.Continue
              eq_refl eq_refl (NoDup_singleton _)
              ltac:(vm_compute; reflexivity) ltac:(vm_compute; reflexivity)
              ltac:(vm_compute; reflexivity) ltac:(vm_compute; reflexivity))
    as (_ & (row' & Hf & Hst & Hv & Hr & _) & _).
  exists row'. split; [exact Hf|]. split; [exact Hst|].
  split; [exact Hv|exact Hr].
Defined.

Lemma scheduled_stop_starts_no_dispatcher_witness :
  exists (c' : Control.t) (w' : World),
    Core.manage_tick (Examples.control, MoreExamples.stopping_world)
    = (Ret (), (c', w'))
    ∧ Control.stop_scheduled c' = true
    ∧ conf w' = <["max_jobs" := PInt 0]> Examples.config
    ∧ actions w' = []
    ∧ Core.manage_done (c', w') = (Ret true, (c', w')).
Proof.
  destruct (scheduled_stop_starts_no_dispatcher
              Examples.control MoreExamples.stopping_world "runner-1"
              MoreExamples.stopping_row 0 eq_refl eq_refl eq_refl eq_refl
              eq_refl ltac:(lia))
    as (c' & w' & Ht & Hs & Hc & Ha & _ & _ & Hd).
  exists c', w'. split; [exact Ht|]. split; [exact Hs|]. split; [exact Hc|].
  split; [exact Ha|exact Hd].
Defined.

Lemma manage_enter_registers_and_clears_stop_witness :
  exists w',
    Core.manage_enter "0.1.0" MoreExamples.stopping_world
    = (Ret Examples.control, w')
    ∧ find (has_name "runner-1") (controls w')
      = Some (mkControlRow "runner-1" "running" false "0.1.0").
Proof.
  destruct (manage_enter_registers_and_clears_stop
              "0.1.0" MoreExamples.stopping_world "runner-1" eq_refl eq_refl)
    as (w' & He & Hf & _).
  exists w'. split; [exact He|exact Hf].
Defined.

Lemma manage_leaves_once_drained_witness :
  exists w',
    Core.manage_loop Examples.control [fun w => w; fun w => w]
                     MoreExamples.stopping_world
    = (Ret Core.Exited, w')
    ∧ find (has_name "runner-1") (controls w') = None.
Proof.
  destruct (manage_leaves_once_drained
              Examples.control MoreExamples.stopping_world "runner-1"
              MoreExamples.stopping_row (fun w => w) [fun w => w]
              eq_refl eq_refl eq_refl eq_refl eq_refl
              (fun x => conj eq_refl eq_refl))
    as (w' & Hl & Hf & _).
  exists w'. split; [exact Hl|exact Hf].
Defined.

Lemma get_version_runs_git_at_most_once_witness :
  Version.get_version MoreExamples.decode (Ok (0, "fffffff")) (Some "abc1234")
  = (Ret "0.1.0-abc1234", Some "abc1234")
  ∧ Version.get_version_sync MoreExamples.decode (Ok (0, "fffffff"))
                             (Some "abc1234")
    = (Ret "0.1.0-abc1234", Some "abc1234").
Proof.
  apply (get_version_runs_git_at_most_once
           MoreExamples.decode
           (Ok (0, String "032" ("abc1234" ++ String "010" EmptyString)))
           (Ok (0, "fffffff")) None (Some "abc1234") "0.1.0-abc1234").
  left. vm_compute. reflexivity.
Defined.

Lemma get_version_never_reads_git_output_witness :
  Version.get_version MoreExamples.decode
                      (Ok (0, "abc1234" ++ String "010" EmptyString)) None
  = (Exc (Exn AttributeError "strip"), None)
  ∧ Version.get_version_sync MoreExamples.decode
                             (Ok (0, "abc1234" ++ String "010" EmptyString))
                             None
    = (Ret "0.1.0-abc1234", Some "abc1234").
Proof.
  destruct (proj1 (get_version_never_reads_git_output
                     MoreExamples.decode
                     (Ok (0, "abc1234" ++ String "010" EmptyString)))
                  ("abc1234" ++ String "010" EmptyString) eq_refl)
    as [Hasync Hsync].
  split; [exact Hasync|]. apply (Hsync "abc1234"). reflexivity.
Defined.
